(** * WhatsApp agent: message routing and referral ledger

    A shallow embedding of the orchestration core of the WhatsApp agent
    ([bot/whatsapp_bot.py], [utils/referrals_handler.py],
    [database/customer.py], [database/referral.py]) together with the
    properties of its content-kind classifier, referral-code extraction,
    referral crediting, identity resolution and routing.

    Conventions of the embedding
    - A Python [str] is a list of Unicode code points ([list N]); [lit]
      turns a literal of the source into such a list.
    - A JSON value or Python object handled as data is a [pyval]; a [dict]
      (a table row, a [.dict()] payload) is a [gmap string pyval] keyed by
      its field names.
    - An exception is a value of [exn]; a computation that can raise
      returns a [result], and code that also touches the stores is a
      function [world -> result A * world]: effects made before an
      exception is raised stay in the world.
    - External collaborators (language models, QuickBooks, Shopify, the
      WhatsApp gateway, the clock, the random generator) are the fields of
      a record [env], over which every statement is quantified. *)

From stdpp Require Import gmap strings list fin_maps.
From Stdlib Require Import ZArith NArith.

Local Set Warnings "-register-all,-clear-no-such-hyp".
Local Open Scope string_scope.
Local Open Scope list_scope.

(** ** Text *)

Module Text.

(** Code points of a literal of the source (all literals are ASCII). *)
Definition lit (s : string) : list N :=
  Ascii.N_of_ascii <$> String.list_ascii_of_string s.

(** [s.startswith(p)] *)
Fixpoint startswith (s p : list N) {struct p} : bool :=
  match p, s with
  | [], _ => true
  | _ :: _, [] => false
  | c :: p', d :: s' => (c =? d)%N && startswith s' p'
  end.

(** [s.endswith(p)] *)
Definition endswith (s p : list N) : bool :=
  startswith (reverse s) (reverse p).

(** [p in s] on strings: [p] occurs as a contiguous run of [s]. *)
Fixpoint contains (s p : list N) : bool :=
  startswith s p ||
  match s with
  | [] => false
  | _ :: s' => contains s' p
  end.

End Text.
Import Text.

(** ** Content kind of a message ([bot/whatsapp_bot.py]) *)

(** The four values of [message_type]: the literals ["text"], ["image"],
    ["audio"] and ["document"]. *)
Inductive content_kind := text | image | audio | document.

#[global] Instance content_kind_eq_dec : EqDecision content_kind.
Proof. solve_decision. Defined.

(** The test [raw.startswith("![") and "](" in raw and raw.endswith(")")]. *)
Definition image_markdown (raw : list N) : bool :=
  startswith raw (lit "![") && contains raw (lit "](") && endswith raw (lit ")").

(** The test [raw.startswith("[") and "](" in raw and raw.endswith(")")]. *)
Definition link_markdown (raw : list N) : bool :=
  startswith raw (lit "[") && contains raw (lit "](") && endswith raw (lit ")").

(** ["Audio Message" in raw] *)
Definition mentions_audio (raw : list N) : bool :=
  contains raw (lit "Audio Message").

(** The [message_type] computed by [_log_customer_message]. *)
Definition customer_message_type (is_voice : bool) (raw_message : list N)
  : content_kind :=
  if is_voice then audio
  else if image_markdown raw_message then image
  else if link_markdown raw_message && mentions_audio raw_message then audio
  else if link_markdown raw_message then document
  else text.

(** Who wrote a chat message: the [sender] literals ["customer"] and
    ["agent"]. *)
Inductive originator := by_customer | by_agent.

(** The [message_type] computed by [stream_to_web_socket]. *)
Definition stream_message_type (sender : originator) (message : list N)
  : content_kind :=
  match sender with
  | by_customer =>
      if image_markdown message then image
      else if link_markdown message && mentions_audio message then audio
      else if link_markdown message then document
      else text
  | by_agent => text
  end.

(** The [message_type] stored by [_log_agent_message]. *)
Definition agent_message_type (response : list N) : content_kind := text.

(** The shapes as the specification words them. *)
Definition image_shape (content : list N) : Prop :=
  ∃ caption url, content = lit "![" ++ caption ++ lit "](" ++ url ++ lit ")".

Definition link_shape (content : list N) : Prop :=
  ∃ caption url, content = lit "[" ++ caption ++ lit "](" ++ url ++ lit ")".

Definition has_audio_literal (content : list N) : Prop :=
  ∃ a b, content = a ++ lit "Audio Message" ++ b.

(** ** Referral-code extraction ([utils/referrals_handler.py]) *)

Module Regex.

(** [[A-Z]] *)
Definition is_upper (c : N) : bool := (65 <=? c)%N && (c <=? 90)%N.

(** [\s] of a [str] pattern: the code points Python counts as white
    space. *)
Definition is_space (c : N) : bool :=
  ((9 <=? c) && (c <=? 13) || (28 <=? c) && (c <=? 32) ||
   (c =? 133) || (c =? 160) || (c =? 5760) ||
   (8192 <=? c) && (c <=? 8202) || (c =? 8232) || (c =? 8233) ||
   (c =? 8239) || (c =? 8287) || (c =? 12288))%N.

(** A literal piece of the pattern: the rest of [s] after [p]. *)
Fixpoint expect (p s : list N) {struct p} : option (list N) :=
  match p, s with
  | [], _ => Some s
  | _ :: _, [] => None
  | c :: p', d :: s' => if (c =? d)%N then expect p' s' else None
  end.

(** [\s*]: greedy; what follows it in the pattern is ["_"], which is not
    white space, so giving characters back can never help. *)
Fixpoint skip_spaces (s : list N) : list N :=
  match s with
  | c :: s' => if is_space c then skip_spaces s' else s
  | [] => []
  end.

(** [([A-Z]{n})]: the group and the rest. *)
Fixpoint upper_run (n : nat) (s : list N) : option (list N * list N) :=
  match n, s with
  | O, _ => Some ([], s)
  | S _, [] => None
  | S n', c :: s' =>
      if is_upper c
      then '(g, rest) ← upper_run n' s'; Some (c :: g, rest)
      else None
  end.

(** The pattern [\(Referral code:\s*_([A-Z]{4})-([A-Z]{6})_\)] matched at
    the start of [s]: groups 1 and 2. *)
Definition match_here (s : list N) : option (list N * list N) :=
  s1 ← expect (lit "(Referral code:") s;
  s2 ← expect (lit "_") (skip_spaces s1);
  '(campaign, s3) ← upper_run 4 s2;
  s4 ← expect (lit "-") s3;
  '(referral, s5) ← upper_run 6 s4;
  _ ← expect (lit "_)") s5;
  Some (campaign, referral).

(** [re.search]: the match at the leftmost position that has one. *)
Fixpoint search (s : list N) : option (list N * list N) :=
  match match_here s with
  | Some groups => Some groups
  | None =>
      match s with
      | [] => None
      | _ :: s' => search s'
      end
  end.

End Regex.

(** [ReferralHandler._extract_codes]: [(campaign_code, referral_code)]. *)
Definition _extract_codes (message : list N)
  : option (list N) * option (list N) :=
  match Regex.search message with
  | Some (campaign, referral) => (Some campaign, Some referral)
  | None => (None, None)
  end.

(** The text the pattern matches, for white space [ws] and groups [c], [r]. *)
Definition wrapper (ws c r : list N) : list N :=
  lit "(Referral code:" ++ ws ++ lit "_" ++ c ++ lit "-" ++ r ++ lit "_)".

Definition upper_token (n : nat) (t : list N) : Prop :=
  length t = n ∧ Forall (λ c, Regex.is_upper c = true) t.

(** [s] has, at offset [k], a wrapper with groups [c] and [r]. *)
Definition wrapper_at (k : nat) (s c r : list N) : Prop :=
  ∃ ws post,
    drop k s = wrapper ws c r ++ post ∧ (k ≤ length s)%nat ∧
    Forall (λ x, Regex.is_space x = true) ws ∧
    upper_token 4 c ∧ upper_token 6 r.

(** The wrapper as the specification spells it: one space after the colon. *)
Definition exact_wrapper_in (s : list N) : Prop :=
  ∃ pre c r post,
    s = pre ++ wrapper (lit " ") c r ++ post ∧
    upper_token 4 c ∧ upper_token 6 r.


(** ** Python values, exceptions and results *)

(** The values that travel as JSON or as plain Python data.  Numbers are
    integers: arithmetic in this program is on counters. *)
Inductive pyval :=
| PNone
| PBool (b : bool)
| PInt (n : Z)
| PStr (s : list N)
| PList (l : list pyval)
| PDict (d : gmap string pyval).

(** [bool(v)], the test behind [if v], [not v] and [v or w]. *)
Definition truthy (v : pyval) : bool :=
  match v with
  | PNone => false
  | PBool b => b
  | PInt n => negb (n =? 0)%Z
  | PStr s => match s with [] => false | _ :: _ => true end
  | PList l => match l with [] => false | _ :: _ => true end
  | PDict d => negb (bool_decide (dom d = ∅))
  end.

(** [d.get(k)], which is [None] for a missing key, and attribute access on
    an object whose fields are kept as a mapping. *)
Definition get (d : gmap string pyval) (k : string) : pyval :=
  default PNone (d !! k).

(** [v == s] for a string [s]. *)
Definition eq_str (v : pyval) (s : list N) : bool :=
  match v with
  | PStr t => bool_decide (t = s)
  | _ => false
  end.

(** [v in (None, [], "")] *)
Definition blank (v : pyval) : bool :=
  match v with
  | PNone => true
  | PList [] => true
  | PStr [] => true
  | _ => false
  end.

Inductive exn :=
| TypeError
| AttributeError
| KeyError
| NameError
| ValueError
| ValidationError
| UpstreamError.

Inductive result (A : Type) :=
| Ok (a : A)
| Raise (e : exn).
Arguments Ok {A} a.
Arguments Raise {A} e.

#[global] Instance result_ret : MRet result := @Ok.
#[global] Instance result_bind : MBind result :=
  λ A B k r, match r with Ok a => k a | Raise e => Raise e end.

(** [v + 1] *)
Definition add_one (v : pyval) : result pyval :=
  match v with
  | PInt n => Ok (PInt (n + 1))
  | PBool b => Ok (PInt (Z.b2z b + 1))
  | _ => Raise TypeError
  end.

(** [v.get(k)] when [v] need not be a mapping. *)
Definition get_attr (v : pyval) (k : string) : result pyval :=
  match v with
  | PDict d => Ok (get d k)
  | _ => Raise AttributeError
  end.

(** The items [for x in v] visits: the elements of a list, the characters
    of a string, the keys of a mapping. *)
Definition iterate (v : pyval) : result (list pyval) :=
  match v with
  | PList l => Ok l
  | PStr s => Ok ((λ c, PStr [c]) <$> s)
  | PDict d => Ok ((λ kv, PStr (lit kv.1)) <$> map_to_list d)
  | _ => Raise TypeError
  end.

(** ** Schemas *)

(** [MessageSchema] ([schema/chat_history.py]). *)
Record MessageSchema := {
  time_stamp : list N;
  content : list N;
  message_type : content_kind;
  sender : originator
}.

(** [ReferredUserSchema] and its [.dict()] ([schema/referrals.py]). *)
Record ReferredUserSchema := {
  phone_number : list N;
  user_time_stamp : list N
}.

Definition referred_user_dict (u : ReferredUserSchema) : pyval :=
  PDict {[ "phone_number" := PStr (phone_number u);
           "time_stamp" := PStr (user_time_stamp u) ]}.

(** [ReferralSchema] and its [.dict()] ([schema/referrals.py]). *)
Record ReferralSchema := {
  total_points : Z;
  referrer_id : option (list N);
  referrer_name : option (list N);
  referrer_email : option (list N);
  referrer_phone : option (list N);
  referral_code : option (list N);
  referred_users : list ReferredUserSchema;
  campaign_id : option (list N)
}.

Definition opt_str (o : option (list N)) : pyval :=
  match o with
  | Some s => PStr s
  | None => PNone
  end.

Definition referral_dict (r : ReferralSchema) : gmap string pyval :=
  {[ "total_points" := PInt (total_points r);
     "referrer_id" := opt_str (referrer_id r);
     "referrer_name" := opt_str (referrer_name r);
     "referrer_email" := opt_str (referrer_email r);
     "referrer_phone" := opt_str (referrer_phone r);
     "referral_code" := opt_str (referral_code r);
     "referred_users" := PList (referred_user_dict <$> referred_users r);
     "campaign_id" := opt_str (campaign_id r) ]}.

(** Does a stored row conform to [ReferralSchema]?  [total_points] is an
    integer, [referred_users] a list of entries with a phone number and a
    time stamp, and every other field an optional string. *)
Definition is_opt_str (v : pyval) : bool :=
  match v with
  | PNone | PStr _ => true
  | _ => false
  end.

Definition is_referred_user (v : pyval) : bool :=
  match v with
  | PDict d =>
      match d !! "phone_number", d !! "time_stamp" with
      | Some (PStr _), Some (PStr _) => true
      | _, _ => false
      end
  | _ => false
  end.

Definition referral_valid (row : gmap string pyval) : bool :=
  match row !! "total_points" with
  | Some (PInt _) => true
  | _ => false
  end &&
  match row !! "referred_users" with
  | Some (PList us) => forallb is_referred_user us
  | _ => false
  end &&
  forallb (λ k, is_opt_str (get row k))
    ["referrer_id"; "referrer_name"; "referrer_email"; "referrer_phone";
     "referral_code"; "campaign_id"].

(** ** The world: stores and outbound channels *)

(** The three handlers [_route_to_agent] can start. *)
Inductive handler :=
| CustomerGreetingAgent
| D2CCustomerSupportAgent
| B2BBusinessSupportAgent.

(** What leaves the process, in the order it happens: a write to the chat
    history, a broadcast to the dashboard, a WhatsApp send, the start of a
    handler on an input. *)
Inductive event :=
| HistoryAppend (phone : list N) (m : MessageSchema)
| Broadcast (phone : list N) (m : MessageSchema)
| Send (to : pyval) (body : list N)
| AgentRun (h : handler) (input : list N).

(** The tables [customers] and [referrals] (rows in insertion order), the
    chat log of every phone number, and the trace of history writes,
    dashboard broadcasts, WhatsApp sends and agent runs. *)
Record world := {
  customers : list (gmap string pyval);
  referrals : list (gmap string pyval);
  chats : gmap (list N) (list MessageSchema);
  trace : list event
}.

Definition set_customers (t : list (gmap string pyval)) (w : world) : world :=
  {| customers := t; referrals := referrals w; chats := chats w;
     trace := trace w |}.

Definition set_referrals (t : list (gmap string pyval)) (w : world) : world :=
  {| customers := customers w; referrals := t; chats := chats w;
     trace := trace w |}.

Definition set_chats (c : gmap (list N) (list MessageSchema)) (w : world)
  : world :=
  {| customers := customers w; referrals := referrals w; chats := c;
     trace := trace w |}.

Definition emit (e : event) (w : world) : world :=
  {| customers := customers w; referrals := referrals w; chats := chats w;
     trace := trace w ++ [e] |}.

(** The part of a customer an agent sees ([CustomerContextSchema]) and the
    recent messages ([GlobalContext]). *)
Record GlobalContext := {
  customer_context : gmap string pyval;
  messages : list MessageSchema
}.

(** The routing decision of the intent router
    ([SentimentAnalysisResult]). *)
Record SentimentAnalysisResult := {
  next_agent : list N;
  name : option (list N);
  email : option (list N);
  address : option (list N);
  socials : option (list (list N));
  interest_groups : list (list N)
}.

(** The collaborators outside the repository.  [clock] is
    [_get_current_karachi_time_str] read after so many events;
    [schema_ok] is the field validation of [CustomerSchema], whose
    declaration is not part of the sources; [agent_escalations] lists the
    phone numbers for which a support agent called its
    [escalate_to_human_support_tool] during a run. *)
Record env := {
  clock : nat → list N;
  receive : pyval → bool → option (list N * list N);
  history_window : nat;
  schema_ok : gmap string pyval → bool;
  quickbook : list N → result (option (gmap string pyval));
  shopify : list N → result (option (gmap string pyval));
  router : list N → GlobalContext → result SentimentAnalysisResult;
  agent_reply : handler → list N → GlobalContext → result (list N);
  agent_escalations : handler → list N → GlobalContext → list (list N);
  random_code : nat → result (list N);
  quote : list N → list N;
  format : pyval → list N
}.

(** ** Computations over the world *)

Definition M (A : Type) : Type := world → result A * world.

#[global] Instance M_ret : MRet M := λ A a w, (Ok a, w).

#[global] Instance M_bind : MBind M :=
  λ A B k m w,
    match m w with
    | (Ok a, w') => k a w'
    | (Raise e, w') => (Raise e, w')
    end.

Definition raise {A} (e : exn) : M A := λ w, (Raise e, w).

Definition lift {A} (r : result A) : M A := λ w, (r, w).

Definition read {A} (f : world → A) : M A := λ w, (Ok (f w), w).

Definition modify (f : world → world) : M unit := λ w, (Ok (), f w).

(** [try: m  except Exception: h] *)
Definition try_except {A} (m : M A) (h : exn → M A) : M A :=
  λ w,
    match m w with
    | (Ok a, w') => (Ok a, w')
    | (Raise e, w') => h e w'
    end.

(** [_get_current_karachi_time_str()] *)
Definition now (E : env) : M (list N) :=
  read (λ w, clock E (length (trace w))).

(** ** The record store *)

(** Modelled from the spec: the Supabase client behind [DataBase]
    ([database/base.py]) is not part of the sources.  It is the generic
    keyed record store of the specification: rows are selected by
    equality of a column with a string, [insert] adds a row at the end,
    [update] overwrites the given columns of every selected row, and the
    [data] of a response is the list of rows selected, inserted or
    updated. *)
Definition eq_col (col : string) (v : list N) (row : gmap string pyval)
  : bool :=
  eq_str (get row col) v.

Definition select_eq (col : string) (v : list N)
  (table : list (gmap string pyval)) : list (gmap string pyval) :=
  List.filter (eq_col col v) table.

Definition update_eq (col : string) (v : list N) (payload : gmap string pyval)
  (table : list (gmap string pyval)) : list (gmap string pyval) :=
  (λ row, if eq_col col v row then payload ∪ row else row) <$> table.

Definition updated_rows (col : string) (v : list N)
  (payload : gmap string pyval) (table : list (gmap string pyval))
  : list (gmap string pyval) :=
  (λ row, payload ∪ row) <$> select_eq col v table.

(** ** [CustomerDataBase] ([database/customer.py]) *)

(** Modelled from the spec: [CustomerSchema] ([schema/customer_schema.py])
    is not part of the sources.  It is a pydantic model of the
    CustomerProfile of the specification; an instance is kept as the
    mapping of its fields, [CustomerSchema(...)] and
    [CustomerSchema.model_validate] accept a mapping whose fields pass
    [schema_ok] and raise [ValidationError] otherwise, and
    [model_validate] raises on any value that is not a mapping. *)
Definition CustomerSchema (E : env) (fields : gmap string pyval)
  : result (gmap string pyval) :=
  if schema_ok E fields then Ok fields else Raise ValidationError.

Definition model_validate (E : env) (v : pyval)
  : result (gmap string pyval) :=
  match v with
  | PDict d => CustomerSchema E d
  | _ => Raise ValidationError
  end.

(** [add_customer]: returns [response.data[0]]. *)
Definition add_customer (customer : gmap string pyval) : M pyval :=
  modify (λ w, set_customers (customers w ++ [customer]) w);;
  mret (PDict customer).

(** [get_customer_by_phone] *)
Definition get_customer_by_phone (E : env) (phone : list N)
  : M (option (gmap string pyval)) :=
  data ← read (λ w, take 1 (select_eq "phone_number" phone (customers w)));
  match data with
  | row :: _ => c ← lift (model_validate E (PDict row)); mret (Some c)
  | [] => mret None
  end.

(** The payload [update_customer] sends to the store. *)
Definition clean_updates (updates : gmap string pyval) : gmap string pyval :=
  delete "escalation_status"
    (filter (λ kv, blank kv.2 = false) updates).

(** [update_customer]: returns [response.data]. *)
Definition update_customer (phone : list N) (updates : gmap string pyval)
  : M pyval :=
  data ← read (λ w, updated_rows "phone_number" phone (clean_updates updates)
                      (customers w));
  modify (λ w, set_customers
                 (update_eq "phone_number" phone (clean_updates updates)
                    (customers w)) w);;
  mret (PList (PDict <$> data)).

(** [is_escalated] *)
Definition is_escalated (phone : list N) : M bool :=
  data ← read (λ w, take 1 (select_eq "phone_number" phone (customers w)));
  match data with
  | [] => mret false
  | row :: _ => mret (truthy (get row "escalation_status"))
  end.

(** [update_escalation_status] *)
Definition update_escalation_status (phone : list N) (status : bool)
  : M bool :=
  data ← read (λ w, updated_rows "phone_number" phone
                      {[ "escalation_status" := PBool status ]} (customers w));
  modify (λ w, set_customers
                 (update_eq "phone_number" phone
                    {[ "escalation_status" := PBool status ]} (customers w)) w);;
  mret (match data with [] => false | _ :: _ => true end).

(** ** [ChatHistoryDataBase] *)

(** Modelled from the spec: [ChatHistoryDataBase]
    ([database/chat_history.py]) is not part of the sources.  [append]
    creates the log of a phone number on its first write; [recent] is the
    last [history_window] messages, oldest first. *)
Definition add_or_create_message (phone : list N) (m : MessageSchema)
  : M unit :=
  modify (λ w, emit (HistoryAppend phone m)
                 (set_chats (<[phone := default [] (chats w !! phone) ++ [m]]>
                               (chats w)) w)).

Definition recent_history (E : env) (phone : list N) (w : world)
  : list MessageSchema :=
  let log := default [] (chats w !! phone) in
  drop (length log - history_window E) log.

Definition get_recent_chat_history_by_phone (E : env) (phone : list N)
  : M (list MessageSchema) :=
  read (recent_history E phone).

(** ** [ReferralDataBase] ([database/referral.py]) *)

(** [add_referral] *)
Definition add_referral (referral : ReferralSchema) : M unit :=
  modify (λ w, set_referrals (referrals w ++ [referral_dict referral]) w).

(** [get_referral_by_code]: [response.data[0] if response.data else None].
    A [None] code selects no row. *)
Definition get_referral_by_code (code : option (list N))
  : M (option (gmap string pyval)) :=
  read (λ w, match code with
             | Some c => head (select_eq "referral_code" c (referrals w))
             | None => None
             end).

(** [get_referral_by_phone_number] *)
Definition get_referral_by_phone_number (phone : list N)
  : M (option (gmap string pyval)) :=
  read (λ w, head (select_eq "referrer_phone" phone (referrals w))).

(** The store update both writers end with. *)
Definition update_referral_row (code : option (list N))
  (payload : gmap string pyval) : M unit :=
  modify (λ w, match code with
               | Some c =>
                   set_referrals (update_eq "referral_code" c payload
                                    (referrals w)) w
               | None => w
               end).

(** [add_referred_user].  [referral.get("referred_users", [])] is the list
    held by the fetched row when the key is there, so the [append] is seen
    by the second [get]; without the key each [get] makes a new empty
    list and the appended entry is lost. *)
Definition add_referred_user (code : option (list N))
  (referred_user : ReferredUserSchema) : M unit :=
  referral ← get_referral_by_code code;
  match referral with
  | None => raise AttributeError
  | Some row =>
      match row !! "referred_users" with
      | Some (PList users) =>
          update_referral_row code
            {[ "referred_users" :=
                 PList (users ++ [referred_user_dict referred_user]) ]}
      | Some _ => raise AttributeError
      | None => update_referral_row code {[ "referred_users" := PList [] ]}
      end
  end.

(** [update_referral] *)
Definition update_referral (code : option (list N)) : M unit :=
  referral ← get_referral_by_code code;
  match referral with
  | None => raise TypeError
  | Some row =>
      match row !! "total_points" with
      | None => raise KeyError
      | Some v =>
          points ← lift (add_one v);
          update_referral_row code {[ "total_points" := points ]}
      end
  end.

(** ** [ReferralHandler] ([utils/referrals_handler.py]) *)

(** The loop of [_check_existing_referral]:
    [user.get('phone_number', None) == phone_number] on each entry. *)
Fixpoint scan_referred (phone : list N) (users : list pyval) : result bool :=
  match users with
  | [] => Ok false
  | user :: rest =>
      v ← get_attr user "phone_number";
      if eq_str v phone then Ok true else scan_referred phone rest
  end.

(** [_check_existing_referral]: [True] stands for "already credited". *)
Definition _check_existing_referral (phone : list N)
  (code : option (list N)) : M bool :=
  try_except
    (referral ← get_referral_by_code code;
     match referral with
     | None => mret true
     | Some row =>
         if truthy (PDict row)
         then users ← lift (iterate (default (PList [])
                                       (row !! "referred_users")));
              lift (scan_referred phone users)
         else mret true
     end)
    (λ _, mret true).

(** [_generate_referral_code] *)
Definition _generate_referral_code (E : env) : M (list N) :=
  read (λ w, match random_code E (length (trace w)) with
             | Ok code => code
             | Raise _ => lit "ERROR"
             end).

(** [_add_user_to_referral] *)
Definition _add_user_to_referral (E : env) (phone : list N)
  (code : option (list N)) : M unit :=
  try_except
    (t ← now E;
     add_referred_user code {| phone_number := phone; user_time_stamp := t |})
    (λ _, mret ()).

(** The notice sent to the referrer. *)
Definition incremented_notice : list N :=
  9989%N :: lit " Your referral count has been incremented!".

(** [_increment_referral_count].  The assignment to
    [referral["total_points"]] changes the fetched copy only; what it can
    do to the run is raise. *)
Definition _increment_referral_count (E : env) (code : option (list N))
  (phone : list N) (send_message : bool) : M unit :=
  try_except
    (_add_user_to_referral E phone code;;
     referral ← get_referral_by_code code;
     match referral with
     | None => mret ()
     | Some row =>
         if truthy (PDict row)
         then lift (add_one (default (PInt 0) (row !! "total_points")));;
              update_referral code;;
              if send_message && truthy (get row "referrer_phone")
              then modify (emit (Send (get row "referrer_phone")
                                   incremented_notice))
              else mret ()
         else mret ()
     end)
    (λ _, mret ()).

(** [_generate_referral_link], with the default phone number. *)
Definition DEFAULT_PHONE_NUMBER : list N := lit "15551304374".

Definition _generate_referral_link (E : env) (message : list N) : list N :=
  lit "https://wa.me/" ++ DEFAULT_PHONE_NUMBER ++ lit "/?text=" ++
  quote E message.

(** [_static_message], with the default campaign code. *)
Definition _static_message (E : env) (code : list N) : list N :=
  let referral_link :=
    _generate_referral_link E
      (128075%N :: lit " Hi! I'm inviting you to try *Boost Buddy WhatsApp Bot* "
       ++ 128640%N :: lit " It's super useful and easy to use.  " ++ [10%N]
       ++ lit "Here's your referral code: (Referral code: _QTMR-" ++ code
       ++ lit "_) " ++ 127881%N :: lit "  " ++ [10%N]
       ++ 128073%N :: lit " Just send this code to get started!") in
  127881%N :: lit " Thank you for being part of Boost Buddy! "
  ++ [127881%N; 10%N; 10%N]
  ++ lit "Share this exclusive referral code with your friends and family:"
  ++ [10%N; 10%N]
  ++ 128273%N :: lit " " ++ referral_link ++ [10%N; 10%N]
  ++ lit "Every time they shop using your code, you both get amazing rewards! "
  ++ [128717%N; 65039%N; 10024%N; 10%N]
  ++ lit "Start sharing now and enjoy great savings together! " ++ [128184%N].

(** An optional string field of [ReferralSchema] given a value. *)
Definition as_opt_str (v : pyval) : result (option (list N)) :=
  match v with
  | PNone => Ok None
  | PStr s => Ok (Some s)
  | _ => Raise ValidationError
  end.

(** A value put into an f-string. *)
Definition formatted (E : env) (v : pyval) : list N :=
  match v with
  | PStr s => s
  | _ => format E v
  end.

(** The branch of [referral_workflow] for a sender without a referral
    record of their own: a new code and a new record.  When
    [ReferralSchema(...)] fails to validate, [new_referral] stays unbound
    and the [try] around [add_referral] swallows the [NameError]: nothing
    is stored. *)
Definition issue_referral_code (E : env) (phone : list N)
  (campaign_code : option (list N)) (global_context : option GlobalContext)
  : M (option (list N)) :=
  new_referral_code ← _generate_referral_code E;
  let fields :=
    match global_context with
    | Some g =>
        n ← as_opt_str (get (customer_context g) "customer_name");
        e ← as_opt_str (get (customer_context g) "email");
        Ok (n, e)
    | None => Ok (Some [], Some [])
    end in
  match fields with
  | Ok (n, e) =>
      add_referral
        {| total_points := 0;
           referrer_id := Some phone;
           referrer_name := n;
           referrer_email := e;
           referrer_phone := Some phone;
           referral_code := Some new_referral_code;
           referred_users := [];
           campaign_id := campaign_code |}
  | Raise _ => mret ()
  end;;
  mret (Some (_static_message E new_referral_code)).

(** [referral_workflow].  The campaign check only writes to the log, and
    so do the warnings. *)
Definition referral_workflow (E : env) (user_message phone : list N)
  (global_context : option GlobalContext) : M (option (list N)) :=
  try_except
    (let '(campaign_code, code) := _extract_codes user_message in
     credited ← _check_existing_referral phone code;
     (if credited : bool then mret ()
      else _increment_referral_count E code phone true);;
     referral ← get_referral_by_phone_number phone;
     match referral with
     | Some row =>
         if truthy (PDict row)
         then match row !! "referral_code" with
              | Some v => mret (Some (_static_message E (formatted E v)))
              | None => raise KeyError
              end
         else issue_referral_code E phone campaign_code global_context
     | None => issue_referral_code E phone campaign_code global_context
     end)
    (λ _, mret None).

(** ** [WhatsappBot] ([bot/whatsapp_bot.py]) *)

Definition DEFAULT_CUSTOMER_TYPE : list N := lit "D2C".
Definition DEFAULT_TOTAL_SPEND : Z := 0.

(** Modelled from the spec: [MessageSchema] ([schema/chat_history.py]) is
    not part of the sources; the content of a ChatMessage is text, so a
    message built from a missing reply fails to validate. *)
Definition agent_message (t : list N) (response : option (list N))
  : result MessageSchema :=
  match response with
  | Some r =>
      Ok {| time_stamp := t; content := r;
            message_type := agent_message_type r; sender := by_agent |}
  | None => Raise ValidationError
  end.

(** [_log_customer_message] *)
Definition _log_customer_message (E : env) (phone raw_message : list N)
  (is_voice : bool) : M unit :=
  t ← now E;
  add_or_create_message phone
    {| time_stamp := t; content := raw_message;
       message_type := customer_message_type is_voice raw_message;
       sender := by_customer |}.

(** [_log_agent_message] *)
Definition _log_agent_message (E : env) (phone : list N)
  (response : option (list N)) : M unit :=
  t ← now E;
  m ← lift (agent_message t response);
  add_or_create_message phone m.

(** [stream_to_web_socket] *)
Definition stream_to_web_socket (E : env) (phone message : list N)
  (sender : originator) : M unit :=
  t ← now E;
  modify (emit (Broadcast phone
                  {| time_stamp := t; content := message;
                     message_type := stream_message_type sender message;
                     sender := sender |})).

(** [send_whatsapp_message] *)
Definition send_whatsapp_message (to message : list N) : M unit :=
  modify (emit (Send (PStr to) message)).

(** The test that sends [_get_or_create_customer] to QuickBooks. *)
Definition incomplete (customer_details : option (gmap string pyval))
  : bool :=
  match customer_details with
  | None => true
  | Some c =>
      negb (truthy (get c "customer_name")) ||
      negb (truthy (get c "email")) ||
      negb (truthy (get c "customer_quickbook_id")) ||
      negb (truthy (get c "customer_type")) ||
      negb (truthy (get c "company_name")) ||
      negb (truthy (get c "is_active")) ||
      negb (truthy (get c "phone_number"))
  end.

(** The record created from a QuickBooks customer. *)
Definition quickbook_fields (customer : gmap string pyval) (phone : list N)
  : gmap string pyval :=
  {[ "customer_name" := get customer "customer_name";
     "email" := get customer "email";
     "customer_quickbook_id" := get customer "customer_quickbook_id";
     "customer_type" := get customer "customer_type";
     "company_name" := get customer "company_name";
     "is_active" := get customer "is_active";
     "phone_number" := PStr phone ]}.

(** The record created when neither source knows the phone number. *)
Definition minimal_fields (phone : list N) : gmap string pyval :=
  {[ "phone_number" := PStr phone;
     "is_active" := PBool true;
     "escalation_status" := PBool false;
     "customer_type" := PStr DEFAULT_CUSTOMER_TYPE;
     "total_spend" := PInt DEFAULT_TOTAL_SPEND ]}.

(** [v or w] *)
Definition or_else (v w : pyval) : pyval := if truthy v then v else w.

(** [", ".join(parts)] *)
Fixpoint join_comma (parts : list pyval) : result (list N) :=
  match parts with
  | [] => Ok []
  | PStr s :: rest =>
      match rest with
      | [] => Ok s
      | _ :: _ => t ← join_comma rest; Ok (s ++ lit ", " ++ t)
      end
  | _ :: _ => Raise TypeError
  end.

(** The record created from a Shopify customer. *)
Definition shopify_fields (shopify_customer : gmap string pyval)
  (phone : list N) : result (gmap string pyval) :=
  let email_obj := or_else (get shopify_customer "defaultEmailAddress")
                     (PDict ∅) in
  let addr := or_else (get shopify_customer "defaultAddress") (PDict ∅) in
  mail ← get_attr email_obj "email";
  a1 ← get_attr addr "address1";
  a2 ← get_attr addr "city";
  a3 ← get_attr addr "province";
  a4 ← get_attr addr "country";
  a5 ← get_attr addr "zip";
  joined ← join_comma (List.filter truthy [a1; a2; a3; a4; a5]);
  Ok {[ "phone_number" := PStr phone;
        "is_active" := PBool true;
        "escalation_status" := PBool false;
        "customer_type" := PStr DEFAULT_CUSTOMER_TYPE;
        "total_spend" := or_else (get shopify_customer "totalSpent")
                           (PInt DEFAULT_TOTAL_SPEND);
        "customer_name" := get shopify_customer "displayName";
        "email" := mail;
        "address" := or_else (PStr joined) PNone ]}.

(** [new_customer = CustomerSchema(...)] followed by [add_customer]. *)
Definition create_customer (E : env) (fields : gmap string pyval)
  : M pyval :=
  new_customer ← lift (CustomerSchema E fields);
  add_customer new_customer.

(** The branch of [_get_or_create_customer] for a phone number that
    neither the local store nor QuickBooks knows: the Shopify lookup, and
    the minimal record when it finds nothing or fails. *)
Definition create_without_quickbooks (E : env) (phone : list N) : M pyval :=
  try_except
    (shopify_customer ← lift (shopify E phone);
     match shopify_customer with
     | Some sc =>
         if truthy (PDict sc)
         then fields ← lift (shopify_fields sc phone);
              create_customer E fields
         else create_customer E (minimal_fields phone)
     | None => create_customer E (minimal_fields phone)
     end)
    (λ _, create_customer E (minimal_fields phone)).

(** [_get_or_create_customer] *)
Definition _get_or_create_customer (E : env) (phone : list N)
  : M (gmap string pyval) :=
  found ← get_customer_by_phone E phone;
  customer_details ←
    (if incomplete found
     then
       customer ← lift (quickbook E phone);
       match customer, found with
       | Some qb, Some _ => update_customer phone qb
       | Some qb, None => create_customer E (quickbook_fields qb phone)
       | None, None => create_without_quickbooks E phone
       | None, Some c => mret (PDict c)
       end
     else mret (match found with Some c => PDict c | None => PNone end));
  lift (model_validate E customer_details).

(** [_format_customer_context]: the six fields of [CustomerContextSchema]. *)
Definition _format_customer_context (customer : gmap string pyval)
  : gmap string pyval :=
  {[ "phone_number" := get customer "phone_number";
     "customer_type" := get customer "customer_type";
     "customer_name" := get customer "customer_name";
     "email" := get customer "email";
     "address" := get customer "address";
     "customer_quickbook_id" := get customer "customer_quickbook_id" ]}.

(** [GlobalContext(customer_context=..., messages=...)] as
    [execute_workflow] builds it. *)
Definition global_context_of (customer : gmap string pyval)
  (chat_history : list MessageSchema) : GlobalContext :=
  {| customer_context := _format_customer_context customer;
     messages := chat_history |}.

(** The names [_route_to_agent] compares [next_agent] with. *)
Definition handler_name (h : handler) : list N :=
  match h with
  | CustomerGreetingAgent => lit "CustomerGreetingAgent"
  | D2CCustomerSupportAgent => lit "D2CCustomerSupportAgent"
  | B2BBusinessSupportAgent => lit "B2BBusinessSupportAgent"
  end.

Definition handler_named (next : list N) : option handler :=
  if bool_decide (next = handler_name CustomerGreetingAgent)
  then Some CustomerGreetingAgent
  else if bool_decide (next = handler_name D2CCustomerSupportAgent)
  then Some D2CCustomerSupportAgent
  else if bool_decide (next = handler_name B2BBusinessSupportAgent)
  then Some B2BBusinessSupportAgent
  else None.

(** [agent.run]: the two support agents carry the escalation tool, the
    greeting agent has no tools. *)
Definition escalate_all (phones : list (list N)) : M unit :=
  foldr (λ p rest, update_escalation_status p true;; rest) (mret ()) phones.

Definition run_agent (E : env) (h : handler) (input : list N)
  (global_context : GlobalContext) : M (list N) :=
  modify (emit (AgentRun h input));;
  match h with
  | CustomerGreetingAgent => mret ()
  | _ => escalate_all (agent_escalations E h input global_context)
  end;;
  lift (agent_reply E h input global_context).

(** The test on the extracted personal information. *)
Definition has_personal_info (sentiment : SentimentAnalysisResult) : bool :=
  match name sentiment with Some (_ :: _) => true | _ => false end ||
  match email sentiment with Some (_ :: _) => true | _ => false end ||
  match address sentiment with Some (_ :: _) => true | _ => false end ||
  match socials sentiment with Some (_ :: _) => true | _ => false end ||
  match interest_groups sentiment with _ :: _ => true | [] => false end.

(** [PersonalInfoSchema(...).dict()] *)
Definition personal_info (sentiment : SentimentAnalysisResult)
  : gmap string pyval :=
  {[ "customer_name" := opt_str (name sentiment);
     "email" := opt_str (email sentiment);
     "address" := opt_str (address sentiment);
     "socials" := match socials sentiment with
                  | Some l => PList (PStr <$> l)
                  | None => PNone
                  end;
     "interest_groups" := PList (PStr <$> interest_groups sentiment) ]}.

(** [_route_to_agent] *)
Definition _route_to_agent (E : env) (phone raw_message : list N)
  (global_context : GlobalContext) : M (list N) :=
  sentiment ← lift (router E raw_message global_context);
  (if has_personal_info sentiment
   then try_except (update_customer phone (personal_info sentiment);; mret ())
          (λ _, mret ())
   else mret ());;
  match handler_named (next_agent sentiment) with
  | Some h => run_agent E h raw_message global_context
  | None => raise ValueError
  end.

(** [execute_workflow].  When [receive_whatsapp_message] gives [None], the
    failing [message_data.get] is caught, and the log line of the handler
    reads [phone_number] before any assignment to it.  A missing reply
    ([None] from [referral_workflow]) goes no further than
    [_log_agent_message], which raises on it. *)
Definition execute_workflow (E : env) (data : pyval) (is_voice : bool)
  : M unit :=
  match receive E data is_voice with
  | None => raise NameError
  | Some (raw_message, phone) =>
      try_except
        (chat_history ← get_recent_chat_history_by_phone E phone;
         _log_customer_message E phone raw_message is_voice;;
         stream_to_web_socket E phone raw_message by_customer;;
         customer ← _get_or_create_customer E phone;
         escalated ← is_escalated phone;
         if negb escalated
         then
           let global_context := global_context_of customer chat_history in
           response ←
             match (_extract_codes raw_message).1 with
             | Some _ =>
                 referral_workflow E raw_message phone (Some global_context)
             | None =>
                 r ← _route_to_agent E phone raw_message global_context;
                 mret (Some r)
             end;
           _log_agent_message E phone response;;
           match response with
           | Some r =>
               stream_to_web_socket E phone r by_agent;;
               send_whatsapp_message phone r
           | None => raise TypeError
           end
         else mret ())
        (λ _, mret ())
  end.

(** ** Observations on a world *)

(** The stored record of a code: what [get_referral_by_code] fetches. *)
Definition stored_referral (code : list N) (w : world)
  : option (gmap string pyval) :=
  head (select_eq "referral_code" code (referrals w)).

(** The stored point total of a code. *)
Definition stored_points (code : list N) (w : world) : option pyval :=
  row ← stored_referral code w; row !! "total_points".

(** The stored record of a phone number: what [get_customer_by_phone] and
    [is_escalated] fetch. *)
Definition stored_customer (phone : list N) (w : world)
  : option (gmap string pyval) :=
  head (select_eq "phone_number" phone (customers w)).

(** How many history writes, WhatsApp sends and agent runs a trace holds. *)
Definition history_appends (t : list event) : nat :=
  length (List.filter (λ e, match e with HistoryAppend _ _ => true
                                    | _ => false end) t).

Definition sends (t : list event) : nat :=
  length (List.filter (λ e, match e with Send _ _ => true
                                    | _ => false end) t).

Definition agent_runs (t : list event) : nat :=
  length (List.filter (λ e, match e with AgentRun _ _ => true
                                    | _ => false end) t).

(** The history entry and the broadcast made for an inbound message read
    in world [w]. *)
Definition inbound_entry (E : env) (raw_message : list N) (is_voice : bool)
  (w : world) : MessageSchema :=
  {| time_stamp := clock E (length (trace w)); content := raw_message;
     message_type := customer_message_type is_voice raw_message;
     sender := by_customer |}.

Definition inbound_broadcast (E : env) (raw_message : list N) (w : world)
  : MessageSchema :=
  {| time_stamp := clock E (S (length (trace w))); content := raw_message;
     message_type := stream_message_type by_customer raw_message;
     sender := by_customer |}.

(** The world once the inbound message is logged and broadcast: where
    [execute_workflow] starts to resolve the customer. *)
Definition inbound_logged (E : env) (phone raw_message : list N)
  (is_voice : bool) (w : world) : world :=
  (stream_to_web_socket E phone raw_message by_customer
     (_log_customer_message E phone raw_message is_voice w).2).2.

(** Creating a record under a phone number nobody had: the outcome is a
    failure that changes nothing, or a stored record that is returned. *)
Definition created (E : env) (phone : list N) (w : world)
  (out : result pyval * world) : Prop :=
  (∃ e, out = (Raise e, w)) ∨
  (∃ fields,
     fields !! "phone_number" = Some (PStr phone) ∧
     schema_ok E fields = true ∧
     out = (Ok (PDict fields), set_customers (customers w ++ [fields]) w)).

(** ** Beyond the workflow: the rest of the stores, the invitation, the
    dashboard routes and the webhook *)

(** Modelled from the spec: [delete] of the record store, the Supabase
    client behind [DataBase] ([database/base.py]), which is not part of the
    sources: every selected row is removed, and the [data] of the response
    is the list of removed rows. *)
Definition delete_eq (col : string) (v : list N)
  (table : list (gmap string pyval)) : list (gmap string pyval) :=
  List.filter (λ row, negb (eq_col col v row)) table.

(** [delete_customer] ([database/customer.py]): returns [response.data]. *)
Definition delete_customer (phone : list N) : M pyval :=
  data ← read (λ w, select_eq "phone_number" phone (customers w));
  modify (λ w, set_customers (delete_eq "phone_number" phone (customers w)) w);;
  mret (PList (PDict <$> data)).

(** [escalate_to_human_support_tool]
    ([tools/customer_support/escalate_to_human.py]): the [status] of the
    dictionary it returns. *)
Definition escalate_to_human_support_tool (phone : list N) : M (list N) :=
  is_updated ← update_escalation_status phone true;
  mret (if is_updated : bool then lit "escalated"
        else lit "Sorry, we couldn't escalate your issue.").

(** The text [_static_message] puts behind the link, with the default
    campaign code: what a friend who follows the link sends to the bot. *)
Definition invitation_text (code : list N) : list N :=
  128075%N :: lit " Hi! I'm inviting you to try *Boost Buddy WhatsApp Bot* "
  ++ 128640%N :: lit " It's super useful and easy to use.  " ++ [10%N]
  ++ lit "Here's your referral code: (Referral code: _QTMR-" ++ code
  ++ lit "_) " ++ 127881%N :: lit "  " ++ [10%N]
  ++ 128073%N :: lit " Just send this code to get started!".

(** The second half of [referral_workflow], from
    [get_referral_by_phone_number] on: the invitation of the sender's own
    code, issued first when the sender has none. *)
Definition invitation_for (E : env) (phone : list N)
  (campaign_code : option (list N)) (global_context : option GlobalContext)
  : M (option (list N)) :=
  try_except
    (referral ← get_referral_by_phone_number phone;
     match referral with
     | Some row =>
         if truthy (PDict row)
         then match row !! "referral_code" with
              | Some v => mret (Some (_static_message E (formatted E v)))
              | None => raise KeyError
              end
         else issue_referral_code E phone campaign_code global_context
     | None => issue_referral_code E phone campaign_code global_context
     end)
    (λ _, mret None).

(** Two states of the referral table that hold the same records in the
    same order and differ at most in their [referred_users] and
    [total_points]. *)
Definition counts_only (t t' : list (gmap string pyval)) : Prop :=
  Forall2 (λ row row' : gmap string pyval,
             ∀ k, k ≠ "referred_users" → k ≠ "total_points" →
                  row' !! k = row !! k) t t'.

(** A step that leaves the customers, the chat logs and the trace alone
    and changes the referral table in its counts only. *)
Definition ledger_frame (w w' : world) : Prop :=
  customers w' = customers w ∧ chats w' = chats w ∧ trace w' = trace w ∧
  counts_only (referrals w) (referrals w').

(** The [referrer_name] and [referrer_email] [referral_workflow] gives to
    [ReferralSchema(...)], as the schema takes them. *)
Definition referrer_fields (global_context : option GlobalContext)
  : result (option (list N) * option (list N)) :=
  match global_context with
  | Some g =>
      n ← as_opt_str (get (customer_context g) "customer_name");
      e ← as_opt_str (get (customer_context g) "email");
      Ok (n, e)
  | None => Ok (Some [], Some [])
  end.

(** The code [_generate_referral_code] gives in world [w]. *)
Definition generated_code (E : env) (w : world) : list N :=
  match random_code E (length (trace w)) with
  | Ok code => code
  | Raise _ => lit "ERROR"
  end.

(** The record [referral_workflow] stores for a sender who had none. *)
Definition first_referral (phone code : list N)
  (campaign_code : option (list N)) (n e : option (list N))
  : gmap string pyval :=
  referral_dict
    {| total_points := 0;
       referrer_id := Some phone;
       referrer_name := n;
       referrer_email := e;
       referrer_phone := Some phone;
       referral_code := Some code;
       referred_users := [];
       campaign_id := campaign_code |}.

(** The history entry and the broadcast made for a reply [r], at the
    [n]-th reading of the clock. *)
Definition reply_message (E : env) (r : list N) (n : nat) : MessageSchema :=
  {| time_stamp := clock E n; content := r; message_type := text;
     sender := by_agent |}.

(** *** The customer routes ([routes/customers.py]) *)

Module Routes.

(** What a route gives back: a body, or [HTTPException] with its status
    code. *)
Inductive response (A : Type) :=
| Respond (body : A)
| HTTPException (status_code : nat).
Arguments Respond {A} body.
Arguments HTTPException {A} status_code.

(** [try: body  except HTTPException: raise
    except Exception: raise HTTPException(status_code=500)] *)
Definition handled {A} (body : M (response A))
  : world → response A * world :=
  λ w,
    match body w with
    | (Ok r, w') => (r, w')
    | (Raise _, w') => (HTTPException 500, w')
    end.

(** [CustomerUpdateRequest] and its [.dict()], a mapping in the order of
    the fields. *)
Record CustomerUpdateRequest := {
  customer_name : option (list N);
  email : option (list N);
  address : option (list N);
  company_name : option (list N);
  tags : option (list (list N))
}.

Definition dict (updates : CustomerUpdateRequest) : list (string * pyval) :=
  [ ("customer_name", opt_str (customer_name updates));
    ("email", opt_str (email updates));
    ("address", opt_str (address updates));
    ("company_name", opt_str (company_name updates));
    ("tags", match tags updates with
             | Some l => PList (PStr <$> l)
             | None => PNone
             end) ].

(** [v is not None] *)
Definition is_not_none (v : pyval) : bool :=
  match v with
  | PNone => false
  | _ => true
  end.

(** [update_data]: the fields of the request that are not [None]. *)
Definition update_data (updates : CustomerUpdateRequest)
  : list (string * pyval) :=
  List.filter (λ kv, is_not_none kv.2) (dict updates).

(** [update_customer]: the [updated_fields] of the body. *)
Definition update_customer (E : env) (phone : list N)
  (updates : CustomerUpdateRequest) : world → response (list string) * world :=
  handled
    (existing_customer ← get_customer_by_phone E phone;
     match existing_customer with
     | None => mret (HTTPException 404)
     | Some _ =>
         match update_data updates with
         | [] => mret (HTTPException 400)
         | _ :: _ =>
             result ← update_customer phone (list_to_map (update_data updates));
             if truthy result
             then mret (Respond (update_data updates).*1)
             else mret (HTTPException 500)
         end
     end).

(** [escalate_customer]: the [message] of the body. *)
Definition escalate_customer (phone : list N)
  : world → response (list N) * world :=
  handled
    (success ← update_escalation_status phone true;
     if success : bool
     then mret (Respond (lit "Customer escalated successfully"))
     else mret (HTTPException 404)).

(** [de_escalate_customer]: the [message] of the body. *)
Definition de_escalate_customer (phone : list N)
  : world → response (list N) * world :=
  handled
    (success ← update_escalation_status phone false;
     if success : bool
     then mret (Respond (lit "Customer de-escalated successfully"))
     else mret (HTTPException 404)).

End Routes.

(** *** The webhook ([routes/webhook.py]) *)

(** The steps of [receive_message] through the payload.  [None] stands
    for a raised exception: [IndexError], [KeyError], [TypeError] and
    [AttributeError] all end in the same handler. *)

(** [v.get(k, dflt)] *)
Definition get_or (v : pyval) (k : string) (dflt : pyval) : option pyval :=
  match v with
  | PDict d => Some (default dflt (d !! k))
  | _ => None
  end.

(** [v[0]]: the first element of a list, the first character of a string;
    a mapping has no key [0], its keys being strings. *)
Definition first_item (v : pyval) : option pyval :=
  match v with
  | PList l => head l
  | PStr s => (λ c, PStr [c]) <$> head s
  | _ => None
  end.

(** [k in v] *)
Definition member (k : string) (v : pyval) : option bool :=
  match v with
  | PDict d => Some (bool_decide (is_Some (d !! k)))
  | PList l => Some (existsb (λ x, eq_str x (lit k)) l)
  | PStr s => Some (contains s (lit k))
  | _ => None
  end.

(** [v[k]] *)
Definition item (v : pyval) (k : string) : option pyval :=
  match v with
  | PDict d => d !! k
  | _ => None
  end.

(** [len(v) > 0] *)
Definition has_items (v : pyval) : option bool :=
  match v with
  | PList l => Some (bool_decide (l ≠ []))
  | PStr s => Some (bool_decide (s ≠ []))
  | PDict d => Some (bool_decide (d ≠ ∅))
  | _ => None
  end.

(** The [message_type] [receive_message] reads: [Some None] when the
    payload carries no message. *)
Definition inbound_message_type (data : pyval) : option (option pyval) :=
  entries ← get_or data "entry" (PList []);
  entry ← first_item entries;
  has_changes ← member "changes" entry;
  if has_changes : bool
  then
    changes ← item entry "changes";
    some ← has_items changes;
    if some : bool
    then
      change ← first_item changes;
      has_value ← member "value" change;
      if has_value : bool
      then
        value ← item change "value";
        has_messages ← member "messages" value;
        if has_messages : bool
        then
          message ← item value "messages" ≫= first_item;
          message_type ← get_or message "type" PNone;
          Some (Some message_type)
        else Some None
      else Some None
    else Some None
  else Some None.

(** [receive_message] *)
Definition receive_message (E : env) (data : pyval) : M (list N) :=
  try_except
    (match inbound_message_type data with
     | Some (Some message_type) =>
         if eq_str message_type (lit "audio") || eq_str message_type (lit "voice")
         then execute_workflow E data true
         else if eq_str message_type (lit "image")
                 || eq_str message_type (lit "document")
                 || eq_str message_type (lit "video")
         then execute_workflow E data false
         else execute_workflow E data false
     | Some None => mret ()
     | None => mret ()
     end)
    (λ _, mret ());;
  mret (lit "EVENT_RECEIVED").

(** ** Sample collaborators and stores

    Concrete inputs on which the statements below are run. *)

Module Sample.

(** Collaborators with fixed answers: the gateway delivers [inbound],
    the router answers [decision], QuickBooks finds [books] and Shopify
    finds [shop]. *)
Definition collaborators (inbound : option (list N * list N))
  (decision : result SentimentAnalysisResult)
  (books shop : option (gmap string pyval)) : env :=
  {| clock := λ _, lit "2025-01-01 10:00:00";
     receive := λ _ _, inbound;
     history_window := 10;
     schema_ok := λ _, true;
     quickbook := λ _, Ok books;
     shopify := λ _, Ok shop;
     router := λ _ _, decision;
     agent_reply := λ _ _ _, Ok (lit "How can I help?");
     agent_escalations := λ _ _ _, [];
     random_code := λ _, Ok (lit "ZZZZZZ");
     quote := λ s, s;
     format := λ _, lit "None" |}.

Definition quiet : env :=
  collaborators None (Raise UpstreamError) None None.

(** A decision that names [next] and extracts nothing. *)
Definition decision_for (next : list N) : SentimentAnalysisResult :=
  {| next_agent := next; name := None; email := None; address := None;
     socials := None; interest_groups := [] |}.

Definition decision (next : string) : SentimentAnalysisResult :=
  decision_for (lit next).

(** The context of a business customer. *)
Definition business_context : GlobalContext :=
  {| customer_context := {[ "customer_type" := PStr (lit "business") ]};
     messages := [] |}.

Definition empty_world : world :=
  {| customers := []; referrals := []; chats := ∅; trace := [] |}.

(** A referral of code ABCDEF with the given point total and
    [referred_users] value. *)
Definition referral_row (points : Z) (users : pyval) : gmap string pyval :=
  {[ "total_points" := PInt points;
     "referrer_id" := PStr (lit "923001112222");
     "referrer_name" := PStr (lit "Sara");
     "referrer_email" := PNone;
     "referrer_phone" := PStr (lit "923001112222");
     "referral_code" := PStr (lit "ABCDEF");
     "referred_users" := users;
     "campaign_id" := PStr (lit "QTMR") ]}.

Definition ledger (points : Z) (users : pyval) : world :=
  {| customers := []; referrals := [referral_row points users]; chats := ∅;
     trace := [] |}.

(** A customer row of the given phone number. *)
Definition customer_row (phone : string) (mail : pyval) (escalated : bool)
  : gmap string pyval :=
  {[ "phone_number" := PStr (lit phone);
     "customer_name" := PStr (lit "Ann");
     "email" := mail;
     "customer_quickbook_id" := PStr (lit "42");
     "customer_type" := PStr (lit "D2C");
     "company_name" := PStr (lit "Acme");
     "is_active" := PBool true;
     "escalation_status" := PBool escalated ]}.

Definition registry (row : gmap string pyval) : world :=
  {| customers := [row]; referrals := []; chats := ∅; trace := [] |}.

(** What QuickBooks holds about Ann. *)
Definition books_of_ann : gmap string pyval :=
  {[ "customer_name" := PStr (lit "Ann");
     "email" := PStr (lit "ann@example.com");
     "customer_quickbook_id" := PStr (lit "42");
     "customer_type" := PStr (lit "B2B");
     "company_name" := PStr (lit "Acme");
     "is_active" := PBool true ]}.

(** What Shopify holds about Bo. *)
Definition shop_of_bo (spent : pyval) : gmap string pyval :=
  {[ "displayName" := PStr (lit "Bo");
     "defaultEmailAddress" := PDict {[ "email" := PStr (lit "bo@example.com") ]};
     "defaultAddress" := PDict {[ "city" := PStr (lit "Lahore");
                                  "country" := PStr (lit "Pakistan") ]};
     "totalSpent" := spent ]}.

End Sample.

(** More sample collaborators and inputs, where an outside service fails
    or a request comes from the dashboard or the webhook. *)

Module Cases.

(** Collaborators whose QuickBooks lookup gives [books], whose Shopify
    lookup gives [shop] and whose agents give [answer]. *)
Definition collaborators (inbound : option (list N * list N))
  (decision : result SentimentAnalysisResult)
  (books shop : result (option (gmap string pyval)))
  (answer : result (list N)) : env :=
  {| clock := λ _, lit "2025-01-01 10:00:00";
     receive := λ _ _, inbound;
     history_window := 10;
     schema_ok := λ _, true;
     quickbook := λ _, books;
     shopify := λ _, shop;
     router := λ _ _, decision;
     agent_reply := λ _ _ _, answer;
     agent_escalations := λ _ _ _, [];
     random_code := λ _, Ok (lit "ZZZZZZ");
     quote := λ s, s;
     format := λ _, lit "None" |}.

Definition ann : list N := lit "923001234567".

(** Ann writes "hello"; every outside service is down. *)
Definition outage : env :=
  collaborators (Some (lit "hello", ann)) (Raise UpstreamError)
    (Raise UpstreamError) (Raise UpstreamError) (Raise UpstreamError).

(** Ann writes "hello"; QuickBooks does not know her and Shopify is
    down. *)
Definition shopify_down : env :=
  collaborators (Some (lit "hello", ann)) (Raise UpstreamError)
    (Ok None) (Raise UpstreamError) (Raise UpstreamError).

(** Ann writes "hello"; the router names the greeting handler, which
    gives [answer]. *)
Definition greeted (answer : result (list N)) : env :=
  collaborators (Some (lit "hello", ann))
    (Ok (Sample.decision "CustomerGreetingAgent")) (Ok None) (Ok None) answer.

(** Ann forwards the invitation of code ABCDEF. *)
Definition invited : env :=
  collaborators (Some (invitation_text (lit "ABCDEF"), ann))
    (Raise UpstreamError) (Ok None) (Ok None) (Raise UpstreamError).

(** Ann's complete record, and the store that holds it. *)
Definition ann_row (escalated : bool) : gmap string pyval :=
  Sample.customer_row "923001234567" (PStr (lit "ann@example.com")) escalated.

Definition ann_known (escalated : bool) : world :=
  Sample.registry (ann_row escalated).

(** Ann's record with the customer type ["business"], and the store that
    holds it. *)
Definition business_ann : gmap string pyval :=
  <["customer_type" := PStr (lit "business")]> (ann_row false).

(** Ann asks for a refund; the router names the consumer-support handler,
    which answers. *)
Definition refund : env :=
  collaborators (Some (lit "I need a refund", ann))
    (Ok (Sample.decision "D2CCustomerSupportAgent")) (Ok None) (Ok None)
    (Ok (lit "How can I help?")).

(** A dashboard request that renames Ann and blanks her email. *)
Definition rename_and_blank : Routes.CustomerUpdateRequest :=
  {| Routes.customer_name := Some (lit "Anna");
     Routes.email := Some [];
     Routes.address := None;
     Routes.company_name := None;
     Routes.tags := None |}.

(** A webhook payload that carries one message of the given type, from
    the inside out. *)
Definition message (message_type : string) : gmap string pyval :=
  {[ "from" := PStr ann; "type" := PStr (lit message_type) ]}.

Definition value (message_type : string) : gmap string pyval :=
  {[ "messages" := PList [PDict (message message_type)] ]}.

Definition change (message_type : string) : gmap string pyval :=
  {[ "field" := PStr (lit "messages");
     "value" := PDict (value message_type) ]}.

Definition entry (message_type : string) : gmap string pyval :=
  {[ "changes" := PList [PDict (change message_type)] ]}.

Definition payload (message_type : string) : gmap string pyval :=
  {[ "object" := PStr (lit "whatsapp_business_account");
     "entry" := PList [PDict (entry message_type)] ]}.

End Cases.

(** * Properties *)

(** ** Text *)

Lemma startswith_spec s p :
  startswith s p = true ↔ ∃ t, s = p ++ t.
Proof.
  revert s; induction p as [|c p IH]; intros s; simpl.
  - split; [intros _; by exists s | done].
  - destruct s as [|d s].
    + split; [done | intros [t Ht]; discriminate].
    + rewrite andb_true_iff, N.eqb_eq, IH. split.
      * intros [-> [t ->]]. by exists t.
      * intros [t Ht]. injection Ht as -> ->. eauto.
Qed.

Lemma endswith_spec s p :
  endswith s p = true ↔ ∃ t, s = t ++ p.
Proof.
  unfold endswith. rewrite startswith_spec. split.
  - intros [t Ht]. exists (reverse t).
    apply (inj reverse). by rewrite Ht, reverse_app, reverse_involutive.
  - intros [t ->]. exists (reverse t). by rewrite reverse_app.
Qed.

Lemma contains_spec s p :
  contains s p = true ↔ ∃ a b, s = a ++ p ++ b.
Proof.
  induction s as [|d s IH]; simpl.
  - rewrite orb_false_r, startswith_spec. split.
    + intros [t Ht]. by exists [], t.
    + intros [a [b Hab]]. symmetry in Hab.
      apply app_eq_nil in Hab as [-> Hab].
      apply app_eq_nil in Hab as [-> ->]. by exists [].
  - rewrite orb_true_iff, startswith_spec, IH. split.
    + intros [[t Ht] | [a [b ->]]].
      * by exists [], t.
      * by exists (d :: a), b.
    + intros [[|e a] [b Hab]]; simpl in Hab.
      * left. eauto.
      * right. injection Hab as _ ->. eauto.
Qed.

(** Literals of the source as explicit code points. *)
Ltac literals :=
  repeat match goal with
         | |- context [lit ?s] =>
             let v := eval vm_compute in (lit s) in change (lit s) with v
         | H : context [lit ?s] |- _ =>
             let v := eval vm_compute in (lit s) in change (lit s) with v in H
         end.

(** ** Content kind *)

(** A string that opens with [pre] and a bracket, holds ["]("] and closes
    with [")"] is [pre ++ "[" ++ caption ++ "](" ++ url ++ ")"], when [pre]
    has no closing bracket. *)
Lemma markdown_shape (pre content : list N) :
  (∃ t, content = pre ++ [91%N] ++ t) →
  (∃ a b, content = a ++ [93%N; 40%N] ++ b) →
  (∃ u, content = u ++ [41%N]) →
  (∀ x, x ∈ pre → x ≠ 93%N) →
  ∃ caption url,
    content = pre ++ [91%N] ++ caption ++ [93%N; 40%N] ++ url ++ [41%N].
Proof.
  intros [t Ht] [a [b Hab]] [u Hu] Hpre.
  assert (Hb : ∃ url, b = url ++ [41%N]).
  { destruct (decide (b = [])) as [-> | Hne].
    - rewrite Hab in Hu. rewrite app_nil_r in Hu.
      change (a ++ [93%N; 40%N]) with (a ++ [93%N] ++ [40%N]) in Hu.
      rewrite app_assoc in Hu. apply app_inj_tail in Hu as [_ Hu]. done.
    - destruct (exists_last Hne) as [url [x ->]]. exists url.
      rewrite Hab in Hu. rewrite !app_assoc in Hu.
      apply app_inj_tail in Hu as [_ ->]. done. }
  destruct Hb as [url ->].
  assert (Ha : ∃ caption, a = pre ++ [91%N] ++ caption).
  { clear Hu. subst content. revert a Hab.
    induction pre as [|p pre IH]; intros a Hab.
    - destruct a as [|x a]; [discriminate |].
      simpl in Hab. injection Hab as -> Hab. by exists a.
    - destruct a as [|x a].
      + simpl in Hab. injection Hab as Hp _.
        exfalso. apply (Hpre p); [left | done].
      + simpl in Hab. injection Hab as -> Hab.
        destruct (IH (λ y Hy, Hpre y (list_elem_of_further _ _ _ Hy)) a Hab)
          as [caption ->].
        by exists caption. }
  destruct Ha as [caption ->].
  exists caption, url. rewrite Hab. by rewrite <- !app_assoc.
Qed.

Lemma image_markdown_shape content :
  image_markdown content = true ↔ image_shape content.
Proof.
  unfold image_markdown, image_shape.
  rewrite !andb_true_iff, startswith_spec, contains_spec, endswith_spec.
  literals. split.
  - intros [[[t Ht] Hc] He].
    apply (markdown_shape [33%N]); [by exists t | done | done |].
    intros x Hx. apply list_elem_of_singleton in Hx as ->. done.
  - intros [caption [url ->]]. repeat split.
    + by eexists.
    + exists ([33%N; 91%N] ++ caption), (url ++ [41%N]).
      by rewrite <- !app_assoc.
    + exists ([33%N; 91%N] ++ caption ++ [93%N; 40%N] ++ url).
      by rewrite <- !app_assoc.
Qed.

Lemma link_markdown_shape content :
  link_markdown content = true ↔ link_shape content.
Proof.
  unfold link_markdown, link_shape.
  rewrite !andb_true_iff, startswith_spec, contains_spec, endswith_spec.
  literals. split.
  - intros [[[t Ht] Hc] He].
    apply (markdown_shape []); [by exists t | done | done |].
    intros x Hx. by apply elem_of_nil in Hx.
  - intros [caption [url ->]]. repeat split.
    + by eexists.
    + exists ([91%N] ++ caption), (url ++ [41%N]).
      by rewrite <- !app_assoc.
    + exists ([91%N] ++ caption ++ [93%N; 40%N] ++ url).
      by rewrite <- !app_assoc.
Qed.

Lemma mentions_audio_literal content :
  mentions_audio content = true ↔ has_audio_literal content.
Proof. apply contains_spec. Qed.

Lemma image_not_link content :
  image_markdown content = true → link_markdown content = false.
Proof.
  unfold image_markdown, link_markdown. rewrite !andb_true_iff.
  intros [[Hs _] _]. apply startswith_spec in Hs as [t ->]. reflexivity.
Qed.

Lemma image_shape_not_link content : image_shape content → ¬ link_shape content.
Proof.
  rewrite <- image_markdown_shape, <- link_markdown_shape.
  intros Hi Hl. apply image_not_link in Hi. congruence.
Qed.

(** C7, as it holds: the content kind of an inbound message is a function
    of the voice flag and the content.  It is image iff the voice flag is
    not set and the content has the shape [![...](...)]; audio iff the
    voice flag is set or the content has the shape [[...](...)] and holds
    the literal "Audio Message"; document iff the voice flag is not set and
    the content has the shape [[...](...)] without that literal; text in
    all remaining cases.  Content built to a shape is classified as that
    category. *)
Theorem content_kind_of_inbound (is_voice : bool) (content : list N) :
  (customer_message_type is_voice content = image
   ↔ is_voice = false ∧ image_shape content) ∧
  (customer_message_type is_voice content = audio
   ↔ is_voice = true ∨ (link_shape content ∧ has_audio_literal content)) ∧
  (customer_message_type is_voice content = document
   ↔ is_voice = false ∧ link_shape content ∧ ¬ has_audio_literal content) ∧
  (customer_message_type is_voice content = text
   ↔ is_voice = false ∧ ¬ image_shape content ∧ ¬ link_shape content).
Proof.
  rewrite <- image_markdown_shape, <- link_markdown_shape,
    <- mentions_audio_literal.
  unfold customer_message_type.
  destruct is_voice; [naive_solver |].
  destruct (image_markdown content) eqn:Hi.
  { rewrite (image_not_link _ Hi). naive_solver. }
  destruct (link_markdown content), (mentions_audio content); naive_solver.
Qed.

(** C7 as stated fails: a voice message whose content has the image shape
    is audio, not image. *)
Lemma voice_image_is_audio :
  image_shape (lit "![cat](https://cdn.example/cat.png)") ∧
  customer_message_type true (lit "![cat](https://cdn.example/cat.png)")
  = audio.
Proof.
  split; [| reflexivity].
  by exists (lit "cat"), (lit "https://cdn.example/cat.png").
Qed.

Example classify_image :
  customer_message_type false (lit "![Image](https://cdn.example/i.jpg)")
  = image.
Proof. reflexivity. Qed.

Example classify_audio :
  customer_message_type false (lit "[Audio Message](https://cdn.example/a.ogg)")
  = audio.
Proof. reflexivity. Qed.

Example classify_document :
  customer_message_type false (lit "[invoice.pdf](https://cdn.example/d.pdf)")
  = document.
Proof. reflexivity. Qed.

Example classify_text :
  customer_message_type false (lit "Where is my order?") = text.
Proof. reflexivity. Qed.

(** On the inbound leg the history entry follows the voice flag and the
    broadcast does not. *)
Example voice_entry_and_broadcast_differ :
  customer_message_type true (lit "Where is my order?") = audio ∧
  stream_message_type by_customer (lit "Where is my order?") = text.
Proof. split; reflexivity. Qed.

(** C8, as it holds: the kind stored and the kind broadcast for an agent
    reply are both text, whatever the content; they agree with the kind the
    inbound classifier gives the same content exactly when that kind is
    text. *)
Theorem agent_reply_kind (is_voice : bool) (content : list N) :
  agent_message_type content = text ∧
  stream_message_type by_agent content = text ∧
  (agent_message_type content = customer_message_type is_voice content
   ↔ customer_message_type is_voice content = text) ∧
  (stream_message_type by_agent content
   = customer_message_type is_voice content
   ↔ customer_message_type is_voice content = text).
Proof. unfold agent_message_type; simpl. naive_solver. Qed.

(** C8 as stated fails: an agent reply with the image shape is stored and
    broadcast as text, and the inbound classifier calls it an image. *)
Lemma agent_image_reply_is_text :
  agent_message_type (lit "![chart](https://cdn.example/c.png)") = text ∧
  stream_message_type by_agent (lit "![chart](https://cdn.example/c.png)")
  = text ∧
  customer_message_type false (lit "![chart](https://cdn.example/c.png)")
  = image.
Proof. repeat split. Qed.

(** ** Referral-code extraction *)

Section regex_facts.
Import Regex.

Lemma expect_spec p s rest : expect p s = Some rest ↔ s = p ++ rest.
Proof.
  revert s; induction p as [|c p IH]; intros s; simpl.
  - split; [by intros [= ->] | by intros ->].
  - destruct s as [|d s]; [done |].
    destruct (N.eqb_spec c d) as [-> | Hne].
    + rewrite IH. split; [by intros -> | by intros [= ->]].
    + split; [done | intros [= -> _]; done].
Qed.

Lemma skip_spaces_app ws s :
  Forall (λ x, is_space x = true) ws →
  head s ≠ None → (∀ x, head s = Some x → is_space x = false) →
  skip_spaces (ws ++ s) = s.
Proof.
  intros Hws Hne Hs. induction Hws as [|x ws Hx _ IH]; simpl.
  - destruct s as [|y s]; [done |]. simpl. by rewrite (Hs y).
  - by rewrite Hx.
Qed.

Lemma skip_spaces_split s :
  ∃ ws, s = ws ++ skip_spaces s ∧ Forall (λ x, is_space x = true) ws.
Proof.
  induction s as [|x s [ws [Hs Hws]]]; simpl.
  - by exists [].
  - destruct (is_space x) eqn:Hx.
    + exists (x :: ws). split; [simpl; congruence | by constructor].
    + by exists [].
Qed.

Lemma upper_run_spec n s g rest :
  upper_run n s = Some (g, rest) ↔ s = g ++ rest ∧ upper_token n g.
Proof.
  unfold upper_token. revert s g rest.
  induction n as [|n IH]; intros s g rest; simpl.
  - split.
    + intros [= <- <-]. by repeat split.
    + intros [-> [Hl _]]. by destruct g.
  - destruct s as [|c s].
    + split; [done |]. intros [Hs [Hl _]].
      symmetry in Hs. apply app_eq_nil in Hs as [-> _]. done.
    + destruct (is_upper c) eqn:Hc.
      * destruct (upper_run n s) as [[g' rest'] |] eqn:Hrun; simpl.
        -- apply IH in Hrun as [-> [Hl Hg]]. split.
           ++ intros [= <- <-]. repeat split; [by simpl; rewrite Hl |].
              by constructor.
           ++ intros [Hs [Hl' Hg']]. destruct g as [|d g]; [done |].
              simpl in Hs. injection Hs as <- Hs.
              assert (Hrun : upper_run n (g' ++ rest') = Some (g, rest)).
              { apply IH. repeat split; [done | by injection Hl' |].
                by inversion Hg'. }
              assert (Hrun' : upper_run n (g' ++ rest') = Some (g', rest')).
              { apply IH. by repeat split. }
              congruence.
        -- split; [done |]. intros [Hs [Hl' Hg']].
           destruct g as [|d g]; [done |]. simpl in Hs. injection Hs as <- Hs.
           assert (Hrun' : upper_run n s = Some (g, rest)).
           { apply IH. repeat split; [done | by injection Hl' |].
             by inversion Hg'. }
           congruence.
      * split; [done |]. intros [Hs [Hl' Hg']].
        destruct g as [|d g]; [done |]. simpl in Hs. injection Hs as <- Hs.
        inversion Hg'; congruence.
Qed.

Lemma match_here_spec s c r :
  match_here s = Some (c, r) ↔
  ∃ ws post,
    s = wrapper ws c r ++ post ∧
    Forall (λ x, is_space x = true) ws ∧
    upper_token 4 c ∧ upper_token 6 r.
Proof.
  unfold match_here, wrapper. split.
  - intros H.
    apply bind_Some in H as [s1 [H1 H]].
    apply bind_Some in H as [s2 [H2 H]].
    apply bind_Some in H as [[c' s3] [H3 H]]. cbn beta iota in H.
    apply bind_Some in H as [s4 [H4 H]].
    apply bind_Some in H as [[r' s5] [H5 H]]. cbn beta iota in H.
    apply bind_Some in H as [s6 [H6 H]].
    injection H as -> ->.
    apply expect_spec in H1, H2, H4, H6.
    apply upper_run_spec in H3 as [H3 Hc], H5 as [H5 Hr].
    destruct (skip_spaces_split s1) as [ws [Hs1 Hws]].
    exists ws, s6. split; [| done].
    rewrite H1, Hs1, H2, H3, H4, H5, H6. by rewrite <- !app_assoc.
  - intros [ws [post [-> [Hws [Hc Hr]]]]].
    rewrite <- !app_assoc.
    rewrite (proj2 (expect_spec _ _ _) eq_refl). cbn [mbind option_bind].
    rewrite skip_spaces_app; [| done | done | by intros x [= <-]].
    rewrite (proj2 (expect_spec _ _ _) eq_refl). cbn [mbind option_bind].
    rewrite (proj2 (upper_run_spec 4 _ c _) (conj eq_refl Hc)).
    cbn [mbind option_bind].
    rewrite (proj2 (expect_spec _ _ _) eq_refl). cbn [mbind option_bind].
    rewrite (proj2 (upper_run_spec 6 _ r _) (conj eq_refl Hr)).
    cbn [mbind option_bind].
    by rewrite (proj2 (expect_spec _ _ _) eq_refl).
Qed.

Lemma wrapper_at_match k s c r :
  wrapper_at k s c r ↔ (k ≤ length s)%nat ∧ match_here (drop k s) = Some (c, r).
Proof.
  unfold wrapper_at. rewrite match_here_spec. naive_solver.
Qed.

Lemma match_here_nil : match_here [] = None.
Proof. reflexivity. Qed.

Lemma search_cons x s :
  search (x :: s) =
  match match_here (x :: s) with
  | Some groups => Some groups
  | None => search s
  end.
Proof. reflexivity. Qed.

Lemma search_None s :
  search s = None ↔ ∀ k, match_here (drop k s) = None.
Proof.
  induction s as [|x s IH].
  - split; [| done]. intros _ k. by rewrite drop_nil.
  - rewrite search_cons. destruct (match_here (x :: s)) eqn:Hm.
    + split; [done |]. intros H. specialize (H 0%nat).
      rewrite drop_0 in H. congruence.
    + rewrite IH. split.
      * intros H [|k]; [done | apply H].
      * intros H k. apply (H (S k)).
Qed.

Lemma search_Some s g :
  search s = Some g ↔
  ∃ k, (k ≤ length s)%nat ∧ match_here (drop k s) = Some g ∧
       ∀ k', (k' < k)%nat → match_here (drop k' s) = None.
Proof.
  induction s as [|x s IH].
  - split; [done |].
    intros [k [Hk [Hm _]]]. rewrite drop_nil, match_here_nil in Hm. done.
  - rewrite search_cons. destruct (match_here (x :: s)) eqn:Hm.
    + split.
      * intros [= ->]. exists 0%nat.
        repeat split; [simpl; lia | done | lia].
      * intros [[|k] [Hk [Hk' Hlt]]]; [rewrite drop_0 in Hk'; congruence |].
        specialize (Hlt 0%nat ltac:(lia)). rewrite drop_0 in Hlt. congruence.
    + rewrite IH. split.
      * intros [k [Hk [Hk' Hlt]]]. exists (S k).
        repeat split; [simpl; lia | done |].
        intros [|k'] Hk''; [done |]. apply Hlt. lia.
      * intros [[|k] [Hk [Hk' Hlt]]]; [rewrite drop_0 in Hk'; congruence |].
        exists k. repeat split; [simpl in Hk; lia | done |].
        intros k' Hk''. apply (Hlt (S k')). lia.
Qed.

End regex_facts.

Lemma wrapper_at_bound k s c r : wrapper_at k s c r → (k ≤ length s)%nat.
Proof. by intros [ws [post [_ [Hk _]]]]. Qed.

(** C3, as it holds: extraction is a total function of the text.  It
    returns (absent, absent) exactly when no offset of the text carries the
    wrapper [(Referral code:] white space [_CCCC-RRRRRR_)], where the white
    space after the colon is any run of white-space characters, possibly
    empty, and CCCC and RRRRRR are four and six letters of A-Z; otherwise
    it returns the two tokens of the wrapper at the leftmost such offset.
    For [(Referral code: _ABCD-ABCDEF_)] it returns exactly [ABCD] and
    [ABCDEF], and lower-case letters do not match. *)
Theorem extract_codes_leftmost_wrapper (message : list N) :
  (_extract_codes message = (None, None)
   ↔ ∀ k c r, ¬ wrapper_at k message c r) ∧
  (∀ c r,
     _extract_codes message = (Some c, Some r)
     ↔ ∃ k, wrapper_at k message c r ∧
            ∀ k' c' r', (k' < k)%nat → ¬ wrapper_at k' message c' r') ∧
  _extract_codes (lit "(Referral code: _ABCD-ABCDEF_)")
  = (Some (lit "ABCD"), Some (lit "ABCDEF")) ∧
  _extract_codes (lit "(referral code: _ABCD-ABCDEF_)") = (None, None) ∧
  _extract_codes (lit "(Referral code: _abcd-abcdef_)") = (None, None).
Proof.
  split; [| split; [| by repeat split]].
  - unfold _extract_codes.
    destruct (Regex.search message) as [[c r]|] eqn:Hs.
    + split; [done |]. intros Hno. exfalso.
      apply search_Some in Hs as [k [Hk [Hm _]]].
      apply (Hno k c r). by apply wrapper_at_match.
    + split; [| done]. intros _ k c r Hw.
      apply wrapper_at_match in Hw as [_ Hm].
      rewrite (proj1 (search_None _) Hs k) in Hm. done.
  - intros c r. unfold _extract_codes.
    destruct (Regex.search message) as [[c0 r0]|] eqn:Hs.
    + apply search_Some in Hs as [k [Hk [Hm Hlt]]]. split.
      * intros [= -> ->]. exists k. split; [by apply wrapper_at_match |].
        intros k' c' r' Hk' Hw. apply wrapper_at_match in Hw as [_ Hw].
        rewrite (Hlt k' Hk') in Hw. done.
      * intros [j [Hw Hfirst]].
        destruct (lt_eq_lt_dec j k) as [[Hjk | ->] | Hjk].
        -- apply wrapper_at_match in Hw as [_ Hw].
           rewrite (Hlt j Hjk) in Hw. done.
        -- apply wrapper_at_match in Hw as [_ Hw]. congruence.
        -- exfalso. apply (Hfirst k c0 r0 Hjk). by apply wrapper_at_match.
    + split; [done |]. intros [j [Hw _]].
      apply wrapper_at_match in Hw as [_ Hw].
      rewrite (proj1 (search_None _) Hs j) in Hw. done.
Qed.

(** C3 as stated fails: with no space after the colon the text holds no
    wrapper spelled with its single space, and both tokens are returned. *)
Lemma extract_codes_without_space :
  ¬ exact_wrapper_in (lit "(Referral code:_ABCD-ABCDEF_)") ∧
  _extract_codes (lit "(Referral code:_ABCD-ABCDEF_)")
  = (Some (lit "ABCD"), Some (lit "ABCDEF")).
Proof.
  split; [| reflexivity].
  intros [pre [c [r [post [Hs [[Hc _] [Hr _]]]]]]].
  apply (f_equal length) in Hs. unfold wrapper in Hs.
  rewrite !length_app, Hc, Hr in Hs. literals. simpl in Hs. lia.
Qed.

(** ** The customer store *)

Lemma update_customer_run phone updates w :
  update_customer phone updates w =
  (Ok (PList (PDict <$> updated_rows "phone_number" phone
                          (clean_updates updates) (customers w))),
   set_customers (update_eq "phone_number" phone (clean_updates updates)
                    (customers w)) w).
Proof. reflexivity. Qed.

Lemma clean_updates_lookup updates k v :
  clean_updates updates !! k = Some v →
  updates !! k = Some v ∧ blank v = false ∧ k ≠ "escalation_status".
Proof.
  unfold clean_updates. intros H.
  apply lookup_delete_Some in H as [Hk H].
  apply map_lookup_filter_Some in H as [H Hb]. done.
Qed.

Lemma clean_updates_escalation updates :
  clean_updates updates !! "escalation_status" = None.
Proof. apply lookup_delete_eq. Qed.

(** What the update does to one row. *)
Lemma merged_row_escalation updates (row : gmap string pyval) :
  (clean_updates updates ∪ row) !! "escalation_status"
  = row !! "escalation_status".
Proof. apply lookup_union_r, clean_updates_escalation. Qed.

Lemma merged_row_keeps_filled updates (row : gmap string pyval) k v :
  row !! k = Some v → blank v = false →
  ∃ v', (clean_updates updates ∪ row) !! k = Some v' ∧ blank v' = false.
Proof.
  intros Hrow Hv.
  destruct (clean_updates updates !! k) as [u|] eqn:Hu.
  - exists u. split; [by apply lookup_union_Some_l |].
    by apply clean_updates_lookup in Hu as [_ [Hb _]].
  - exists v. split; [| done]. by rewrite lookup_union_r.
Qed.

(** A blank value of the payload changes no field. *)
Lemma merged_row_ignores_blank updates (row : gmap string pyval) k v :
  updates !! k = Some v → blank v = true →
  (clean_updates updates ∪ row) !! k = row !! k.
Proof.
  intros Hu Hb. apply lookup_union_r.
  destruct (clean_updates updates !! k) as [u|] eqn:Hc; [| done].
  apply clean_updates_lookup in Hc as [Hu' [Hb' _]]. congruence.
Qed.

(** A filled value of the payload, other than the escalation flag,
    replaces the field. *)
Lemma merged_row_takes_filled updates (row : gmap string pyval) k v :
  updates !! k = Some v → blank v = false → k ≠ "escalation_status" →
  (clean_updates updates ∪ row) !! k = Some v.
Proof.
  intros Hu Hb Hk. apply lookup_union_Some_l. unfold clean_updates.
  rewrite lookup_delete_ne by done. by apply map_lookup_filter_Some.
Qed.

(** C10: the payload [update_customer] sends to the store never holds
    [escalation_status] and never holds a blank value; a call never
    raises, keeps every row in its place, leaves the [escalation_status]
    of every stored row as it was, and leaves every field that held a
    non-blank value with a non-blank value; so it does for the personal
    information of a routing decision. *)
Theorem update_customer_keeps_escalation (phone : list N)
  (updates : gmap string pyval) (w : world) :
  clean_updates updates !! "escalation_status" = None ∧
  (∀ k v, clean_updates updates !! k = Some v → blank v = false) ∧
  (∃ data, (update_customer phone updates w).1 = Ok data) ∧
  length (customers (update_customer phone updates w).2)
  = length (customers w) ∧
  (∀ i row,
     customers w !! i = Some row →
     ∃ row',
       customers (update_customer phone updates w).2 !! i = Some row' ∧
       row' !! "escalation_status" = row !! "escalation_status" ∧
       ∀ k v, row !! k = Some v → blank v = false →
              ∃ v', row' !! k = Some v' ∧ blank v' = false) ∧
  (∀ sentiment i row,
     customers w !! i = Some row →
     ∃ row',
       customers (update_customer phone (personal_info sentiment) w).2 !! i
       = Some row' ∧
       row' !! "escalation_status" = row !! "escalation_status").
Proof.
  assert (Hrow : ∀ u i row,
    customers w !! i = Some row →
    ∃ row',
      customers (update_customer phone u w).2 !! i = Some row' ∧
      row' !! "escalation_status" = row !! "escalation_status" ∧
      ∀ k v, row !! k = Some v → blank v = false →
             ∃ v', row' !! k = Some v' ∧ blank v' = false).
  { intros u i row Hi. rewrite update_customer_run. simpl.
    unfold update_eq. rewrite list_lookup_fmap, Hi. simpl.
    destruct (eq_col "phone_number" phone row).
    - eexists. split; [done |]. split.
      + apply merged_row_escalation.
      + intros k v. apply merged_row_keeps_filled.
    - exists row. repeat split. eauto. }
  rewrite update_customer_run. simpl.
  split; [apply clean_updates_escalation |].
  split; [intros k v Hk; by apply clean_updates_lookup in Hk as [_ [Hb _]] |].
  repeat split.
  - eauto.
  - unfold update_eq. by rewrite length_fmap.
  - intros i row Hi. destruct (Hrow updates i row Hi) as [row' H].
    rewrite update_customer_run in H. eauto.
  - intros sentiment i row Hi.
    destruct (Hrow (personal_info sentiment) i row Hi) as [row' [H1 [H2 _]]].
    eauto.
Qed.

(** ** The record store *)

Lemma eq_col_union col v (payload row : gmap string pyval) :
  payload !! col = None →
  eq_col col v (payload ∪ row) = eq_col col v row.
Proof.
  intros H. unfold eq_col, get. by rewrite lookup_union_r.
Qed.

Lemma select_update col v payload table :
  payload !! col = None →
  select_eq col v (update_eq col v payload table)
  = (λ row, payload ∪ row) <$> select_eq col v table.
Proof.
  intros H. unfold select_eq, update_eq.
  induction table as [|row table IH]; [done |].
  rewrite fmap_cons. destruct (eq_col col v row) eqn:Hrow.
  - cbn [List.filter]. rewrite eq_col_union, Hrow by done.
    rewrite fmap_cons. by f_equal.
  - cbn [List.filter]. by rewrite Hrow.
Qed.

Lemma head_select_update col v payload table :
  payload !! col = None →
  head (select_eq col v (update_eq col v payload table))
  = (λ row, payload ∪ row) <$> head (select_eq col v table).
Proof.
  intros H. rewrite select_update by done.
  by destruct (select_eq col v table).
Qed.

Lemma truthy_dict (d : gmap string pyval) k v :
  d !! k = Some v → truthy (PDict d) = true.
Proof.
  intros H. simpl. apply negb_true_iff, bool_decide_eq_false.
  intros Hd. assert (Hk : k ∈ dom d) by (apply elem_of_dom; eauto).
  rewrite Hd in Hk. by apply elem_of_empty in Hk.
Qed.

(** ** Running a computation *)

Lemma bind_run {A B} (m : M A) (k : A → M B) w :
  (m ≫= k) w =
  match m w with
  | (Ok a, w') => k a w'
  | (Raise e, w') => (Raise e, w')
  end.
Proof. reflexivity. Qed.

Lemma now_run E w : now E w = (Ok (clock E (length (trace w))), w).
Proof. reflexivity. Qed.

(** ** The referral ledger *)

Lemma get_referral_by_code_run code w :
  get_referral_by_code (Some code) w = (Ok (stored_referral code w), w).
Proof. reflexivity. Qed.

(** One run of [_increment_referral_count] on a record whose list is a
    list and whose point total is an integer. *)
Lemma increment_referral_count_run (E : env) (code phone : list N)
  (send_message : bool) (w : world) (row : gmap string pyval)
  (users : list pyval) (n : Z) :
  stored_referral code w = Some row →
  row !! "referred_users" = Some (PList users) →
  row !! "total_points" = Some (PInt n) →
  let entry :=
    referred_user_dict {| phone_number := phone;
                          user_time_stamp := clock E (length (trace w)) |} in
  let w' := (_increment_referral_count E (Some code) phone send_message w).2 in
  (_increment_referral_count E (Some code) phone send_message w).1 = Ok () ∧
  ∃ row',
    stored_referral code w' = Some row' ∧
    row' !! "referred_users" = Some (PList (users ++ [entry])) ∧
    row' !! "total_points" = Some (PInt (n + 1)) ∧
    ∀ k, k ≠ "referred_users" → k ≠ "total_points" → row' !! k = row !! k.
Proof.
  intros Hrow Husers Hpoints entry.
  set (p1 := ({[ "referred_users" := PList (users ++ [entry]) ]}
              : gmap string pyval)).
  set (p2 := ({[ "total_points" := PInt (n + 1) ]} : gmap string pyval)).
  set (w1 := set_referrals (update_eq "referral_code" code p1 (referrals w)) w).
  set (w2 := set_referrals
               (update_eq "referral_code" code p2 (referrals w1)) w1).
  assert (Hadd : _add_user_to_referral E phone (Some code) w = (Ok (), w1)).
  { unfold _add_user_to_referral, try_except, add_referred_user.
    rewrite bind_run, now_run, bind_run, get_referral_by_code_run, Hrow.
    by rewrite Husers. }
  assert (Hrow1 : stored_referral code w1 = Some (p1 ∪ row)).
  { unfold stored_referral, w1. simpl.
    rewrite head_select_update by done. unfold stored_referral in Hrow.
    rewrite Hrow. reflexivity. }
  assert (Hpoints1 : (p1 ∪ row) !! "total_points" = Some (PInt n)).
  { by rewrite lookup_union_r. }
  assert (Hrow2 : stored_referral code w2 = Some (p2 ∪ (p1 ∪ row))).
  { unfold stored_referral, w2. simpl.
    rewrite head_select_update by done. unfold stored_referral in Hrow1.
    simpl in Hrow1. rewrite Hrow1. reflexivity. }
  assert (Hupd : update_referral (Some code) w1 = (Ok (), w2)).
  { unfold update_referral.
    rewrite bind_run, get_referral_by_code_run, Hrow1, Hpoints1.
    reflexivity. }
  assert (Hrun : ∃ w3,
    _increment_referral_count E (Some code) phone send_message w = (Ok (), w3)
    ∧ referrals w3 = referrals w2).
  { unfold _increment_referral_count, try_except.
    rewrite bind_run, Hadd, bind_run, get_referral_by_code_run, Hrow1.
    rewrite (truthy_dict _ _ _ Hpoints1), bind_run, Hpoints1.
    cbn [default from_option id lift add_one]. rewrite bind_run, Hupd.
    destruct (send_message && truthy (get (p1 ∪ row) "referrer_phone"));
      eexists; split; reflexivity. }
  destruct Hrun as [w3 [Hrun Hw3]]. rewrite Hrun. simpl. split; [done |].
  exists (p2 ∪ (p1 ∪ row)). repeat split.
  - unfold stored_referral in *. by rewrite Hw3.
  - rewrite lookup_union_r by done.
    apply lookup_union_Some_l, lookup_singleton_eq.
  - apply lookup_union_Some_l, lookup_singleton_eq.
  - intros k Hk1 Hk2. rewrite !lookup_union_r; [done | |].
    + by apply lookup_singleton_ne.
    + by apply lookup_singleton_ne.
Qed.

Lemma referral_valid_spec row :
  referral_valid row = true ↔
  (∃ n, row !! "total_points" = Some (PInt n)) ∧
  (∃ users, row !! "referred_users" = Some (PList users) ∧
            forallb is_referred_user users = true) ∧
  forallb (λ k, is_opt_str (get row k))
    ["referrer_id"; "referrer_name"; "referrer_email"; "referrer_phone";
     "referral_code"; "campaign_id"] = true.
Proof.
  unfold referral_valid. rewrite !andb_true_iff. split.
  - intros [[Hp Hu] Hs]. repeat split; [| | done].
    + destruct (row !! "total_points") as [[]|]; try done. by eexists.
    + destruct (row !! "referred_users") as [[]|]; try done. by eexists.
  - intros [[n ->] [[users [-> Hu]] Hs]]. done.
Qed.



(** The check only reads the store and never raises. *)
Lemma check_existing_total phone code w :
  ∃ b, _check_existing_referral phone code w = (Ok b, w).
Proof.
  unfold _check_existing_referral, try_except.
  rewrite bind_run. unfold get_referral_by_code, read.
  destruct code as [code|]; [| by eexists].
  destruct (head _) as [row|]; [| by eexists].
  destruct (truthy (PDict row)); [| by eexists].
  rewrite bind_run. unfold lift.
  destruct (iterate _) as [users|]; [| by eexists].
  destruct (scan_referred phone users); by eexists.
Qed.

(** A code with no stored record counts as credited. *)
Lemma check_unknown_code phone code w :
  stored_referral code w = None →
  _check_existing_referral phone (Some code) w = (Ok true, w).
Proof.
  intros H. unfold _check_existing_referral, try_except.
  by rewrite bind_run, get_referral_by_code_run, H.
Qed.

(** The scan says "credited" or raises as soon as the list holds an entry
    of the phone number. *)
Lemma scan_listed phone users d :
  PDict d ∈ users → d !! "phone_number" = Some (PStr phone) →
  scan_referred phone users ≠ Ok false.
Proof.
  intros Hin Hd. induction users as [|u users IH]; [by apply elem_of_nil in Hin |].
  apply elem_of_cons in Hin as [<- | Hin]; simpl.
  - unfold get. rewrite Hd. simpl. by rewrite bool_decide_eq_true_2.
  - destruct u; try done. simpl.
    destruct (eq_str _ phone); [done | by apply IH].
Qed.

(** A phone number on the referred-user list counts as credited, whatever
    else the list holds. *)
Lemma check_listed phone code w row users d :
  stored_referral code w = Some row →
  row !! "referred_users" = Some (PList users) →
  PDict d ∈ users → d !! "phone_number" = Some (PStr phone) →
  _check_existing_referral phone (Some code) w = (Ok true, w).
Proof.
  intros Hrow Husers Hin Hd. unfold _check_existing_referral, try_except.
  rewrite bind_run, get_referral_by_code_run, Hrow.
  destruct (truthy (PDict row)); [| done].
  rewrite bind_run, Husers. cbn [default from_option id iterate lift].
  pose proof (scan_listed phone users d Hin Hd) as Hscan.
  destruct (scan_referred phone users) as [[|]|];
    [reflexivity | by destruct Hscan | reflexivity].
Qed.

(** Once [_increment_referral_count] has credited a phone number on a
    well-formed record, the check reports it as credited. *)
Lemma credited_then_listed E code phone send_message w row users n :
  stored_referral code w = Some row →
  row !! "referred_users" = Some (PList users) →
  row !! "total_points" = Some (PInt n) →
  _check_existing_referral phone (Some code)
    (_increment_referral_count E (Some code) phone send_message w).2
  = (Ok true, (_increment_referral_count E (Some code) phone send_message w).2).
Proof.
  intros Hrow Husers Hpoints.
  destruct (increment_referral_count_run E code phone send_message w
              row users n Hrow Husers Hpoints)
    as [_ [row' [Hrow' [Husers' _]]]].
  eapply check_listed; [done | done | |].
  - apply elem_of_app. right. apply list_elem_of_singleton. reflexivity.
  - apply lookup_insert_eq.
Qed.

(** When the check reports "credited", the workflow leaves the stored
    record of the code as it is. *)
Lemma workflow_skips_credited E text phone ctx w campaign code row :
  _extract_codes text = (campaign, Some code) →
  _check_existing_referral phone (Some code) w = (Ok true, w) →
  stored_referral code w = Some row →
  stored_referral code (referral_workflow E text phone ctx w).2 = Some row.
Proof.
  intros Hcodes Hcheck Hrow. unfold referral_workflow, try_except.
  rewrite Hcodes, bind_run, Hcheck.
  assert (Hissue :
    stored_referral code (issue_referral_code E phone campaign ctx w).2
    = Some row).
  { unfold issue_referral_code.
    cbv [mbind M_bind mret M_ret read _generate_referral_code add_referral
         modify].
    match goal with
    | |- context [match ?f with Ok _ => _ | Raise _ => _ end] =>
        destruct f as [[n e]|]
    end; [| done].
    simpl. unfold stored_referral, select_eq in *.
    cbn [referrals set_referrals]. rewrite List.filter_app.
    by destruct (List.filter _ (referrals w)). }
  assert (Hout : ∀ out : result (option (list N)) * world,
    stored_referral code out.2 = Some row →
    stored_referral code
      (let (r, w') := out in
       match r with
       | Ok a => (Ok a, w')
       | Raise _ => (Ok None, w')
       end).2 = Some row).
  { by intros [[a|e] w']. }
  cbv [mbind M_bind mret M_ret get_referral_by_phone_number read].
  destruct (head (select_eq "referrer_phone" phone (referrals w)))
    as [mine|]; [| by apply Hout].
  destruct (truthy (PDict mine)); [| by apply Hout].
  by destruct (mine !! "referral_code").
Qed.

(** An entry without [phone_number] is skipped: a record that holds only
    such entries reports every phone number as not credited. *)
Example check_entry_without_phone :
  referral_valid
    (Sample.referral_row 1
       (PList [PDict {[ "time_stamp" := PStr (lit "2025-01-01 09:00:00") ]}]))
  = false ∧
  (_check_existing_referral (lit "923009998888") (Some (lit "ABCDEF"))
     (Sample.ledger 1
        (PList [PDict {[ "time_stamp" := PStr (lit "2025-01-01 09:00:00") ]}]))).1
  = Ok false.
Proof. split; reflexivity. Qed.

(** C1 fails on a stored record that does not conform to [ReferralSchema]:
    with [referred_users] the empty mapping, the check reports the phone
    number as not credited, and two runs of the workflow with the same
    code and the same phone number raise the point total from 0 to 1 and
    then to 2. *)
Theorem malformed_record_is_credited_twice :
  let w0 := Sample.ledger 0 (PDict ∅) in
  let phone := lit "923009998888" in
  let text := lit "(Referral code: _QTMR-ABCDEF_)" in
  let w1 := (referral_workflow Sample.quiet text phone None w0).2 in
  let w2 := (referral_workflow Sample.quiet text phone None w1).2 in
  referral_valid (Sample.referral_row 0 (PDict ∅)) = false ∧
  _check_existing_referral phone (Some (lit "ABCDEF")) w0 = (Ok false, w0) ∧
  stored_points (lit "ABCDEF") w0 = Some (PInt 0) ∧
  stored_points (lit "ABCDEF") w1 = Some (PInt 1) ∧
  stored_points (lit "ABCDEF") w2 = Some (PInt 2).
Proof. cbv zeta. repeat split; reflexivity. Qed.

(** ** Identity resolution *)

Lemma take_one_head {A B} (l : list A) (f : A → B) (g : B) :
  match take 1 l with x :: _ => f x | [] => g end
  = match head l with Some x => f x | None => g end.
Proof. by destruct l. Qed.

Lemma get_customer_by_phone_run E phone w :
  get_customer_by_phone E phone w =
  match stored_customer phone w with
  | Some row =>
      if schema_ok E row then (Ok (Some row), w)
      else (Raise ValidationError, w)
  | None => (Ok None, w)
  end.
Proof.
  unfold get_customer_by_phone, stored_customer. rewrite bind_run.
  unfold read. rewrite take_one_head.
  destruct (head _) as [row|]; [| done].
  rewrite bind_run. unfold lift, model_validate, CustomerSchema.
  by destruct (schema_ok E row).
Qed.

Lemma is_escalated_run phone w :
  is_escalated phone w =
  (Ok match stored_customer phone w with
      | Some row => truthy (get row "escalation_status")
      | None => false
      end, w).
Proof.
  unfold is_escalated, stored_customer. rewrite bind_run. unfold read.
  rewrite (take_one_head _ (λ row, mret (truthy (get row "escalation_status")))
             (mret false)).
  by destruct (head _).
Qed.

Lemma create_customer_run E fields w :
  create_customer E fields w =
  if schema_ok E fields
  then (Ok (PDict fields), set_customers (customers w ++ [fields]) w)
  else (Raise ValidationError, w).
Proof.
  unfold create_customer, CustomerSchema. rewrite bind_run. unfold lift.
  by destruct (schema_ok E fields).
Qed.

Lemma head_select_None col v table :
  head (select_eq col v table) = None → select_eq col v table = [].
Proof. by destruct (select_eq col v table). Qed.

(** A row inserted under a phone number nobody had is the stored record of
    that phone number. *)
Lemma stored_customer_inserted phone fields w :
  stored_customer phone w = None →
  fields !! "phone_number" = Some (PStr phone) →
  stored_customer phone (set_customers (customers w ++ [fields]) w)
  = Some fields.
Proof.
  unfold stored_customer. intros Hnone Hphone. simpl.
  apply head_select_None in Hnone. unfold select_eq in *.
  rewrite List.filter_app, Hnone. simpl.
  unfold eq_col, get. rewrite Hphone. simpl.
  by rewrite bool_decide_eq_true_2.
Qed.

(** What [shopify_fields] builds. *)
Lemma shopify_fields_built sc phone fields :
  shopify_fields sc phone = Ok fields →
  fields !! "phone_number" = Some (PStr phone) ∧
  fields !! "customer_type" = Some (PStr DEFAULT_CUSTOMER_TYPE) ∧
  fields !! "total_spend"
  = Some (or_else (get sc "totalSpent") (PInt DEFAULT_TOTAL_SPEND)) ∧
  fields !! "is_active" = Some (PBool true) ∧
  fields !! "escalation_status" = Some (PBool false) ∧
  fields !! "customer_name" = Some (get sc "displayName").
Proof.
  unfold shopify_fields. intros H.
  repeat match type of H with
         | (?m ≫= _) = Ok _ =>
             destruct m; [cbn [mbind result_bind] in H | discriminate H]
         end.
  injection H as <-. by repeat split.
Qed.

(** With no local record and no QuickBooks match, a Shopify customer
    becomes a new record: consumer by default, with Shopify's total spent,
    or 0 when that is absent or empty. *)
Lemma created_from_shopify E phone w sc fields :
  stored_customer phone w = None →
  quickbook E phone = Ok None →
  shopify E phone = Ok (Some sc) → truthy (PDict sc) = true →
  shopify_fields sc phone = Ok fields → schema_ok E fields = true →
  _get_or_create_customer E phone w
  = (Ok fields, set_customers (customers w ++ [fields]) w) ∧
  get fields "customer_type" = PStr (lit "D2C") ∧
  get fields "total_spend" = or_else (get sc "totalSpent") (PInt 0).
Proof.
  intros Hnone Hqb Hshop Hsc Hfields Hok.
  destruct (shopify_fields_built _ _ _ Hfields) as [_ [Hty [Hspend _]]].
  split; [| by unfold get; rewrite Hty, Hspend].
  unfold _get_or_create_customer.
  rewrite bind_run, get_customer_by_phone_run, Hnone.
  cbn [incomplete]. rewrite bind_run, bind_run. unfold lift at 1.
  rewrite Hqb. unfold create_without_quickbooks, try_except.
  rewrite bind_run. unfold lift at 1.
  rewrite Hshop, Hsc, bind_run. unfold lift at 1. rewrite Hfields.
  rewrite create_customer_run, Hok. unfold lift, model_validate, CustomerSchema.
  by rewrite Hok.
Qed.

(** With a local record that lacks a field and a QuickBooks match, the
    store is updated and the resolution raises: [update_customer] returns
    the list of updated rows and [model_validate] rejects a list. *)
Lemma merge_raises E phone w row qb :
  stored_customer phone w = Some row → schema_ok E row = true →
  incomplete (Some row) = true →
  quickbook E phone = Ok (Some qb) →
  _get_or_create_customer E phone w
  = (Raise ValidationError,
     set_customers (update_eq "phone_number" phone (clean_updates qb)
                      (customers w)) w).
Proof.
  intros Hrow Hok Hinc Hqb. unfold _get_or_create_customer.
  rewrite bind_run, get_customer_by_phone_run, Hrow, Hok, Hinc.
  rewrite bind_run, bind_run. unfold lift at 1. rewrite Hqb.
  by rewrite update_customer_run.
Qed.

(** C5 fails on the merge path: Ann's local record has no email and
    QuickBooks has one; the stored record takes the email, and the
    resolution raises instead of returning a profile. *)
Theorem quickbooks_merge_does_not_resolve :
  let phone := lit "923001234567" in
  let E := Sample.collaborators None (Raise UpstreamError)
             (Some Sample.books_of_ann) None in
  let w0 := Sample.registry (Sample.customer_row "923001234567" PNone false) in
  (_get_or_create_customer E phone w0).1 = Raise ValidationError ∧
  (row ← stored_customer phone (_get_or_create_customer E phone w0).2;
   row !! "email") = Some (PStr (lit "ann@example.com")) ∧
  (row ← stored_customer phone w0; row !! "email") = Some PNone.
Proof. vm_compute. repeat split. Qed.

Lemma quickbook_fields_phone qb phone :
  quickbook_fields qb phone !! "phone_number" = Some (PStr phone).
Proof. reflexivity. Qed.

Lemma minimal_fields_phone phone :
  minimal_fields phone !! "phone_number" = Some (PStr phone).
Proof. reflexivity. Qed.

Lemma create_customer_created E phone fields w :
  fields !! "phone_number" = Some (PStr phone) →
  created E phone w (create_customer E fields w).
Proof.
  intros Hphone. rewrite create_customer_run.
  destruct (schema_ok E fields) eqn:Hok; [right | left]; eauto.
Qed.

Lemma create_without_quickbooks_created E phone w :
  created E phone w (create_without_quickbooks E phone w).
Proof.
  pose proof (create_customer_created E phone (minimal_fields phone) w
                (minimal_fields_phone phone)) as Hmin.
  assert (Hhandled : ∀ out,
    created E phone w out →
    created E phone w
      (match out with
       | (Ok a, w') => (Ok a, w')
       | (Raise e, w') => create_customer E (minimal_fields phone) w'
       end)).
  { intros out [[e ->] | [fields [H1 [H2 ->]]]]; [done |].
    right. eauto. }
  unfold create_without_quickbooks, try_except. rewrite bind_run.
  unfold lift at 1.
  destruct (shopify E phone) as [[sc|]|]; [| by apply Hhandled | done].
  destruct (truthy (PDict sc)); [| by apply Hhandled].
  rewrite bind_run. unfold lift at 1.
  destruct (shopify_fields sc phone) as [fields|] eqn:Hfields; [| done].
  apply Hhandled, create_customer_created.
  by apply shopify_fields_built in Hfields as [H _].
Qed.

Lemma created_then_validate E phone w (m : M pyval) r w' :
  stored_customer phone w = None →
  created E phone w (m w) →
  (d ← m; lift (model_validate E d)) w = (r, w') →
  trace w' = trace w ∧ chats w' = chats w ∧ referrals w' = referrals w ∧
  ∀ c, r = Ok c → stored_customer phone w' = Some c.
Proof.
  intros Hnone [[e Hm] | [fields [Hphone [Hok Hm]]]]; rewrite bind_run, Hm.
  - intros [= <- <-]. by repeat split.
  - unfold lift, model_validate, CustomerSchema. rewrite Hok.
    intros [= <- <-]. repeat split.
    intros c [= <-]. by apply stored_customer_inserted.
Qed.

(** Resolution touches the customer table only, and a customer it returns
    is the stored record of the phone number. *)
Lemma resolve_outcome E phone w r w' :
  _get_or_create_customer E phone w = (r, w') →
  trace w' = trace w ∧ chats w' = chats w ∧ referrals w' = referrals w ∧
  ∀ c, r = Ok c → stored_customer phone w' = Some c.
Proof.
  unfold _get_or_create_customer.
  rewrite bind_run, get_customer_by_phone_run.
  destruct (stored_customer phone w) as [row|] eqn:Hrow.
  - destruct (schema_ok E row) eqn:Hok; [| intros [= <- <-]; by repeat split].
    destruct (incomplete (Some row)).
    + rewrite !bind_run. unfold lift at 1.
      destruct (quickbook E phone) as [[qb|]|].
      * rewrite update_customer_run. intros [= <- <-]. by repeat split.
      * unfold mret, M_ret, lift, model_validate, CustomerSchema. rewrite Hok.
        intros [= <- <-]. repeat split. by intros c [= <-].
      * intros [= <- <-]. by repeat split.
    + rewrite bind_run.
      unfold mret, M_ret, lift, model_validate, CustomerSchema. rewrite Hok.
      intros [= <- <-]. repeat split. by intros c [= <-].
  - cbn [incomplete]. rewrite bind_run, bind_run. unfold lift at 1.
    destruct (quickbook E phone) as [[qb|]|].
    + rewrite <- bind_run. apply created_then_validate; [done |].
      apply create_customer_created, quickbook_fields_phone.
    + rewrite <- bind_run. apply created_then_validate; [done |].
      apply create_without_quickbooks_created.
    + intros [= <- <-]. by repeat split.
Qed.

(** ** The workflow *)

Lemma log_customer_message_run E phone raw is_voice w :
  _log_customer_message E phone raw is_voice w =
  (Ok (),
   emit (HistoryAppend phone (inbound_entry E raw is_voice w))
     (set_chats (<[phone := default [] (chats w !! phone)
                             ++ [inbound_entry E raw is_voice w]]> (chats w))
        w)).
Proof. reflexivity. Qed.

Lemma inbound_logged_run E phone raw is_voice w :
  stream_to_web_socket E phone raw by_customer
    (_log_customer_message E phone raw is_voice w).2
  = (Ok (), inbound_logged E phone raw is_voice w).
Proof. reflexivity. Qed.

Lemma inbound_logged_trace E phone raw is_voice w :
  trace (inbound_logged E phone raw is_voice w)
  = trace w ++ [HistoryAppend phone (inbound_entry E raw is_voice w);
                Broadcast phone (inbound_broadcast E raw w)].
Proof.
  unfold inbound_logged, inbound_broadcast. simpl.
  rewrite <- app_assoc, length_app, Nat.add_1_r. reflexivity.
Qed.

Lemma inbound_logged_chats E phone raw is_voice w :
  chats (inbound_logged E phone raw is_voice w)
  = <[phone := default [] (chats w !! phone)
                 ++ [inbound_entry E raw is_voice w]]> (chats w).
Proof. reflexivity. Qed.

Lemma inbound_counts t a b c d :
  history_appends (t ++ [HistoryAppend a b; Broadcast c d])
  = S (history_appends t) ∧
  sends (t ++ [HistoryAppend a b; Broadcast c d]) = sends t ∧
  agent_runs (t ++ [HistoryAppend a b; Broadcast c d]) = agent_runs t.
Proof.
  unfold history_appends, sends, agent_runs.
  rewrite !List.filter_app, !length_app. simpl. lia.
Qed.

(** The start of [execute_workflow], up to the resolution of the
    customer. *)
Lemma execute_workflow_run E data is_voice w raw phone :
  receive E data is_voice = Some (raw, phone) →
  execute_workflow E data is_voice w =
  match _get_or_create_customer E phone
          (inbound_logged E phone raw is_voice w) with
  | (Raise _, w1) => (Ok (), w1)
  | (Ok customer, w1) =>
      try_except
        (escalated ← is_escalated phone;
         if negb escalated
         then
           let global_context :=
             global_context_of customer (recent_history E phone w) in
           response ←
             match (_extract_codes raw).1 with
             | Some _ =>
                 referral_workflow E raw phone (Some global_context)
             | None =>
                 r ← _route_to_agent E phone raw global_context;
                 mret (Some r)
             end;
           _log_agent_message E phone response;;
           match response with
           | Some r =>
               stream_to_web_socket E phone r by_agent;;
               send_whatsapp_message phone r
           | None => raise TypeError
           end
         else mret ())
        (λ _, mret ()) w1
  end.
Proof.
  intros Hrecv. unfold execute_workflow. rewrite Hrecv.
  unfold try_except at 1. rewrite bind_run.
  unfold get_recent_chat_history_by_phone at 1. unfold read at 1.
  rewrite bind_run, log_customer_message_run.
  rewrite bind_run.
  change (emit _ (set_chats _ w))
    with ((_log_customer_message E phone raw is_voice w).2).
  rewrite inbound_logged_run, bind_run.
  destruct (_get_or_create_customer E phone _) as [[customer|e] w1];
    reflexivity.
Qed.

(** C6: when the customer resolved for an inbound message has the
    escalation flag set, the workflow ends normally after the inbound
    message is logged and broadcast: the trace gains exactly one history
    write, of the customer's message, and one broadcast of it; it gains no
    WhatsApp send and no agent run, and the chat log of the phone number
    gains that one message. *)
Theorem escalated_customer_gets_no_reply (E : env) (data : pyval)
  (is_voice : bool) (w : world) (raw phone : list N)
  (customer : gmap string pyval) (w' : world) :
  receive E data is_voice = Some (raw, phone) →
  _get_or_create_customer E phone (inbound_logged E phone raw is_voice w)
  = (Ok customer, w') →
  truthy (get customer "escalation_status") = true →
  execute_workflow E data is_voice w = (Ok (), w') ∧
  trace w' = trace w ++ [HistoryAppend phone (inbound_entry E raw is_voice w);
                         Broadcast phone (inbound_broadcast E raw w)] ∧
  history_appends (trace w') = S (history_appends (trace w)) ∧
  sends (trace w') = sends (trace w) ∧
  agent_runs (trace w') = agent_runs (trace w) ∧
  chats w' = <[phone := default [] (chats w !! phone)
                          ++ [inbound_entry E raw is_voice w]]> (chats w).
Proof.
  intros Hrecv Hres Hflag.
  destruct (resolve_outcome _ _ _ _ _ Hres) as [Htrace [Hchats [_ Hstored]]].
  specialize (Hstored customer eq_refl).
  assert (Ht : trace w' = trace w ++
            [HistoryAppend phone (inbound_entry E raw is_voice w);
             Broadcast phone (inbound_broadcast E raw w)]).
  { by rewrite Htrace, inbound_logged_trace. }
  split; [| split; [done |]].
  - rewrite (execute_workflow_run _ _ _ _ _ _ Hrecv), Hres.
    unfold try_except. rewrite bind_run, is_escalated_run, Hstored, Hflag.
    reflexivity.
  - rewrite Ht. destruct (inbound_counts (trace w) phone
                            (inbound_entry E raw is_voice w) phone
                            (inbound_broadcast E raw w)) as [H1 [H2 H3]].
    rewrite H1, H2, H3, Hchats. by repeat split.
Qed.

(** ** Routing *)

Lemma handler_named_name h : handler_named (handler_name h) = Some h.
Proof. by destruct h. Qed.

Lemma update_escalation_status_frame phone status w :
  ∃ b w1,
    update_escalation_status phone status w = (Ok b, w1) ∧
    trace w1 = trace w ∧ chats w1 = chats w ∧ referrals w1 = referrals w.
Proof. by repeat eexists. Qed.

Lemma escalate_all_frame phones w :
  ∃ w1,
    escalate_all phones w = (Ok (), w1) ∧
    trace w1 = trace w ∧ chats w1 = chats w ∧ referrals w1 = referrals w.
Proof.
  revert w. induction phones as [|p phones IH]; intros w.
  - by eexists.
  - destruct (IH (update_escalation_status p true w).2) as [w1 [H1 H2]].
    exists w1. split; [| done]. unfold escalate_all. simpl.
    rewrite bind_run. exact H1.
Qed.

(** An agent run adds its own event to the trace and nothing else. *)
Lemma run_agent_trace E h input ctx w :
  trace (run_agent E h input ctx w).2 = trace w ++ [AgentRun h input].
Proof.
  unfold run_agent. rewrite bind_run. unfold modify at 1.
  rewrite bind_run.
  assert (Hesc : ∃ w1,
    match h with
    | CustomerGreetingAgent => mret ()
    | _ => escalate_all (agent_escalations E h input ctx)
    end (emit (AgentRun h input) w) = (Ok (), w1) ∧
    trace w1 = trace w ++ [AgentRun h input]).
  { destruct h.
    - by eexists.
    - destruct (escalate_all_frame (agent_escalations E D2CCustomerSupportAgent
                                      input ctx) (emit (AgentRun D2CCustomerSupportAgent input) w))
        as [w1 [H1 [H2 _]]]. eauto.
    - destruct (escalate_all_frame (agent_escalations E B2BBusinessSupportAgent
                                      input ctx) (emit (AgentRun B2BBusinessSupportAgent input) w))
        as [w1 [H1 [H2 _]]]. eauto. }
  destruct Hesc as [w1 [-> Ht]]. unfold lift.
  by destruct (agent_reply E h input ctx).
Qed.

(** Persisting the personal information of a decision adds nothing to the
    trace. *)
Lemma persist_personal_info_frame phone sentiment w :
  ∃ w1,
    (if has_personal_info sentiment
     then try_except (update_customer phone (personal_info sentiment);;
                      mret ()) (λ _, mret ())
     else mret ()) w = (Ok (), w1) ∧
    trace w1 = trace w ∧ chats w1 = chats w ∧ referrals w1 = referrals w.
Proof. destruct (has_personal_info sentiment); by eexists. Qed.

(** The handler that runs is the one the decision names, whatever the
    customer type in the context: the orchestrator applies no override of
    its own. *)
Lemma route_runs_named_handler E phone raw ctx w sentiment h :
  router E raw ctx = Ok sentiment →
  handler_named (next_agent sentiment) = Some h →
  trace (_route_to_agent E phone raw ctx w).2 = trace w ++ [AgentRun h raw].
Proof.
  intros Hrouter Hh. unfold _route_to_agent.
  rewrite bind_run. unfold lift at 1. rewrite Hrouter, bind_run.
  destruct (persist_personal_info_frame phone sentiment w)
    as [w1 [-> [Ht _]]].
  rewrite Hh, run_agent_trace. by rewrite Ht.
Qed.

Lemma route_unknown_handler E phone raw ctx w sentiment :
  router E raw ctx = Ok sentiment →
  handler_named (next_agent sentiment) = None →
  ∃ w1,
    _route_to_agent E phone raw ctx w = (Raise ValueError, w1) ∧
    trace w1 = trace w.
Proof.
  intros Hrouter Hh. unfold _route_to_agent.
  rewrite bind_run. unfold lift at 1. rewrite Hrouter, bind_run.
  destruct (persist_personal_info_frame phone sentiment w)
    as [w1 [-> [Ht _]]].
  rewrite Hh. by exists w1.
Qed.


Lemma handler_named_Some next h :
  handler_named next = Some h → next = handler_name h.
Proof.
  unfold handler_named. repeat case_bool_decide; naive_solver.
Qed.

(** C4, as it holds: the handler that runs for a routed message is the one
    the decision of the router names, whatever the customer type in the
    context.  For every decision of the router: the handler it names runs
    on the raw message, and no other; for a customer whose type is
    ["business"] the business-support handler runs exactly when the
    decision names it, and the consumer-support handler exactly when the
    decision names that one; a decision that names none of the three
    handlers runs none.  [_route_to_agent] applies no override of its
    own. *)
Theorem router_decision_selects_handler (E : env) (phone raw : list N)
  (ctx : GlobalContext) (w : world) (sentiment : SentimentAnalysisResult) :
  router E raw ctx = Ok sentiment →
  let w' := (_route_to_agent E phone raw ctx w).2 in
  (∀ h, trace w' = trace w ++ [AgentRun h raw]
        ↔ next_agent sentiment = handler_name h) ∧
  (get (customer_context ctx) "customer_type" = PStr (lit "business") →
   (trace w' = trace w ++ [AgentRun B2BBusinessSupportAgent raw]
    ↔ next_agent sentiment = lit "B2BBusinessSupportAgent") ∧
   (trace w' = trace w ++ [AgentRun D2CCustomerSupportAgent raw]
    ↔ next_agent sentiment = lit "D2CCustomerSupportAgent")) ∧
  (handler_named (next_agent sentiment) = None →
   (_route_to_agent E phone raw ctx w).1 = Raise ValueError ∧
   trace w' = trace w).
Proof.
  intros Hrouter w'.
  assert (Hiff : ∀ h, trace w' = trace w ++ [AgentRun h raw]
                      ↔ next_agent sentiment = handler_name h).
  { intros h. split.
    - intros Ht.
      destruct (handler_named (next_agent sentiment)) as [h'|] eqn:Hh.
      + pose proof (route_runs_named_handler E phone raw ctx w sentiment h'
                      Hrouter Hh) as Ht'.
        fold w' in Ht'. rewrite Ht in Ht'.
        apply app_inv_head in Ht'. injection Ht' as ->.
        by apply handler_named_Some.
      + destruct (route_unknown_handler E phone raw ctx w sentiment
                    Hrouter Hh) as [w1 [Hrun Ht1]].
        subst w'. rewrite Hrun in Ht. cbn [snd] in Ht. rewrite Ht1 in Ht.
        apply (f_equal length) in Ht. rewrite length_app in Ht.
        simpl in Ht. lia.
    - intros Hnext.
      apply (route_runs_named_handler E phone raw ctx w sentiment h Hrouter).
      rewrite Hnext. apply handler_named_name. }
  split; [exact Hiff |]. split.
  - intros _. split.
    + exact (Hiff B2BBusinessSupportAgent).
    + exact (Hiff D2CCustomerSupportAgent).
  - intros Hnone.
    destruct (route_unknown_handler E phone raw ctx w sentiment Hrouter Hnone)
      as [w1 [Hrun Ht1]].
    subst w'. by rewrite Hrun.
Qed.

(** C4 as stated fails: Ann's customer type is ["business"] and the
    decision of the router names the consumer-support handler, the raw
    classification of "I need a refund"; the consumer-support handler
    runs, in [_route_to_agent] and in the whole workflow, and the
    business-support handler does not. *)
Lemma business_customer_runs_named_consumer_handler :
  let raw := lit "I need a refund" in
  let routed := (_route_to_agent Cases.refund Cases.ann raw
                   Sample.business_context Sample.empty_world).2 in
  let whole := (execute_workflow Cases.refund PNone false
                  (Sample.registry Cases.business_ann)).2 in
  get (customer_context Sample.business_context) "customer_type"
  = PStr (lit "business") ∧
  get Cases.business_ann "customer_type" = PStr (lit "business") ∧
  trace routed = [AgentRun D2CCustomerSupportAgent raw] ∧
  trace routed ≠ [AgentRun B2BBusinessSupportAgent raw] ∧
  List.filter (λ e, match e with AgentRun _ _ => true | _ => false end)
    (trace whole)
  = [AgentRun D2CCustomerSupportAgent raw].
Proof. cbv zeta. repeat split; (reflexivity || discriminate). Qed.

(** ** The statements at sample inputs *)

(** A first "Hi" from an unknown phone number, routed to the greeting
    handler: the customer is created with the defaults, and the trace holds
    the inbound entry and broadcast, the handler, the reply entry and
    broadcast, and one send. *)
Example greeting_end_to_end :
  let E := Sample.collaborators (Some (lit "Hi", lit "923001234567"))
             (Ok (Sample.decision "CustomerGreetingAgent")) None None in
  let w' := (execute_workflow E PNone false Sample.empty_world).2 in
  let t := lit "2025-01-01 10:00:00" in
  let reply := lit "How can I help?" in
  customers w' = [minimal_fields (lit "923001234567")] ∧
  trace w' =
    [HistoryAppend (lit "923001234567")
       {| time_stamp := t; content := lit "Hi"; message_type := text;
          sender := by_customer |};
     Broadcast (lit "923001234567")
       {| time_stamp := t; content := lit "Hi"; message_type := text;
          sender := by_customer |};
     AgentRun CustomerGreetingAgent (lit "Hi");
     HistoryAppend (lit "923001234567")
       {| time_stamp := t; content := reply; message_type := text;
          sender := by_agent |};
     Broadcast (lit "923001234567")
       {| time_stamp := t; content := reply; message_type := text;
          sender := by_agent |};
     Send (PStr (lit "923001234567")) reply].
Proof. cbv zeta. split; reflexivity. Qed.


(** C6 on a store where Ann is escalated: her "hello" is logged once and
    nothing is sent. *)
Lemma escalated_customer_gets_no_reply_witness :
  let E := Sample.collaborators (Some (lit "hello", lit "923001234567"))
             (Raise UpstreamError) None None in
  let w := Sample.registry
             (Sample.customer_row "923001234567" (PStr (lit "ann@example.com"))
                true) in
  (execute_workflow E PNone false w).1 = Ok () ∧
  sends (trace (execute_workflow E PNone false w).2) = 0%nat ∧
  history_appends (trace (execute_workflow E PNone false w).2) = 1%nat.
Proof.
  intros E w.
  destruct (escalated_customer_gets_no_reply E PNone false w (lit "hello")
              (lit "923001234567")
              (Sample.customer_row "923001234567"
                 (PStr (lit "ann@example.com")) true)
              (inbound_logged E (lit "923001234567") (lit "hello") false w))
    as [Hrun [_ [Ha [Hs _]]]];
    [reflexivity | reflexivity | reflexivity |].
  rewrite Hrun. split; [reflexivity |]. split; [exact Hs | exact Ha].
Defined.


(** C4 with a decision that names the business-support handler for
    "I need a refund": that handler runs. *)
Lemma router_decision_selects_handler_witness :
  let E := Sample.collaborators None
             (Ok (Sample.decision "B2BBusinessSupportAgent")) None None in
  trace (_route_to_agent E (lit "923001234567") (lit "I need a refund")
           Sample.business_context Sample.empty_world).2
  = [AgentRun B2BBusinessSupportAgent (lit "I need a refund")].
Proof.
  intros E.
  destruct (router_decision_selects_handler E (lit "923001234567")
              (lit "I need a refund") Sample.business_context
              Sample.empty_world (Sample.decision "B2BBusinessSupportAgent"))
    as [H _]; [reflexivity |].
  apply (H B2BBusinessSupportAgent). reflexivity.
Defined.

(** C10 on a store where Ann is escalated: an update that carries
    [escalation_status = False] and a blank email leaves her escalated. *)
Lemma update_customer_keeps_escalation_witness :
  let w := Sample.registry
             (Sample.customer_row "923001234567" (PStr (lit "ann@example.com"))
                true) in
  let updates : gmap string pyval :=
    {[ "escalation_status" := PBool false; "email" := PStr [] ]} in
  ∃ row',
    customers (update_customer (lit "923001234567") updates w).2 !! 0%nat
    = Some row' ∧
    row' !! "escalation_status" = Some (PBool true).
Proof.
  intros w updates.
  destruct (update_customer_keeps_escalation (lit "923001234567") updates w)
    as [_ [_ [_ [_ [Hrows _]]]]].
  destruct (Hrows 0%nat
              (Sample.customer_row "923001234567"
                 (PStr (lit "ann@example.com")) true) eq_refl)
    as [row' [H1 [H2 _]]].
  exists row'. split; [exact H1 |]. rewrite H2. reflexivity.
Defined.


(** * Further properties *)

(** ** The invitation *)

Lemma search_skip_prefix pre s :
  Forall (λ c, c ≠ 40%N) pre → Regex.search (pre ++ s) = Regex.search s.
Proof.
  induction 1 as [|c pre Hc _ IH]; [done |].
  cbn [app]. rewrite search_cons.
  assert (Regex.match_here (c :: pre ++ s) = None) as ->; [| done].
  unfold Regex.match_here. literals. cbn [Regex.expect].
  destruct (N.eqb_spec 40 c) as [Heq | _]; [congruence | done].
Qed.

(** X1: the invitation [_static_message] builds for a code of six
    letters A-Z carries, behind its link, a text from which
    [_extract_codes] reads back the campaign code QTMR and that very code:
    a friend who sends the prefilled text is taken for a referral of the
    code that was generated. *)
Theorem invitation_round_trip (E : env) (code : list N) :
  upper_token 6 code →
  (∃ pre post,
     _static_message E code
     = pre ++ _generate_referral_link E (invitation_text code) ++ post) ∧
  _extract_codes (invitation_text code) = (Some (lit "QTMR"), Some code).
Proof.
  intros Hcode.
  assert (Hs : _extract_codes (invitation_text code)
               = (Some (lit "QTMR"), Some code)).
  { unfold _extract_codes.
    assert (Regex.search (invitation_text code) = Some (lit "QTMR", code))
      as ->; [| done].
    assert (Htext : ∃ pre post,
      invitation_text code = pre ++ wrapper (lit " ") (lit "QTMR") code ++ post
      ∧ Forall (λ c, c ≠ 40%N) pre).
    { exists (128075%N ::
              lit " Hi! I'm inviting you to try *Boost Buddy WhatsApp Bot* "
              ++ 128640%N :: lit " It's super useful and easy to use.  "
              ++ [10%N] ++ lit "Here's your referral code: "),
             (lit " " ++ 127881%N :: lit "  " ++ [10%N]
              ++ 128073%N :: lit " Just send this code to get started!").
      split.
      - unfold invitation_text, wrapper. rewrite <- !app_assoc. reflexivity.
      - literals. cbn [app]. repeat constructor; done. }
    destruct Htext as [pre [post [-> Hpre]]].
    rewrite (search_skip_prefix _ _ Hpre).
    apply search_Some. exists 0%nat. rewrite drop_0.
    split; [lia |]. split; [| lia].
    apply match_here_spec. exists (lit " "), post.
    split; [done |]. split; [by repeat constructor |].
    split; [| done]. split; [done |]. by repeat constructor. }
  split; [| done].
  eexists (127881%N :: lit " Thank you for being part of Boost Buddy! "
           ++ [127881%N; 10%N; 10%N]
           ++ lit "Share this exclusive referral code with your friends and family:"
           ++ [10%N; 10%N] ++ 128273%N :: lit " "), _.
  reflexivity.
Qed.

(** ** The referral ledger *)

Lemma counts_only_refl t : counts_only t t.
Proof. apply Forall_Forall2_diag, Forall_forall. by intros. Qed.

Lemma counts_only_trans t1 t2 t3 :
  counts_only t1 t2 → counts_only t2 t3 → counts_only t1 t3.
Proof.
  intros H12. revert t3.
  induction H12 as [|r1 r2 t1 t2 H1 _ IH]; intros t3 H23;
    inversion H23 as [|? r3 ? t3' H2 H23']; subst; constructor.
  - intros k Hk1 Hk2. by rewrite H2, H1.
  - by apply IH.
Qed.

Lemma counts_only_update code payload t :
  (∀ k, k ≠ "referred_users" → k ≠ "total_points" → payload !! k = None) →
  counts_only t (update_eq "referral_code" code payload t).
Proof.
  intros Hp. unfold counts_only, update_eq. apply Forall2_fmap_r.
  apply Forall_Forall2_diag, Forall_forall. intros row _ k Hk1 Hk2.
  destruct (eq_col "referral_code" code row); [| done].
  by rewrite lookup_union_r by auto.
Qed.

Lemma counts_only_select col v t t' :
  col ≠ "referred_users" → col ≠ "total_points" →
  counts_only t t' →
  counts_only (select_eq col v t) (select_eq col v t').
Proof.
  intros Hc1 Hc2. unfold select_eq.
  induction 1 as [|row row' t t' Hrow _ IH]; [constructor |].
  assert (Heq : eq_col col v row' = eq_col col v row).
  { unfold eq_col, get. by rewrite (Hrow col Hc1 Hc2). }
  cbn [List.filter]. rewrite Heq.
  destruct (eq_col col v row); [by constructor | done].
Qed.

Lemma counts_only_head col v t t' row :
  col ≠ "referred_users" → col ≠ "total_points" →
  counts_only t t' →
  head (select_eq col v t) = Some row →
  ∃ row', head (select_eq col v t') = Some row' ∧
          ∀ k, k ≠ "referred_users" → k ≠ "total_points" →
               row' !! k = row !! k.
Proof.
  intros Hc1 Hc2 Ht Hrow.
  pose proof (counts_only_select col v t t' Hc1 Hc2 Ht) as Hs.
  destruct Hs as [|r r' s s' Hr _]; [done |].
  injection Hrow as ->. by exists r'.
Qed.

Lemma counts_only_head_None col v t t' :
  col ≠ "referred_users" → col ≠ "total_points" →
  counts_only t t' →
  head (select_eq col v t) = None → head (select_eq col v t') = None.
Proof.
  intros Hc1 Hc2 Ht Hrow.
  pose proof (counts_only_select col v t t' Hc1 Hc2 Ht) as Hs.
  by destruct Hs.
Qed.

Lemma ledger_frame_refl w : ledger_frame w w.
Proof. repeat split. apply counts_only_refl. Qed.

Lemma ledger_frame_trans w1 w2 w3 :
  ledger_frame w1 w2 → ledger_frame w2 w3 → ledger_frame w1 w3.
Proof.
  intros [H1 [H2 [H3 H4]]] [G1 [G2 [G3 G4]]].
  repeat split; [congruence | congruence | congruence |].
  by eapply counts_only_trans.
Qed.

Lemma update_referral_row_frame code payload w :
  (∀ k, k ≠ "referred_users" → k ≠ "total_points" → payload !! k = None) →
  ledger_frame w (update_referral_row code payload w).2.
Proof.
  intros Hp. destruct code as [c|]; [| apply ledger_frame_refl].
  repeat split. by apply counts_only_update.
Qed.

Lemma singleton_counts k (v : pyval) :
  k = "referred_users" ∨ k = "total_points" →
  ∀ k', k' ≠ "referred_users" → k' ≠ "total_points" →
        ({[ k := v ]} : gmap string pyval) !! k' = None.
Proof. intros [-> | ->] k' H1 H2; by apply lookup_singleton_ne. Qed.

Lemma add_referred_user_frame code u w :
  ledger_frame w (add_referred_user code u w).2.
Proof.
  unfold add_referred_user. rewrite bind_run.
  unfold get_referral_by_code, read.
  destruct (match code with Some c => _ | None => None end) as [row|];
    [| apply ledger_frame_refl].
  destruct (row !! "referred_users") as [[]|];
    try apply ledger_frame_refl;
    apply update_referral_row_frame, singleton_counts; by left.
Qed.

Lemma add_user_to_referral_frame E phone code w :
  ∃ w', _add_user_to_referral E phone code w = (Ok (), w') ∧
        ledger_frame w w'.
Proof.
  unfold _add_user_to_referral, try_except. rewrite bind_run, now_run.
  pose proof (add_referred_user_frame code
                {| phone_number := phone;
                   user_time_stamp := clock E (length (trace w)) |} w) as H.
  destruct (add_referred_user _ _ w) as [[[]|e] w']; by exists w'.
Qed.

Lemma update_referral_frame code w :
  ledger_frame w (update_referral code w).2.
Proof.
  unfold update_referral. rewrite bind_run.
  unfold get_referral_by_code, read.
  destruct (match code with Some c => _ | None => None end) as [row|];
    [| apply ledger_frame_refl].
  destruct (row !! "total_points") as [v|]; [| apply ledger_frame_refl].
  rewrite bind_run. unfold lift.
  destruct (add_one v) as [points|]; [| apply ledger_frame_refl].
  apply update_referral_row_frame, singleton_counts; by right.
Qed.

(** What one run of [_increment_referral_count] can do, whatever the
    store holds. *)
Lemma increment_referral_count_frame E code phone send_message w :
  ∃ w' sent,
    _increment_referral_count E code phone send_message w = (Ok (), w') ∧
    customers w' = customers w ∧ chats w' = chats w ∧
    counts_only (referrals w) (referrals w') ∧
    trace w' = trace w ++ sent ∧
    (sent = [] ∨ ∃ to, sent = [Send to incremented_notice]).
Proof.
  assert (Hdone : ∀ w', ledger_frame w w' →
    ∃ w'' sent,
      (Ok (), w') = (Ok (), w'') ∧
      customers w'' = customers w ∧ chats w'' = chats w ∧
      counts_only (referrals w) (referrals w'') ∧
      trace w'' = trace w ++ sent ∧
      (sent = [] ∨ ∃ to, sent = [Send to incremented_notice])).
  { intros w' [H1 [H2 [H3 H4]]]. exists w', [].
    rewrite app_nil_r. repeat split; auto. }
  unfold _increment_referral_count, try_except. rewrite bind_run.
  destruct (add_user_to_referral_frame E phone code w) as [w1 [-> Hw1]].
  rewrite bind_run. unfold get_referral_by_code at 1, read at 1.
  destruct (match code with Some c => _ | None => None end) as [row|];
    [| by apply Hdone].
  destruct (truthy (PDict row)); [| by apply Hdone].
  rewrite bind_run. unfold lift at 1.
  destruct (add_one _) as [v|]; [| by apply Hdone].
  rewrite bind_run.
  pose proof (update_referral_frame code w1) as Hw2.
  destruct (update_referral code w1) as [[[]|e] w2]; simpl in Hw2;
    pose proof (ledger_frame_trans _ _ _ Hw1 Hw2) as Hw; [| by apply Hdone].
  destruct (send_message && truthy (get row "referrer_phone"));
    [| by apply Hdone].
  destruct Hw as [H1 [H2 [H3 H4]]].
  exists (emit (Send (get row "referrer_phone") incremented_notice) w2),
         [Send (get row "referrer_phone") incremented_notice].
  repeat split; auto; [simpl; by rewrite H3 | right; by eexists].
Qed.

Lemma counts_only_lookup t t' i row :
  counts_only t t' → t !! i = Some row →
  ∃ row', t' !! i = Some row' ∧
          ∀ k, k ≠ "referred_users" → k ≠ "total_points" →
               row' !! k = row !! k.
Proof.
  intros Ht Hi. destruct (Forall2_lookup_l _ _ _ _ _ Ht Hi) as [row' [H1 H2]].
  by exists row'.
Qed.

(** X5: whatever the store holds and whatever the code is,
    [_increment_referral_count] ends normally, leaves the customers and
    the chat logs alone, adds and removes no referral record, changes no
    field of any record other than [referred_users] and [total_points],
    and adds to the trace nothing or the one notice to the referrer. *)
Theorem crediting_touches_only_counts (E : env) (code : option (list N))
  (phone : list N) (send_message : bool) (w : world) :
  let out := _increment_referral_count E code phone send_message w in
  out.1 = Ok () ∧
  customers out.2 = customers w ∧ chats out.2 = chats w ∧
  length (referrals out.2) = length (referrals w) ∧
  (∀ i row,
     referrals w !! i = Some row →
     ∃ row',
       referrals out.2 !! i = Some row' ∧
       ∀ k, k ≠ "referred_users" → k ≠ "total_points" →
            row' !! k = row !! k) ∧
  (trace out.2 = trace w ∨
   ∃ to, trace out.2 = trace w ++ [Send to incremented_notice]).
Proof.
  intros out. subst out.
  destruct (increment_referral_count_frame E code phone send_message w)
    as [w' [sent [-> [H1 [H2 [H3 [H4 H5]]]]]]].
  cbn [fst snd]. repeat split; auto.
  - symmetry. by eapply Forall2_length.
  - intros i row. by apply counts_only_lookup.
  - destruct H5 as [-> | [to ->]]; [left; by rewrite H4, app_nil_r |].
    right. by exists to.
Qed.

(** ** The referral workflow *)

Lemma issue_referral_code_run E phone campaign ctx w :
  issue_referral_code E phone campaign ctx w =
  (Ok (Some (_static_message E (generated_code E w))),
   match referrer_fields ctx with
   | Ok (n, e) =>
       set_referrals
         (referrals w
          ++ [first_referral phone (generated_code E w) campaign n e]) w
   | Raise _ => w
   end).
Proof.
  unfold issue_referral_code, referrer_fields.
  cbv [mbind M_bind mret M_ret read _generate_referral_code add_referral
       modify generated_code first_referral].
  match goal with
  | |- context [match ?f with Ok _ => _ | Raise _ => _ end] =>
      destruct f as [[n e]|]
  end; reflexivity.
Qed.

Lemma invitation_for_run E phone campaign ctx w :
  invitation_for E phone campaign ctx w =
  match head (select_eq "referrer_phone" phone (referrals w)) with
  | Some row =>
      if truthy (PDict row)
      then match row !! "referral_code" with
           | Some v => (Ok (Some (_static_message E (formatted E v))), w)
           | None => (Ok None, w)
           end
      else issue_referral_code E phone campaign ctx w
  | None => issue_referral_code E phone campaign ctx w
  end.
Proof.
  unfold invitation_for, try_except. rewrite bind_run.
  unfold get_referral_by_phone_number, read.
  destruct (head _) as [row|]; [| by rewrite issue_referral_code_run].
  destruct (truthy (PDict row)); [| by rewrite issue_referral_code_run].
  by destruct (row !! "referral_code").
Qed.

(** [referral_workflow] is the crediting of the code, when the check does
    not report it as credited, followed by the invitation. *)
Lemma referral_workflow_split E text phone ctx w credited :
  _check_existing_referral phone (_extract_codes text).2 w
  = (Ok credited, w) →
  referral_workflow E text phone ctx w =
  invitation_for E phone (_extract_codes text).1 ctx
    (if credited then w
     else (_increment_referral_count E (_extract_codes text).2 phone true w).2).
Proof.
  intros Hcheck. unfold referral_workflow, invitation_for, try_except.
  destruct (_extract_codes text) as [campaign code]. cbn [fst snd] in *.
  rewrite bind_run, Hcheck. destruct credited.
  - rewrite bind_run. reflexivity.
  - rewrite bind_run.
    destruct (increment_referral_count_frame E code phone true w)
      as [w' [sent [-> _]]].
    reflexivity.
Qed.

(** X2: [referral_workflow] never raises and writes to neither the
    customers nor the chat logs; every reply it gives is an invitation
    built by [_static_message], and it gives no reply only when the
    sender's own stored referral record has no [referral_code] field. *)
Theorem referral_workflow_always_answers (E : env) (text phone : list N)
  (ctx : option GlobalContext) (w : world) :
  ∃ reply w',
    referral_workflow E text phone ctx w = (Ok reply, w') ∧
    customers w' = customers w ∧ chats w' = chats w ∧
    (∀ m, reply = Some m → ∃ code, m = _static_message E code) ∧
    (reply = None →
     ∃ row, head (select_eq "referrer_phone" phone (referrals w')) = Some row ∧
            row !! "referral_code" = None).
Proof.
  destruct (check_existing_total phone (_extract_codes text).2 w)
    as [credited Hcheck].
  rewrite (referral_workflow_split _ _ _ _ _ _ Hcheck).
  set (w1 := if credited then w
             else (_increment_referral_count E (_extract_codes text).2 phone
                     true w).2).
  assert (Hw1 : customers w1 = customers w ∧ chats w1 = chats w).
  { subst w1. destruct credited; [done |].
    destruct (increment_referral_count_frame E (_extract_codes text).2 phone
                true w) as [w' [sent [-> [H1 [H2 _]]]]]. done. }
  destruct Hw1 as [Hc Hh].
  assert (Hissue : ∃ reply w',
    issue_referral_code E phone (_extract_codes text).1 ctx w1 = (Ok reply, w') ∧
    customers w' = customers w ∧ chats w' = chats w ∧
    (∀ m, reply = Some m → ∃ code, m = _static_message E code) ∧
    (reply = None →
     ∃ row, head (select_eq "referrer_phone" phone (referrals w')) = Some row ∧
            row !! "referral_code" = None)).
  { rewrite issue_referral_code_run. eexists _, _. split; [done |].
    split; [by destruct (referrer_fields ctx) as [[n e]|] |].
    split; [by destruct (referrer_fields ctx) as [[n e]|] |].
    split; [| done]. intros m [= <-]. by eexists. }
  rewrite invitation_for_run.
  destruct (head (select_eq "referrer_phone" phone (referrals w1)))
    as [row|] eqn:Hrow; [| done].
  destruct (truthy (PDict row)); [| done].
  destruct (row !! "referral_code") as [v|] eqn:Hv.
  - eexists _, _. split; [done |]. repeat split; [done | done | | done].
    intros m [= <-]. by eexists.
  - eexists _, _. split; [done |]. repeat split; [done | done | done |].
    intros _. by exists row.
Qed.

(** X3: for a sender who already has a referral record,
    [referral_workflow] answers with the invitation of the stored code,
    whatever the message says, and adds no record: the referral table
    keeps its length and the sender's record keeps its code. *)
Theorem known_sender_keeps_code (E : env) (text phone : list N)
  (ctx : option GlobalContext) (w : world) (row : gmap string pyval)
  (v : pyval) :
  head (select_eq "referrer_phone" phone (referrals w)) = Some row →
  row !! "referral_code" = Some v →
  let out := referral_workflow E text phone ctx w in
  out.1 = Ok (Some (_static_message E (formatted E v))) ∧
  length (referrals out.2) = length (referrals w) ∧
  ∃ row',
    head (select_eq "referrer_phone" phone (referrals out.2)) = Some row' ∧
    row' !! "referral_code" = Some v.
Proof.
  intros Hrow Hv out. subst out.
  destruct (check_existing_total phone (_extract_codes text).2 w)
    as [credited Hcheck].
  rewrite (referral_workflow_split _ _ _ _ _ _ Hcheck).
  set (w1 := if credited then w
             else (_increment_referral_count E (_extract_codes text).2 phone
                     true w).2).
  assert (Hw1 : counts_only (referrals w) (referrals w1)).
  { subst w1. destruct credited; [apply counts_only_refl |].
    destruct (increment_referral_count_frame E (_extract_codes text).2 phone
                true w) as [w' [sent [-> [_ [_ [H _]]]]]]. done. }
  destruct (counts_only_head "referrer_phone" phone _ _ row
              ltac:(done) ltac:(done) Hw1 Hrow) as [row1 [Hrow1 Hsame]].
  assert (Hv1 : row1 !! "referral_code" = Some v).
  { by rewrite Hsame. }
  rewrite invitation_for_run, Hrow1, (truthy_dict _ _ _ Hv1), Hv1.
  cbn [fst snd]. split; [done |]. split; [| by exists row1].
  symmetry. by eapply Forall2_length.
Qed.

(** X4: for a sender without a referral record whose name and email
    pass [ReferralSchema], [referral_workflow] appends exactly one record
    to the referral table (after the crediting, which changes counts
    only): zero points, an empty referred-user list, the sender as
    referrer, the generated code; it is the record
    [get_referral_by_phone_number] finds afterwards, and the reply is the
    invitation of that code. *)
Theorem new_sender_gets_one_record (E : env) (text phone : list N)
  (ctx : option GlobalContext) (w : world) (n e : option (list N)) :
  head (select_eq "referrer_phone" phone (referrals w)) = None →
  referrer_fields ctx = Ok (n, e) →
  let out := referral_workflow E text phone ctx w in
  ∃ code credited,
    let record := first_referral phone code (_extract_codes text).1 n e in
    out.1 = Ok (Some (_static_message E code)) ∧
    referrals out.2 = credited ++ [record] ∧
    counts_only (referrals w) credited ∧
    head (select_eq "referrer_phone" phone (referrals out.2)) = Some record ∧
    record !! "referral_code" = Some (PStr code) ∧
    record !! "total_points" = Some (PInt 0) ∧
    record !! "referred_users" = Some (PList []).
Proof.
  intros Hnone Hfields out. subst out.
  destruct (check_existing_total phone (_extract_codes text).2 w)
    as [credited Hcheck].
  rewrite (referral_workflow_split _ _ _ _ _ _ Hcheck).
  set (w1 := if credited then w
             else (_increment_referral_count E (_extract_codes text).2 phone
                     true w).2).
  assert (Hw1 : counts_only (referrals w) (referrals w1)).
  { subst w1. destruct credited; [apply counts_only_refl |].
    destruct (increment_referral_count_frame E (_extract_codes text).2 phone
                true w) as [w' [sent [-> [_ [_ [H _]]]]]]. done. }
  pose proof (counts_only_head_None "referrer_phone" phone _ _
                ltac:(done) ltac:(done) Hw1 Hnone) as Hnone1.
  rewrite invitation_for_run, Hnone1, issue_referral_code_run, Hfields.
  exists (generated_code E w1), (referrals w1). cbn [fst snd referrals set_referrals].
  repeat split; try done.
  unfold select_eq. rewrite List.filter_app.
  apply head_select_None in Hnone1. unfold select_eq in Hnone1.
  rewrite Hnone1. cbn [app List.filter].
  assert (eq_col "referrer_phone" phone
            (first_referral phone (generated_code E w1)
               (_extract_codes text).1 n e) = true) as ->; [| done].
  unfold eq_col, get, first_referral, referral_dict. cbn [referrer_phone opt_str].
  rewrite lookup_insert_ne by done. rewrite lookup_insert_ne by done.
  rewrite lookup_insert_ne by done. rewrite lookup_insert_ne by done.
  rewrite lookup_insert_eq. cbn. by rewrite bool_decide_eq_true_2.
Qed.

Lemma invitation_keeps_record E phone campaign ctx code w row :
  stored_referral code w = Some row →
  stored_referral code (invitation_for E phone campaign ctx w).2 = Some row.
Proof.
  intros Hrow.
  assert (Hissue :
    stored_referral code (issue_referral_code E phone campaign ctx w).2
    = Some row).
  { rewrite issue_referral_code_run. cbn [snd].
    destruct (referrer_fields ctx) as [[n e]|]; [| done].
    unfold stored_referral, select_eq in *.
    cbn [referrals set_referrals]. rewrite List.filter_app.
    by destruct (List.filter _ (referrals w)). }
  rewrite invitation_for_run.
  destruct (head (select_eq "referrer_phone" phone (referrals w)))
    as [mine|]; [| done].
  destruct (truthy (PDict mine)); [| done].
  by destruct (mine !! "referral_code").
Qed.

(** X6: when a message carries the code of a record that conforms to
    [ReferralSchema] and the check reports the sender as not credited,
    the first run of [referral_workflow] raises the stored point total by
    one and a second run with the same message and sender leaves it
    there.  The sender may be any phone number, the referrer's own
    included. *)
Theorem workflow_credits_once (E : env) (text phone : list N)
  (ctx : option GlobalContext) (w : world) (campaign : option (list N))
  (code : list N) (row : gmap string pyval) :
  _extract_codes text = (campaign, Some code) →
  stored_referral code w = Some row →
  referral_valid row = true →
  _check_existing_referral phone (Some code) w = (Ok false, w) →
  let w1 := (referral_workflow E text phone ctx w).2 in
  let w2 := (referral_workflow E text phone ctx w1).2 in
  ∃ n,
    stored_points code w = Some (PInt n) ∧
    stored_points code w1 = Some (PInt (n + 1)) ∧
    stored_points code w2 = Some (PInt (n + 1)) ∧
    stored_referral code w2 = stored_referral code w1.
Proof.
  intros Hcodes Hrow Hvalid Hcheck w1 w2.
  apply referral_valid_spec in Hvalid as [[n Hpoints] [[users [Husers _]] _]].
  destruct (increment_referral_count_run E code phone true w row users n
              Hrow Husers Hpoints)
    as [_ [row' [Hrow' [Husers' [Hpoints' _]]]]].
  assert (Hw1 : stored_referral code w1 = Some row').
  { subst w1. rewrite (referral_workflow_split _ _ _ _ _ false);
      rewrite Hcodes; [| done].
    by apply invitation_keeps_record. }
  assert (Hcheck1 : _check_existing_referral phone (Some code) w1
                    = (Ok true, w1)).
  { eapply check_listed; [done | done | |].
    - apply elem_of_app. right. apply list_elem_of_singleton. reflexivity.
    - apply lookup_insert_eq. }
  assert (Hw2 : stored_referral code w2 = Some row').
  { subst w2. rewrite (referral_workflow_split _ _ _ _ _ true);
      rewrite Hcodes; [| done].
    by apply invitation_keeps_record. }
  exists n. unfold stored_points. rewrite Hrow, Hw1, Hw2.
  by repeat split.
Qed.

(** The trace of one run of [_increment_referral_count] on a record whose
    list is a list and whose point total is an integer. *)
Lemma increment_referral_count_trace (E : env) (code phone : list N)
  (send_message : bool) (w : world) (row : gmap string pyval)
  (users : list pyval) (n : Z) :
  stored_referral code w = Some row →
  row !! "referred_users" = Some (PList users) →
  row !! "total_points" = Some (PInt n) →
  trace (_increment_referral_count E (Some code) phone send_message w).2
  = trace w ++
    (if send_message && truthy (get row "referrer_phone")
     then [Send (get row "referrer_phone") incremented_notice]
     else []).
Proof.
  intros Hrow Husers Hpoints.
  set (entry := referred_user_dict
                  {| phone_number := phone;
                     user_time_stamp := clock E (length (trace w)) |}).
  set (p1 := ({[ "referred_users" := PList (users ++ [entry]) ]}
              : gmap string pyval)).
  set (p2 := ({[ "total_points" := PInt (n + 1) ]} : gmap string pyval)).
  set (w1 := set_referrals (update_eq "referral_code" code p1 (referrals w)) w).
  set (w2 := set_referrals
               (update_eq "referral_code" code p2 (referrals w1)) w1).
  assert (Hadd : _add_user_to_referral E phone (Some code) w = (Ok (), w1)).
  { unfold _add_user_to_referral, try_except, add_referred_user.
    rewrite bind_run, now_run, bind_run, get_referral_by_code_run, Hrow.
    by rewrite Husers. }
  assert (Hrow1 : stored_referral code w1 = Some (p1 ∪ row)).
  { unfold stored_referral, w1. simpl.
    rewrite head_select_update by done. unfold stored_referral in Hrow.
    rewrite Hrow. reflexivity. }
  assert (Hpoints1 : (p1 ∪ row) !! "total_points" = Some (PInt n)).
  { by rewrite lookup_union_r. }
  assert (Hupd : update_referral (Some code) w1 = (Ok (), w2)).
  { unfold update_referral.
    rewrite bind_run, get_referral_by_code_run, Hrow1, Hpoints1.
    reflexivity. }
  assert (Hphone : get (p1 ∪ row) "referrer_phone" = get row "referrer_phone").
  { unfold get. by rewrite lookup_union_r. }
  unfold _increment_referral_count, try_except.
  rewrite bind_run, Hadd, bind_run, get_referral_by_code_run, Hrow1.
  rewrite (truthy_dict _ _ _ Hpoints1), bind_run, Hpoints1.
  cbn [default from_option id lift add_one]. rewrite bind_run, Hupd, Hphone.
  destruct (send_message && truthy (get row "referrer_phone"));
    [reflexivity | by rewrite app_nil_r].
Qed.

(** X7: one run of [_increment_referral_count] on a record that
    conforms to [ReferralSchema] sends exactly one WhatsApp message, the
    notice, to the record's [referrer_phone] when [send_message] is set
    and that field is not empty, and sends nothing otherwise. *)
Theorem referrer_is_notified (E : env) (code phone : list N)
  (send_message : bool) (w : world) (row : gmap string pyval) :
  stored_referral code w = Some row →
  referral_valid row = true →
  let w' := (_increment_referral_count E (Some code) phone send_message w).2 in
  trace w' = trace w ++
    (if send_message && truthy (get row "referrer_phone")
     then [Send (get row "referrer_phone") incremented_notice]
     else []) ∧
  sends (trace w')
  = (sends (trace w) +
     if send_message && truthy (get row "referrer_phone") then 1 else 0)%nat.
Proof.
  intros Hrow Hvalid w'.
  apply referral_valid_spec in Hvalid as [[n Hpoints] [[users [Husers _]] _]].
  assert (Ht := increment_referral_count_trace E code phone send_message w
                  row users n Hrow Husers Hpoints).
  split; [exact Ht |]. subst w'. rewrite Ht. unfold sends.
  rewrite List.filter_app, length_app.
  by destruct (send_message && truthy (get row "referrer_phone")).
Qed.

(** ** The customer store, continued *)

Lemma stored_customer_updated phone payload w :
  payload !! "phone_number" = None →
  stored_customer phone
    (set_customers (update_eq "phone_number" phone payload (customers w)) w)
  = (λ row, payload ∪ row) <$> stored_customer phone w.
Proof. intros Hp. unfold stored_customer. simpl. by apply head_select_update. Qed.

Lemma update_eq_other col v payload table i row :
  table !! i = Some row → eq_col col v row = false →
  update_eq col v payload table !! i = Some row.
Proof.
  intros Hi Hrow. unfold update_eq. rewrite list_lookup_fmap, Hi. simpl.
  by rewrite Hrow.
Qed.

Lemma update_eq_lookup col v payload table i row :
  table !! i = Some row →
  ∃ row', update_eq col v payload table !! i = Some row' ∧
          ∀ k, payload !! k = None → row' !! k = row !! k.
Proof.
  intros Hi. unfold update_eq. rewrite list_lookup_fmap, Hi. simpl.
  eexists. split; [done |]. intros k Hk.
  destruct (eq_col col v row); [by apply lookup_union_r | done].
Qed.

Lemma update_escalation_status_run phone status w :
  update_escalation_status phone status w =
  (Ok (match stored_customer phone w with Some _ => true | None => false end),
   set_customers
     (update_eq "phone_number" phone {[ "escalation_status" := PBool status ]}
        (customers w)) w).
Proof.
  unfold update_escalation_status, stored_customer, updated_rows.
  cbv [mbind M_bind mret M_ret read modify].
  by destruct (select_eq "phone_number" phone (customers w)).
Qed.

(** X8: [update_escalation_status] returns [True] exactly when the
    phone number has a stored customer; [is_escalated] then gives the
    status that was written (and [False] for an unknown phone number);
    the table keeps its length, no field other than [escalation_status]
    changes, the rows of other phone numbers are untouched, and nothing
    outside the customer table is written. *)
Theorem escalation_status_round_trip (phone : list N) (status : bool)
  (w : world) :
  let out := update_escalation_status phone status w in
  out.1 = Ok (match stored_customer phone w with
              | Some _ => true
              | None => false
              end) ∧
  (is_escalated phone out.2).1
  = Ok (match stored_customer phone w with
        | Some _ => status
        | None => false
        end) ∧
  length (customers out.2) = length (customers w) ∧
  (∀ i row,
     customers w !! i = Some row →
     ∃ row',
       customers out.2 !! i = Some row' ∧
       (∀ k, k ≠ "escalation_status" → row' !! k = row !! k) ∧
       (eq_col "phone_number" phone row = false → row' = row)) ∧
  trace out.2 = trace w ∧ chats out.2 = chats w ∧
  referrals out.2 = referrals w.
Proof.
  intros out. subst out. rewrite update_escalation_status_run. cbn [fst snd].
  split; [done |]. split; [| split; [| split; [| done]]].
  - rewrite is_escalated_run, stored_customer_updated by done. cbn [fst].
    destruct (stored_customer phone w) as [row|]; [| done]. simpl.
    unfold get. rewrite lookup_union_l', lookup_singleton_eq; [done |].
    by rewrite lookup_singleton_eq.
  - simpl. unfold update_eq. by rewrite length_fmap.
  - intros i row Hi. simpl.
    destruct (update_eq_lookup "phone_number" phone
                {[ "escalation_status" := PBool status ]} _ _ _ Hi)
      as [row' [H1 H2]].
    exists row'. split; [done |]. split.
    + intros k Hk. apply H2. by apply lookup_singleton_ne.
    + intros Hother.
      rewrite (update_eq_other _ _ _ _ _ _ Hi Hother) in H1. congruence.
Qed.

(** ** Deleting a customer *)

Lemma select_delete_same col v table :
  select_eq col v (delete_eq col v table) = [].
Proof.
  unfold select_eq, delete_eq. induction table as [|row table IH]; [done |].
  simpl. destruct (eq_col col v row) eqn:Hrow; simpl; [done |].
  by rewrite Hrow.
Qed.

Lemma select_delete_other col v v' table :
  v' ≠ v →
  select_eq col v' (delete_eq col v table) = select_eq col v' table.
Proof.
  intros Hne. unfold select_eq, delete_eq.
  induction table as [|row table IH]; [done |].
  simpl. destruct (eq_col col v row) eqn:Hrow; simpl.
  - assert (eq_col col v' row = false) as ->; [| done].
    unfold eq_col, eq_str in *. destruct (get row col); try done.
    apply bool_decide_eq_true in Hrow as ->. by apply bool_decide_eq_false_2.
  - rewrite IH. done.
Qed.

Lemma delete_eq_absent col v table :
  select_eq col v table = [] → delete_eq col v table = table.
Proof.
  unfold select_eq, delete_eq. induction table as [|row table IH]; [done |].
  simpl. destruct (eq_col col v row); simpl; [done |].
  intros H. by rewrite IH.
Qed.

Lemma select_delete_length col v table :
  (length (select_eq col v table) + length (delete_eq col v table)
   = length table)%nat.
Proof.
  unfold select_eq, delete_eq. induction table as [|row table IH]; [done |].
  simpl. destruct (eq_col col v row); simpl; lia.
Qed.

(** X9: [delete_customer] returns the rows of the phone number and
    removes them all: afterwards [get_customer_by_phone] finds nobody and
    [is_escalated] is [False]; the lookups of every other phone number
    are unchanged, returned and kept rows add up to the table, and
    deleting a customer that was just added to a store without that phone
    number gives the table back. *)
Theorem delete_customer_removes (E : env) (phone : list N) (w : world) :
  let out := delete_customer phone w in
  out.1 = Ok (PList (PDict <$> select_eq "phone_number" phone (customers w))) ∧
  get_customer_by_phone E phone out.2 = (Ok None, out.2) ∧
  is_escalated phone out.2 = (Ok false, out.2) ∧
  (∀ other, other ≠ phone →
            stored_customer other out.2 = stored_customer other w) ∧
  (length (select_eq "phone_number" phone (customers w))
   + length (customers out.2) = length (customers w))%nat ∧
  (∀ fields,
     stored_customer phone w = None →
     fields !! "phone_number" = Some (PStr phone) →
     customers (delete_customer phone (add_customer fields w).2).2
     = customers w).
Proof.
  intros out. subst out. unfold delete_customer.
  cbv [mbind M_bind mret M_ret read modify]. cbn [fst snd].
  assert (Hnone : ∀ t, stored_customer phone
                    (set_customers (delete_eq "phone_number" phone t) w)
                  = None).
  { intros t. unfold stored_customer. simpl. by rewrite select_delete_same. }
  split; [done |]. split; [| split; [| split; [| split]]].
  - by rewrite get_customer_by_phone_run, Hnone.
  - by rewrite is_escalated_run, Hnone.
  - intros other Hother. unfold stored_customer. simpl.
    by rewrite select_delete_other.
  - simpl. apply select_delete_length.
  - intros fields Hw Hfields. simpl. unfold delete_eq.
    rewrite List.filter_app. simpl.
    assert (eq_col "phone_number" phone fields = true) as ->.
    { unfold eq_col, get. rewrite Hfields. simpl.
      by apply bool_decide_eq_true_2. }
    simpl. rewrite app_nil_r. apply delete_eq_absent.
    by apply head_select_None.
Qed.

(** ** Resolution of the customer, continued *)

(** A stored record that validates and is complete, or that QuickBooks
    does not know, is returned as it is. *)
Lemma resolve_existing_run E phone w row :
  stored_customer phone w = Some row →
  schema_ok E row = true →
  incomplete (Some row) = false ∨ quickbook E phone = Ok None →
  _get_or_create_customer E phone w = (Ok row, w).
Proof.
  intros Hrow Hok Hcase. unfold _get_or_create_customer.
  rewrite bind_run, get_customer_by_phone_run, Hrow, Hok.
  destruct (incomplete (Some row)) eqn:Hinc.
  - destruct Hcase as [? | Hqb]; [done |].
    rewrite !bind_run. unfold lift at 1. rewrite Hqb.
    unfold mret, M_ret, lift, model_validate, CustomerSchema. by rewrite Hok.
  - rewrite bind_run.
    unfold mret, M_ret, lift, model_validate, CustomerSchema. by rewrite Hok.
Qed.

(** A resolution that returns a customer for a phone number with a stored
    record returns that record and writes nothing. *)
Lemma resolve_existing E phone w row c w1 :
  stored_customer phone w = Some row →
  _get_or_create_customer E phone w = (Ok c, w1) →
  c = row ∧ w1 = w.
Proof.
  intros Hrow. unfold _get_or_create_customer.
  rewrite bind_run, get_customer_by_phone_run, Hrow.
  destruct (schema_ok E row) eqn:Hok; [| done].
  destruct (incomplete (Some row)).
  - rewrite !bind_run. unfold lift at 1.
    destruct (quickbook E phone) as [[qb|]|]; [| | done].
    + by rewrite update_customer_run.
    + unfold mret, M_ret, lift, model_validate, CustomerSchema. rewrite Hok.
      by intros [= <- <-].
  - rewrite bind_run.
    unfold mret, M_ret, lift, model_validate, CustomerSchema. rewrite Hok.
    by intros [= <- <-].
Qed.

Lemma stored_customer_inbound E phone raw is_voice w other :
  stored_customer other (inbound_logged E phone raw is_voice w)
  = stored_customer other w.
Proof. reflexivity. Qed.

Lemma update_eq_absent col v payload table :
  select_eq col v table = [] → update_eq col v payload table = table.
Proof.
  unfold select_eq, update_eq. induction table as [|row table IH]; [done |].
  rewrite fmap_cons. cbn [List.filter].
  destruct (eq_col col v row); [done |].
  intros H. f_equal. by apply IH.
Qed.

(** With the flag set on the stored record, the workflow ends after the
    inbound message is logged and broadcast, whatever the resolution
    does. *)
Lemma escalated_store_silent E data is_voice w raw phone row :
  receive E data is_voice = Some (raw, phone) →
  stored_customer phone w = Some row →
  truthy (get row "escalation_status") = true →
  ∃ w',
    execute_workflow E data is_voice w = (Ok (), w') ∧
    trace w' = trace w ++ [HistoryAppend phone (inbound_entry E raw is_voice w);
                           Broadcast phone (inbound_broadcast E raw w)].
Proof.
  intros Hrecv Hrow Hflag.
  rewrite (execute_workflow_run _ _ _ _ _ _ Hrecv).
  destruct (_get_or_create_customer E phone _) as [[customer|e] w1] eqn:Hres;
    destruct (resolve_outcome _ _ _ _ _ Hres) as [Ht _];
    rewrite inbound_logged_trace in Ht; [| by eexists].
  assert (Hrow1 : stored_customer phone (inbound_logged E phone raw is_voice w)
                  = Some row) by exact Hrow.
  destruct (resolve_existing _ _ _ _ _ _ Hrow1 Hres) as [-> ->].
  unfold try_except. rewrite bind_run, is_escalated_run.
  rewrite stored_customer_inbound, Hrow, Hflag. by eexists.
Qed.

(** X10: when the stored record of the sender has the escalation
    flag set, [execute_workflow] ends normally with the inbound message
    logged and broadcast and nothing else, whatever QuickBooks, Shopify,
    the router and the agents do: no WhatsApp send and no agent run. *)
Theorem escalated_record_gets_no_reply (E : env) (data : pyval)
  (is_voice : bool) (w : world) (raw phone : list N)
  (row : gmap string pyval) :
  receive E data is_voice = Some (raw, phone) →
  stored_customer phone w = Some row →
  truthy (get row "escalation_status") = true →
  let out := execute_workflow E data is_voice w in
  out.1 = Ok () ∧
  trace out.2
  = trace w ++ [HistoryAppend phone (inbound_entry E raw is_voice w);
                Broadcast phone (inbound_broadcast E raw w)] ∧
  sends (trace out.2) = sends (trace w) ∧
  agent_runs (trace out.2) = agent_runs (trace w).
Proof.
  intros Hrecv Hrow Hflag out. subst out.
  destruct (escalated_store_silent _ _ _ _ _ _ _ Hrecv Hrow Hflag)
    as [w' [-> Ht]].
  cbn [fst snd]. split; [done |]. split; [done |]. rewrite Ht.
  destruct (inbound_counts (trace w) phone (inbound_entry E raw is_voice w)
              phone (inbound_broadcast E raw w)) as [_ [H2 H3]].
  by split.
Qed.

(** X11: [escalate_to_human_support_tool] reports ["escalated"] for
    a phone number with a stored customer and sets the flag
    [is_escalated] reads, so that the next inbound message of that phone
    number gets no reply and starts no agent; for an unknown phone number
    it reports the failure and changes nothing. *)
Theorem escalation_tool_silences_bot (E : env) (data : pyval)
  (is_voice : bool) (w : world) (raw phone : list N) :
  receive E data is_voice = Some (raw, phone) →
  let tool := escalate_to_human_support_tool phone w in
  let out := execute_workflow E data is_voice tool.2 in
  (∀ row,
     stored_customer phone w = Some row →
     tool.1 = Ok (lit "escalated") ∧
     is_escalated phone tool.2 = (Ok true, tool.2) ∧
     out.1 = Ok () ∧
     sends (trace out.2) = sends (trace w) ∧
     agent_runs (trace out.2) = agent_runs (trace w)) ∧
  (stored_customer phone w = None →
   tool = (Ok (lit "Sorry, we couldn't escalate your issue."), w)).
Proof.
  intros Hrecv tool out. subst out tool.
  unfold escalate_to_human_support_tool.
  rewrite bind_run, update_escalation_status_run. split.
  - intros row Hrow. rewrite Hrow. cbn [mret M_ret fst snd].
    set (w1 := set_customers _ w).
    assert (Hrow1 : stored_customer phone w1
                    = Some ({[ "escalation_status" := PBool true ]} ∪ row)).
    { subst w1. rewrite stored_customer_updated by done. by rewrite Hrow. }
    assert (Hflag : truthy (get ({[ "escalation_status" := PBool true ]} ∪ row)
                              "escalation_status") = true).
    { unfold get. by rewrite (lookup_union_Some_l _ _ _ (PBool true))
                     by apply lookup_singleton_eq. }
    split; [done |]. split; [by rewrite is_escalated_run, Hrow1, Hflag |].
    destruct (escalated_store_silent _ _ _ _ _ _ _ Hrecv Hrow1 Hflag)
      as [w' [-> Ht]].
    cbn [fst snd]. split; [done |]. rewrite Ht.
    destruct (inbound_counts (trace w1) phone
                (inbound_entry E raw is_voice w1) phone
                (inbound_broadcast E raw w1)) as [_ [H2 H3]].
    by split.
  - intros Hnone. rewrite Hnone. cbn [mret M_ret].
    rewrite update_eq_absent by (by apply head_select_None).
    by destruct w.
Qed.

(** X12: for a stored record that validates and is complete, or
    that is incomplete while QuickBooks has no match,
    [_get_or_create_customer] returns the record as stored and writes
    nothing; Shopify plays no part. *)
Theorem complete_record_is_returned_as_stored (E : env) (phone : list N)
  (w : world) (row : gmap string pyval) :
  stored_customer phone w = Some row →
  schema_ok E row = true →
  incomplete (Some row) = false ∨ quickbook E phone = Ok None →
  _get_or_create_customer E phone w = (Ok row, w).
Proof. exact (resolve_existing_run E phone w row). Qed.

(** X13: when the sender is unknown or the stored record is
    incomplete and the QuickBooks lookup raises, [_get_or_create_customer]
    raises the same exception without writing, and [execute_workflow]
    ends normally with only the inbound message logged and broadcast:
    the customer table is unchanged and nothing is sent. *)
Theorem quickbooks_failure_drops_message (E : env) (data : pyval)
  (is_voice : bool) (w : world) (raw phone : list N) (e : exn) :
  receive E data is_voice = Some (raw, phone) →
  incomplete (stored_customer phone w) = true →
  (∀ row, stored_customer phone w = Some row → schema_ok E row = true) →
  quickbook E phone = Raise e →
  _get_or_create_customer E phone w = (Raise e, w) ∧
  execute_workflow E data is_voice w
  = (Ok (), inbound_logged E phone raw is_voice w) ∧
  customers (execute_workflow E data is_voice w).2 = customers w ∧
  sends (trace (execute_workflow E data is_voice w).2) = sends (trace w).
Proof.
  intros Hrecv Hinc Hok Hqb.
  assert (Hres : ∀ w0, stored_customer phone w0 = stored_customer phone w →
                       _get_or_create_customer E phone w0 = (Raise e, w0)).
  { intros w0 Hw0. unfold _get_or_create_customer.
    rewrite bind_run, get_customer_by_phone_run, Hw0.
    destruct (stored_customer phone w) as [row|] eqn:Hrow.
    - rewrite (Hok row eq_refl), Hinc, !bind_run. unfold lift at 1.
      by rewrite Hqb.
    - cbn [incomplete]. rewrite !bind_run. unfold lift at 1. by rewrite Hqb. }
  split; [by apply Hres |].
  assert (Hrun : execute_workflow E data is_voice w
                 = (Ok (), inbound_logged E phone raw is_voice w)).
  { rewrite (execute_workflow_run _ _ _ _ _ _ Hrecv).
    by rewrite (Hres _ (stored_customer_inbound E phone raw is_voice w phone)). }
  rewrite Hrun. split; [done |]. split; [done |]. cbn [snd].
  rewrite inbound_logged_trace. apply inbound_counts.
Qed.

(** X14: for a phone number neither the store nor QuickBooks
    knows, when the Shopify lookup raises, finds nobody, or finds a
    customer whose record cannot be built or does not validate,
    [_get_or_create_customer] stores and returns the minimal record:
    the phone number, active, not escalated, type D2C, spend 0. *)
Theorem unusable_shopify_gives_minimal_record (E : env) (phone : list N)
  (w : world) :
  stored_customer phone w = None →
  quickbook E phone = Ok None →
  (∀ sc fields,
     shopify E phone = Ok (Some sc) → truthy (PDict sc) = true →
     shopify_fields sc phone = Ok fields → schema_ok E fields = false) →
  schema_ok E (minimal_fields phone) = true →
  _get_or_create_customer E phone w
  = (Ok (minimal_fields phone),
     set_customers (customers w ++ [minimal_fields phone]) w).
Proof.
  intros Hnone Hqb Hshop Hok.
  assert (Hmin : create_customer E (minimal_fields phone) w
                 = (Ok (PDict (minimal_fields phone)),
                    set_customers (customers w ++ [minimal_fields phone]) w)).
  { by rewrite create_customer_run, Hok. }
  assert (Hcreate : create_without_quickbooks E phone w
                    = (Ok (PDict (minimal_fields phone)),
                       set_customers (customers w ++ [minimal_fields phone]) w)).
  { unfold create_without_quickbooks, try_except. rewrite bind_run.
    unfold lift at 1.
    destruct (shopify E phone) as [[sc|]|] eqn:Hs; [| by rewrite Hmin | done].
    destruct (truthy (PDict sc)) eqn:Hsc; [| by rewrite Hmin].
    rewrite bind_run. unfold lift at 1.
    destruct (shopify_fields sc phone) as [fields|] eqn:Hf; [| done].
    by rewrite create_customer_run, (Hshop sc fields eq_refl Hsc Hf). }
  unfold _get_or_create_customer.
  rewrite bind_run, get_customer_by_phone_run, Hnone.
  cbn [incomplete]. rewrite bind_run, bind_run. unfold lift at 1.
  rewrite Hqb, Hcreate. unfold lift, model_validate, CustomerSchema.
  by rewrite Hok.
Qed.

(** X15: for a phone number the store does not know and QuickBooks
    does, [_get_or_create_customer] appends and returns a record that
    carries QuickBooks' six fields and the phone number; it has no
    escalation flag, so [is_escalated] is [False] afterwards. *)
Theorem quickbooks_customer_is_created (E : env) (phone : list N) (w : world)
  (qb : gmap string pyval) :
  stored_customer phone w = None →
  quickbook E phone = Ok (Some qb) →
  schema_ok E (quickbook_fields qb phone) = true →
  let fields := quickbook_fields qb phone in
  let out := _get_or_create_customer E phone w in
  out = (Ok fields, set_customers (customers w ++ [fields]) w) ∧
  stored_customer phone out.2 = Some fields ∧
  is_escalated phone out.2 = (Ok false, out.2) ∧
  fields !! "escalation_status" = None ∧
  get fields "phone_number" = PStr phone ∧
  Forall (λ k, get fields k = get qb k)
    ["customer_name"; "email"; "customer_quickbook_id"; "customer_type";
     "company_name"; "is_active"].
Proof.
  intros Hnone Hqb Hok fields out.
  assert (Hout : out = (Ok fields, set_customers (customers w ++ [fields]) w)).
  { subst out. unfold _get_or_create_customer.
    rewrite bind_run, get_customer_by_phone_run, Hnone.
    cbn [incomplete]. rewrite bind_run, bind_run. unfold lift at 1.
    rewrite Hqb, create_customer_run, Hok.
    unfold lift, model_validate, CustomerSchema. by rewrite Hok. }
  assert (Hstored : stored_customer phone out.2 = Some fields).
  { rewrite Hout. by apply stored_customer_inserted. }
  split; [done |]. split; [done |]. split.
  - by rewrite is_escalated_run, Hstored.
  - split; [done |]. split; [done |]. by repeat constructor.
Qed.

(** X16: for a phone number neither the store nor QuickBooks
    knows and Shopify does, [_get_or_create_customer] appends and returns
    a record of type D2C, active, not escalated, with Shopify's display
    name and its total spent, or 0 when that is absent; it is the record
    the store then holds for the phone number. *)
Theorem shopify_customer_is_created (E : env) (phone : list N) (w : world)
  (sc fields : gmap string pyval) :
  stored_customer phone w = None →
  quickbook E phone = Ok None →
  shopify E phone = Ok (Some sc) → truthy (PDict sc) = true →
  shopify_fields sc phone = Ok fields → schema_ok E fields = true →
  let out := _get_or_create_customer E phone w in
  out = (Ok fields, set_customers (customers w ++ [fields]) w) ∧
  stored_customer phone out.2 = Some fields ∧
  is_escalated phone out.2 = (Ok false, out.2) ∧
  get fields "customer_type" = PStr (lit "D2C") ∧
  get fields "total_spend" = or_else (get sc "totalSpent") (PInt 0) ∧
  get fields "customer_name" = get sc "displayName" ∧
  get fields "is_active" = PBool true.
Proof.
  intros Hnone Hqb Hshop Hsc Hfields Hok out.
  destruct (created_from_shopify E phone w sc fields Hnone Hqb Hshop Hsc
              Hfields Hok) as [Hout [Hty Hspend]].
  destruct (shopify_fields_built _ _ _ Hfields)
    as [Hphone [_ [_ [Hactive [Hesc Hname]]]]].
  assert (Hstored : stored_customer phone out.2 = Some fields).
  { subst out. rewrite Hout. by apply stored_customer_inserted. }
  split; [done |]. split; [done |]. split.
  - rewrite is_escalated_run, Hstored. unfold get. by rewrite Hesc.
  - unfold get in *. by rewrite Hname, Hactive.
Qed.

(** ** Resolution never touches another customer *)

Lemma bind_lift_world {A B} (m : M A) (f : A → result B) w :
  ((d ← m; lift (f d)) w).2 = (m w).2.
Proof. rewrite bind_run. by destruct (m w) as [[a|e] w']. Qed.

Lemma created_world E phone w out :
  created E phone w out →
  out.2 = w ∨ ∃ fields, out.2 = set_customers (customers w ++ [fields]) w.
Proof.
  intros [[e ->] | [fields [_ [_ ->]]]]; [by left | right; by eexists].
Qed.

(** X17: [_get_or_create_customer] never changes the record of
    another phone number; it adds at most one row, adds none when the
    phone number already has a record, and writes nothing outside the
    customer table. *)
Theorem resolution_keeps_other_customers (E : env) (phone : list N)
  (w : world) :
  let w' := (_get_or_create_customer E phone w).2 in
  (∀ i row,
     customers w !! i = Some row →
     eq_col "phone_number" phone row = false →
     customers w' !! i = Some row) ∧
  (length (customers w) ≤ length (customers w') ≤ S (length (customers w)))%nat ∧
  (∀ row, stored_customer phone w = Some row →
          length (customers w') = length (customers w)) ∧
  trace w' = trace w ∧ chats w' = chats w ∧ referrals w' = referrals w.
Proof.
  intros w'.
  assert (Hframe : trace w' = trace w ∧ chats w' = chats w ∧
                   referrals w' = referrals w).
  { subst w'.
    destruct (_get_or_create_customer E phone w) as [r w1] eqn:Hres.
    destruct (resolve_outcome _ _ _ _ _ Hres) as [H1 [H2 [H3 _]]]. done. }
  assert (Hshape :
    w' = w ∨
    (∃ payload, stored_customer phone w ≠ None ∧
       w' = set_customers (update_eq "phone_number" phone payload
                             (customers w)) w) ∨
    (∃ fields, stored_customer phone w = None ∧
       w' = set_customers (customers w ++ [fields]) w)).
  { subst w'. unfold _get_or_create_customer.
    rewrite bind_run, get_customer_by_phone_run.
    destruct (stored_customer phone w) as [row|] eqn:Hrow.
    - destruct (schema_ok E row) eqn:Hok; [| by left].
      destruct (incomplete (Some row)).
      + rewrite bind_lift_world, bind_run. unfold lift.
        destruct (quickbook E phone) as [[qb|]|]; cbn beta iota;
          [| by left | by left].
        rewrite update_customer_run. right. left. by eexists.
      + by left.
    - cbn [incomplete]. rewrite bind_lift_world, bind_run. unfold lift.
      destruct (quickbook E phone) as [[qb|]|]; cbn beta iota; [| | by left].
      + destruct (created_world _ _ _ _
                    (create_customer_created E phone _ w
                       (quickbook_fields_phone qb phone)))
          as [-> | [fields ->]]; [by left |].
        right. right. by eexists.
      + destruct (created_world _ _ _ _
                    (create_without_quickbooks_created E phone w))
          as [-> | [fields ->]]; [by left |].
        right. right. by eexists. }
  split; [| split; [| split; [| done]]].
  - intros i row Hi Hother.
    destruct Hshape as [-> | [[payload [_ ->]] | [fields [_ ->]]]]; [done | |].
    + simpl. by apply update_eq_other.
    + simpl. by apply lookup_app_l_Some.
  - destruct Hshape as [-> | [[payload [_ ->]] | [fields [_ ->]]]]; simpl.
    + lia.
    + unfold update_eq. rewrite length_fmap. lia.
    + rewrite length_app. simpl. lia.
  - intros row Hrow.
    destruct Hshape as [-> | [[payload [_ ->]] | [fields [Hnone ->]]]]; simpl.
    + done.
    + unfold update_eq. by rewrite length_fmap.
    + congruence.
Qed.

(** ** The reply of the workflow *)

(** An agent run gives the reply of the agent, adds its own event to the
    trace and leaves the chat logs alone. *)
Lemma run_agent_run E h input ctx w :
  ∃ w1,
    run_agent E h input ctx w = (agent_reply E h input ctx, w1) ∧
    trace w1 = trace w ++ [AgentRun h input] ∧ chats w1 = chats w ∧
    referrals w1 = referrals w.
Proof.
  unfold run_agent. rewrite bind_run. unfold modify at 1.
  rewrite bind_run.
  assert (Hesc : ∃ w1,
    match h with
    | CustomerGreetingAgent => mret ()
    | _ => escalate_all (agent_escalations E h input ctx)
    end (emit (AgentRun h input) w) = (Ok (), w1) ∧
    trace w1 = trace w ++ [AgentRun h input] ∧ chats w1 = chats w ∧
    referrals w1 = referrals w).
  { destruct h.
    - by eexists.
    - destruct (escalate_all_frame
                  (agent_escalations E D2CCustomerSupportAgent input ctx)
                  (emit (AgentRun D2CCustomerSupportAgent input) w))
        as [w1 [H1 [H2 [H3 H4]]]]. eauto.
    - destruct (escalate_all_frame
                  (agent_escalations E B2BBusinessSupportAgent input ctx)
                  (emit (AgentRun B2BBusinessSupportAgent input) w))
        as [w1 [H1 [H2 [H3 H4]]]]. eauto. }
  destruct Hesc as [w1 [-> Ht]]. exists w1. unfold lift.
  by destruct (agent_reply E h input ctx).
Qed.

Lemma route_to_agent_run E phone raw ctx w sentiment h :
  router E raw ctx = Ok sentiment →
  handler_named (next_agent sentiment) = Some h →
  ∃ w1,
    _route_to_agent E phone raw ctx w = (agent_reply E h raw ctx, w1) ∧
    trace w1 = trace w ++ [AgentRun h raw] ∧ chats w1 = chats w ∧
    referrals w1 = referrals w.
Proof.
  intros Hrouter Hh. unfold _route_to_agent.
  rewrite bind_run. unfold lift at 1. rewrite Hrouter, bind_run.
  destruct (persist_personal_info_frame phone sentiment w)
    as [w1 [-> [Ht [Hc Hr]]]].
  rewrite Hh. destruct (run_agent_run E h raw ctx w1) as [w2 [-> [H1 [H2 H3]]]].
  exists w2. repeat split; congruence.
Qed.

(** Logging, broadcasting and sending a reply. *)
Lemma reply_run E phone r w :
  ∃ w',
    (_log_agent_message E phone (Some r);;
     stream_to_web_socket E phone r by_agent;;
     send_whatsapp_message phone r) w = (Ok (), w') ∧
    trace w' = trace w ++
      [HistoryAppend phone (reply_message E r (length (trace w)));
       Broadcast phone (reply_message E r (S (length (trace w))));
       Send (PStr phone) r] ∧
    chats w' = <[phone := default [] (chats w !! phone)
                           ++ [reply_message E r (length (trace w))]]> (chats w) ∧
    customers w' = customers w ∧ referrals w' = referrals w.
Proof.
  eexists. split; [reflexivity |]. simpl.
  rewrite <- !app_assoc, length_app, Nat.add_1_r. by repeat split.
Qed.

(** X18: for a known, complete (or QuickBooks-unknown), not
    escalated customer whose message carries no referral code, when the
    router names one of the three handlers and that handler replies,
    [execute_workflow] produces exactly, in this order: the history write
    and the broadcast of the inbound message, the run of the named
    handler, the history write and the broadcast of the reply, both of
    kind text, and one WhatsApp send of the reply to the sender; the chat
    log of the sender gains the two messages. *)
Theorem answered_message_trace (E : env) (data : pyval) (is_voice : bool)
  (w : world) (raw phone : list N) (row : gmap string pyval)
  (sentiment : SentimentAnalysisResult) (h : handler) (r : list N) :
  receive E data is_voice = Some (raw, phone) →
  stored_customer phone w = Some row →
  schema_ok E row = true →
  incomplete (Some row) = false ∨ quickbook E phone = Ok None →
  truthy (get row "escalation_status") = false →
  (_extract_codes raw).1 = None →
  let ctx := global_context_of row (recent_history E phone w) in
  router E raw ctx = Ok sentiment →
  handler_named (next_agent sentiment) = Some h →
  agent_reply E h raw ctx = Ok r →
  let n := length (trace w) in
  ∃ w',
    execute_workflow E data is_voice w = (Ok (), w') ∧
    trace w' = trace w ++
      [HistoryAppend phone (inbound_entry E raw is_voice w);
       Broadcast phone (inbound_broadcast E raw w);
       AgentRun h raw;
       HistoryAppend phone (reply_message E r (n + 3));
       Broadcast phone (reply_message E r (n + 4));
       Send (PStr phone) r] ∧
    chats w' !! phone
    = Some (default [] (chats w !! phone)
            ++ [inbound_entry E raw is_voice w; reply_message E r (n + 3)]).
Proof.
  intros Hrecv Hrow Hok Hcase Hflag Hcodes ctx Hrouter Hh Hreply n.
  set (w1 := inbound_logged E phone raw is_voice w).
  assert (Hrow1 : stored_customer phone w1 = Some row) by exact Hrow.
  assert (Hres : _get_or_create_customer E phone w1 = (Ok row, w1)).
  { by apply resolve_existing_run. }
  rewrite (execute_workflow_run _ _ _ _ _ _ Hrecv). fold w1. rewrite Hres.
  unfold try_except. rewrite bind_run, is_escalated_run, Hrow1, Hflag.
  cbn [negb]. rewrite Hcodes, bind_run, bind_run.
  destruct (route_to_agent_run E phone raw ctx w1 sentiment h Hrouter Hh)
    as [w2 [Hroute [Ht2 [Hc2 _]]]].
  fold ctx. rewrite Hroute, Hreply. cbn [mret M_ret].
  destruct (reply_run E phone r w2) as [w3 [Hrun [Ht3 [Hc3 _]]]].
  rewrite Hrun. exists w3. split; [done |].
  assert (Hlen : length (trace w2) = (n + 3)%nat).
  { rewrite Ht2. unfold w1. rewrite inbound_logged_trace, !length_app.
    simpl. subst n. lia. }
  split.
  - rewrite Ht3, Hlen, Ht2. unfold w1. rewrite inbound_logged_trace.
    rewrite <- !app_assoc. simpl.
    by replace (S (n + 3)) with (n + 4)%nat by lia.
  - rewrite Hc3, lookup_insert_eq, Hlen, Hc2. unfold w1.
    rewrite inbound_logged_chats, lookup_insert_eq. simpl.
    by rewrite <- app_assoc.
Qed.

(** X19: under the same conditions, when the named handler raises
    instead of replying, [execute_workflow] ends normally after the
    handler run: nothing is sent and the chat log gains the inbound
    message only. *)
Theorem failed_agent_sends_nothing (E : env) (data : pyval) (is_voice : bool)
  (w : world) (raw phone : list N) (row : gmap string pyval)
  (sentiment : SentimentAnalysisResult) (h : handler) (e : exn) :
  receive E data is_voice = Some (raw, phone) →
  stored_customer phone w = Some row →
  schema_ok E row = true →
  incomplete (Some row) = false ∨ quickbook E phone = Ok None →
  truthy (get row "escalation_status") = false →
  (_extract_codes raw).1 = None →
  let ctx := global_context_of row (recent_history E phone w) in
  router E raw ctx = Ok sentiment →
  handler_named (next_agent sentiment) = Some h →
  agent_reply E h raw ctx = Raise e →
  ∃ w',
    execute_workflow E data is_voice w = (Ok (), w') ∧
    trace w' = trace w ++
      [HistoryAppend phone (inbound_entry E raw is_voice w);
       Broadcast phone (inbound_broadcast E raw w);
       AgentRun h raw] ∧
    sends (trace w') = sends (trace w) ∧
    chats w' !! phone
    = Some (default [] (chats w !! phone) ++ [inbound_entry E raw is_voice w]).
Proof.
  intros Hrecv Hrow Hok Hcase Hflag Hcodes ctx Hrouter Hh Hreply.
  set (w1 := inbound_logged E phone raw is_voice w).
  assert (Hrow1 : stored_customer phone w1 = Some row) by exact Hrow.
  assert (Hres : _get_or_create_customer E phone w1 = (Ok row, w1)).
  { by apply resolve_existing_run. }
  rewrite (execute_workflow_run _ _ _ _ _ _ Hrecv). fold w1. rewrite Hres.
  unfold try_except. rewrite bind_run, is_escalated_run, Hrow1, Hflag.
  cbn [negb]. rewrite Hcodes, bind_run, bind_run.
  destruct (route_to_agent_run E phone raw ctx w1 sentiment h Hrouter Hh)
    as [w2 [Hroute [Ht2 [Hc2 _]]]].
  fold ctx. rewrite Hroute, Hreply. cbn [mret M_ret].
  exists w2. split; [done |].
  assert (Ht : trace w2 = trace w ++
            [HistoryAppend phone (inbound_entry E raw is_voice w);
             Broadcast phone (inbound_broadcast E raw w);
             AgentRun h raw]).
  { rewrite Ht2. unfold w1. rewrite inbound_logged_trace.
    by rewrite <- app_assoc. }
  split; [done |]. split.
  - rewrite Ht. unfold sends. rewrite List.filter_app, length_app. simpl. lia.
  - rewrite Hc2. unfold w1. by rewrite inbound_logged_chats, lookup_insert_eq.
Qed.

(** ** A referral message in the workflow *)

Lemma invitation_for_frame E phone campaign ctx w :
  ∃ reply w',
    invitation_for E phone campaign ctx w = (Ok reply, w') ∧
    trace w' = trace w ∧ customers w' = customers w ∧ chats w' = chats w.
Proof.
  assert (Hissue : ∃ reply w',
    issue_referral_code E phone campaign ctx w = (Ok reply, w') ∧
    trace w' = trace w ∧ customers w' = customers w ∧ chats w' = chats w).
  { rewrite issue_referral_code_run. eexists _, _. split; [done |].
    by destruct (referrer_fields ctx) as [[n e]|]. }
  rewrite invitation_for_run.
  destruct (head (select_eq "referrer_phone" phone (referrals w)))
    as [row|]; [| done].
  destruct (truthy (PDict row)); [| done].
  destruct (row !! "referral_code"); by eexists _, _.
Qed.

(** [referral_workflow] never raises; it writes to the referral table
    only, and what it adds to the trace is at most the notice to the
    referrer. *)
Lemma referral_workflow_frame E text phone ctx w :
  ∃ reply w' sent,
    referral_workflow E text phone ctx w = (Ok reply, w') ∧
    customers w' = customers w ∧ chats w' = chats w ∧
    trace w' = trace w ++ sent ∧
    (sent = [] ∨ ∃ to, sent = [Send to incremented_notice]).
Proof.
  destruct (check_existing_total phone (_extract_codes text).2 w)
    as [credited Hcheck].
  rewrite (referral_workflow_split _ _ _ _ _ _ Hcheck).
  destruct credited.
  - destruct (invitation_for_frame E phone (_extract_codes text).1 ctx w)
      as [reply [w' [-> [H1 [H2 H3]]]]].
    exists reply, w', []. rewrite app_nil_r. repeat split; auto.
  - destruct (increment_referral_count_frame E (_extract_codes text).2 phone
                true w) as [w1 [sent [-> [H1 [H2 [_ [H4 H5]]]]]]].
    cbn [snd].
    destruct (invitation_for_frame E phone (_extract_codes text).1 ctx w1)
      as [reply [w' [-> [G1 [G2 G3]]]]].
    exists reply, w', sent. repeat split; congruence.
Qed.

(** X20: a message from which [_extract_codes] reads a campaign
    code never reaches the router or an agent: [execute_workflow] ends
    normally with no agent run, at most two WhatsApp sends (the notice to
    the referrer and the reply) and at most two history writes. *)
Theorem referral_message_runs_no_agent (E : env) (data : pyval)
  (is_voice : bool) (w : world) (raw phone code : list N) :
  receive E data is_voice = Some (raw, phone) →
  (_extract_codes raw).1 = Some code →
  let out := execute_workflow E data is_voice w in
  out.1 = Ok () ∧
  agent_runs (trace out.2) = agent_runs (trace w) ∧
  (sends (trace out.2) ≤ sends (trace w) + 2)%nat ∧
  (history_appends (trace out.2) ≤ history_appends (trace w) + 2)%nat.
Proof.
  intros Hrecv Hcodes out. subst out.
  assert (Hcount : ∀ t sent tail,
    (sent = [] ∨ ∃ to, sent = [Send to incremented_notice]) →
    (tail = [] ∨ ∃ a b c d e f,
       tail = [HistoryAppend a b; Broadcast c d; Send e f]) →
    agent_runs ((t ++ sent) ++ tail) = agent_runs t ∧
    (sends ((t ++ sent) ++ tail) ≤ sends t + 2)%nat ∧
    (history_appends ((t ++ sent) ++ tail) ≤ history_appends t + 1)%nat).
  { intros t sent tail Hsent Htail. unfold agent_runs, sends, history_appends.
    rewrite !List.filter_app, !length_app.
    destruct Hsent as [-> | [to ->]];
      destruct Htail as [-> | [a [b [c [d [e [f ->]]]]]]]; simpl; lia. }
  rewrite (execute_workflow_run _ _ _ _ _ _ Hrecv).
  set (w0 := inbound_logged E phone raw is_voice w).
  assert (Hin : ∀ w1, trace w1 = trace w0 →
    agent_runs (trace w1) = agent_runs (trace w) ∧
    (sends (trace w1) ≤ sends (trace w) + 2)%nat ∧
    (history_appends (trace w1) ≤ history_appends (trace w) + 2)%nat).
  { intros w1 ->. unfold w0. rewrite inbound_logged_trace.
    destruct (inbound_counts (trace w) phone (inbound_entry E raw is_voice w)
                phone (inbound_broadcast E raw w)) as [-> [-> ->]]. lia. }
  destruct (_get_or_create_customer E phone w0) as [[customer|e] w1] eqn:Hres;
    destruct (resolve_outcome _ _ _ _ _ Hres) as [Ht1 _];
    [| cbn [fst snd]; split; [done | by apply Hin]].
  unfold try_except. rewrite bind_run, is_escalated_run.
  destruct (match stored_customer phone w1 with
            | Some row => truthy (get row "escalation_status")
            | None => false
            end); cbn [negb]; [cbn [mret M_ret fst snd]; split; [done | by apply Hin] |].
  rewrite Hcodes, bind_run.
  destruct (referral_workflow_frame E raw phone
              (Some (global_context_of customer (recent_history E phone w))) w1)
    as [reply [w2 [sent [-> [_ [_ [Ht2 Hsent]]]]]]].
  assert (Hfrom : ∀ w3 tail,
    trace w3 = trace w2 ++ tail →
    (tail = [] ∨ ∃ a b c d e f,
       tail = [HistoryAppend a b; Broadcast c d; Send e f]) →
    agent_runs (trace w3) = agent_runs (trace w) ∧
    (sends (trace w3) ≤ sends (trace w) + 2)%nat ∧
    (history_appends (trace w3) ≤ history_appends (trace w) + 2)%nat).
  { intros w3 tail -> Htail. rewrite Ht2, Ht1.
    destruct (Hcount (trace w0) sent tail Hsent Htail) as [-> [H2 H3]].
    destruct (Hin w0 eq_refl) as [-> [G2 G3]].
    unfold w0 in *. rewrite inbound_logged_trace in *.
    destruct (inbound_counts (trace w) phone (inbound_entry E raw is_voice w)
                phone (inbound_broadcast E raw w)) as [I1 [I2 I3]].
    rewrite I1, I2 in *. lia. }
  destruct reply as [r|].
  - destruct (reply_run E phone r w2) as [w3 [-> [Ht3 _]]].
    cbn [fst snd]. split; [done |].
    apply (Hfrom w3 _ Ht3). right. by repeat eexists.
  - rewrite bind_run. unfold _log_agent_message.
    rewrite bind_run, now_run, bind_run. cbn [agent_message lift fst snd].
    split; [done |]. apply (Hfrom w2 []); [by rewrite app_nil_r | by left].
Qed.

(** ** The customer routes *)

Lemma updated_rows_truthy phone payload w row :
  stored_customer phone w = Some row →
  truthy (PList (PDict <$> updated_rows "phone_number" phone payload
                             (customers w))) = true.
Proof.
  unfold stored_customer, updated_rows.
  by destruct (select_eq "phone_number" phone (customers w)).
Qed.

Lemma update_route_run E phone updates w :
  Routes.update_customer E phone updates w =
  match stored_customer phone w with
  | None => (Routes.HTTPException 404, w)
  | Some row =>
      if schema_ok E row
      then match Routes.update_data updates with
           | [] => (Routes.HTTPException 400, w)
           | _ :: _ =>
               (Routes.Respond (Routes.update_data updates).*1,
                set_customers
                  (update_eq "phone_number" phone
                     (clean_updates (list_to_map (Routes.update_data updates)))
                     (customers w)) w)
           end
      else (Routes.HTTPException 500, w)
  end.
Proof.
  unfold Routes.update_customer, Routes.handled.
  rewrite bind_run, get_customer_by_phone_run.
  destruct (stored_customer phone w) as [row|] eqn:Hrow; [| done].
  destruct (schema_ok E row); [| done].
  destruct (Routes.update_data updates) as [|kv l] eqn:Hdata; [done |].
  rewrite bind_run, update_customer_run.
  by rewrite (updated_rows_truthy _ _ _ _ Hrow).
Qed.

(** X21: for a request that sets no field, or that sets at least one
    field to a value that is not blank, whenever the dashboard route
    [update_customer] answers with an [HTTPException] the store is
    unchanged; the status is 404 for an unknown phone number, 400 for a
    request whose fields are all [None], and 500 for a stored record that
    fails validation. *)
Theorem update_route_rejection_leaves_store (E : env) (phone : list N)
  (updates : Routes.CustomerUpdateRequest) (w w' : world) (status : nat) :
  Routes.update_data updates = [] ∨
  (∃ k v, (k, v) ∈ Routes.update_data updates ∧ blank v = false) →
  Routes.update_customer E phone updates w
  = (Routes.HTTPException status, w') →
  w' = w ∧
  (status = 404 ∧ stored_customer phone w = None ∨
   status = 400 ∧ Routes.update_data updates = [] ∨
   status = 500 ∧ ∃ row, stored_customer phone w = Some row ∧
                         schema_ok E row = false).
Proof.
  intros _. rewrite update_route_run.
  destruct (stored_customer phone w) as [row|] eqn:Hrow.
  - destruct (schema_ok E row) eqn:Hok.
    + destruct (Routes.update_data updates) as [|kv l] eqn:Hdata; [| done].
      intros [= <- <-]. split; [done |]. right. by left.
    + intros [= <- <-]. split; [done |]. right. right. split; [done |].
      by exists row.
  - intros [= <- <-]. split; [done |]. by left.
Qed.

Lemma filter_sublist {A} (f : A → bool) (l : list A) :
  List.filter f l `sublist_of` l.
Proof.
  induction l as [|x l IH]; [done |]. simpl.
  destruct (f x); by constructor.
Qed.

Lemma update_data_keys updates :
  NoDup (Routes.update_data updates).*1 ∧
  ∀ k v, (k, v) ∈ Routes.update_data updates →
         k ∈ ["customer_name"; "email"; "address"; "company_name"; "tags"].
Proof.
  assert (Hsub : (Routes.update_data updates).*1
                 `sublist_of` (Routes.dict updates).*1).
  { apply fmap_sublist, filter_sublist. }
  split.
  - eapply sublist_NoDup; [| exact Hsub].
    simpl. repeat constructor; set_solver.
  - intros k v Hkv. apply (list_elem_of_fmap_2 fst) in Hkv.
    exact (elem_of_sublist _ _ _ Hkv Hsub).
Qed.

(** X22: for a stored record that validates and a request that sets
    at least one field to a value that is not blank, the dashboard route
    [update_customer] reports every field of the request that is not
    [None] as updated; the stored record takes the fields whose value is
    not blank, keeps its own value for those sent as an empty string or
    list although they are reported, and keeps its escalation flag. *)
Theorem update_route_reports_unwritten_fields (E : env) (phone : list N)
  (updates : Routes.CustomerUpdateRequest) (w : world)
  (row : gmap string pyval) :
  stored_customer phone w = Some row →
  schema_ok E row = true →
  (∃ k v, (k, v) ∈ Routes.update_data updates ∧ blank v = false) →
  let out := Routes.update_customer E phone updates w in
  out.1 = Routes.Respond (Routes.update_data updates).*1 ∧
  ∃ row',
    stored_customer phone out.2 = Some row' ∧
    row' !! "escalation_status" = row !! "escalation_status" ∧
    ∀ k v, (k, v) ∈ Routes.update_data updates →
           k ∈ (Routes.update_data updates).*1 ∧
           (blank v = true → row' !! k = row !! k) ∧
           (blank v = false → row' !! k = Some v).
Proof.
  intros Hrow Hok [k0 [v0 [Hset _]]] out. subst out.
  rewrite update_route_run, Hrow, Hok.
  destruct (Routes.update_data updates) as [|kv l] eqn:Hl;
    [by apply elem_of_nil in Hset |].
  rewrite <- Hl. cbn [fst snd]. split; [done |].
  destruct (update_data_keys updates) as [Hnodup Hkeys].
  set (payload := list_to_map (Routes.update_data updates)
                  : gmap string pyval).
  assert (Hphone : clean_updates payload !! "phone_number" = None).
  { destruct (clean_updates payload !! "phone_number") as [v|] eqn:Hv; [| done].
    apply clean_updates_lookup in Hv as [Hv _].
    apply elem_of_list_to_map in Hv; [| done].
    apply Hkeys in Hv. set_solver. }
  exists (clean_updates payload ∪ row). split; [| split].
  - rewrite stored_customer_updated by done. by rewrite Hrow.
  - apply merged_row_escalation.
  - intros k v Hkv.
    assert (Hk : payload !! k = Some v) by by apply elem_of_list_to_map.
    split; [by apply (list_elem_of_fmap_2 fst) in Hkv |]. split.
    + intros Hblank. by apply (merged_row_ignores_blank payload row k v).
    + intros Hblank. apply merged_row_takes_filled; [done | done |].
      apply Hkeys in Hkv. set_solver.
Qed.

Lemma escalation_route_run phone status ok w :
  Routes.handled
    (success ← update_escalation_status phone status;
     if success : bool then mret (Routes.Respond ok)
     else mret (Routes.HTTPException 404)) w =
  match stored_customer phone w with
  | Some _ =>
      (Routes.Respond ok,
       set_customers
         (update_eq "phone_number" phone
            {[ "escalation_status" := PBool status ]} (customers w)) w)
  | None => (@Routes.HTTPException (list N) 404, w)
  end.
Proof.
  unfold Routes.handled. rewrite bind_run, update_escalation_status_run.
  destruct (stored_customer phone w) as [row|] eqn:Hrow; [done |].
  cbn [mret M_ret]. rewrite update_eq_absent; [by destruct w |].
  by apply head_select_None.
Qed.

(** X23: the routes [escalate_customer] and
    [de_escalate_customer] answer 404 and change nothing for an unknown
    phone number; for a known one, escalating makes [is_escalated] true,
    de-escalating afterwards makes it false again, and the record is back
    to its other fields. *)
Theorem escalation_routes_round_trip (phone : list N) (w : world) :
  let up := Routes.escalate_customer phone w in
  let down := Routes.de_escalate_customer phone up.2 in
  (stored_customer phone w = None →
   up = (Routes.HTTPException 404, w) ∧
   Routes.de_escalate_customer phone w = (Routes.HTTPException 404, w)) ∧
  (∀ row,
     stored_customer phone w = Some row →
     up.1 = Routes.Respond (lit "Customer escalated successfully") ∧
     is_escalated phone up.2 = (Ok true, up.2) ∧
     down.1 = Routes.Respond (lit "Customer de-escalated successfully") ∧
     is_escalated phone down.2 = (Ok false, down.2) ∧
     ∃ row',
       stored_customer phone down.2 = Some row' ∧
       ∀ k, k ≠ "escalation_status" → row' !! k = row !! k).
Proof.
  intros up down. subst down up.
  unfold Routes.escalate_customer, Routes.de_escalate_customer.
  rewrite !escalation_route_run. split.
  - intros Hnone. by rewrite Hnone.
  - intros row Hrow. rewrite Hrow. cbn [fst snd].
    set (w1 := set_customers _ w).
    assert (Hrow1 : stored_customer phone w1
                    = Some ({[ "escalation_status" := PBool true ]} ∪ row)).
    { subst w1. rewrite stored_customer_updated by done. by rewrite Hrow. }
    rewrite Hrow1. cbn [fst snd].
    set (w2 := set_customers _ w1).
    assert (Hrow2 : stored_customer phone w2
                    = Some ({[ "escalation_status" := PBool false ]}
                            ∪ ({[ "escalation_status" := PBool true ]} ∪ row))).
    { subst w2. rewrite stored_customer_updated by done. by rewrite Hrow1. }
    split; [done |]. split.
    { rewrite is_escalated_run, Hrow1. unfold get.
      by rewrite (lookup_union_Some_l _ _ _ (PBool true))
        by apply lookup_singleton_eq. }
    split; [done |]. split.
    { rewrite is_escalated_run, Hrow2. unfold get.
      by rewrite (lookup_union_Some_l _ _ _ (PBool false))
        by apply lookup_singleton_eq. }
    eexists. split; [exact Hrow2 |]. intros k Hk.
    by rewrite !lookup_union_r by by apply lookup_singleton_ne.
Qed.

(** ** The webhook *)

Lemma receive_message_run E data w :
  receive_message E data w =
  (Ok (lit "EVENT_RECEIVED"),
   match inbound_message_type data with
   | Some (Some message_type) =>
       (execute_workflow E data
          (eq_str message_type (lit "audio")
           || eq_str message_type (lit "voice")) w).2
   | _ => w
   end).
Proof.
  unfold receive_message. rewrite bind_run. unfold try_except.
  destruct (inbound_message_type data) as [[message_type|]|]; [| done | done].
  destruct (eq_str message_type (lit "audio")
            || eq_str message_type (lit "voice")); cbn [orb].
  - by destruct (execute_workflow E data true w) as [[[]|e] w'].
  - destruct (eq_str message_type (lit "image")
              || eq_str message_type (lit "document")
              || eq_str message_type (lit "video"));
      by destruct (execute_workflow E data false w) as [[[]|e] w'].
Qed.

(** X24: for a webhook payload that carries a message,
    [receive_message] reads the type of the first message of the first
    change of the first entry, runs [execute_workflow] once, with the
    voice flag set exactly when that type is ["audio"] or ["voice"], and
    answers ["EVENT_RECEIVED"]. *)
Theorem webhook_dispatches_on_message_type (E : env) (w : world)
  (payload entry change value message : gmap string pyval)
  (entries changes inbound : list pyval) :
  payload !! "entry" = Some (PList (PDict entry :: entries)) →
  entry !! "changes" = Some (PList (PDict change :: changes)) →
  change !! "value" = Some (PDict value) →
  value !! "messages" = Some (PList (PDict message :: inbound)) →
  let is_voice := eq_str (get message "type") (lit "audio")
                  || eq_str (get message "type") (lit "voice") in
  inbound_message_type (PDict payload) = Some (Some (get message "type")) ∧
  receive_message E (PDict payload) w
  = (Ok (lit "EVENT_RECEIVED"),
     (execute_workflow E (PDict payload) is_voice w).2).
Proof.
  intros Hentry Hchanges Hvalue Hmessages is_voice.
  assert (Htype : inbound_message_type (PDict payload)
                  = Some (Some (get message "type"))).
  { unfold inbound_message_type. cbn [get_or mbind option_bind].
    rewrite Hentry. cbn [default from_option id first_item head member
                           mbind option_bind].
    rewrite Hchanges.
    rewrite bool_decide_eq_true_2 by by eexists.
    cbn [item mbind option_bind]. rewrite Hchanges.
    cbn [has_items mbind option_bind].
    rewrite bool_decide_eq_true_2 by done.
    cbn [first_item head member mbind option_bind]. rewrite Hvalue.
    rewrite bool_decide_eq_true_2 by by eexists.
    cbn [item mbind option_bind]. rewrite Hvalue.
    cbn [member mbind option_bind]. rewrite Hmessages.
    rewrite bool_decide_eq_true_2 by by eexists.
    cbn [item mbind option_bind]. rewrite Hmessages.
    reflexivity. }
  split; [done |]. by rewrite receive_message_run, Htype.
Qed.

(** X25: [receive_message] answers ["EVENT_RECEIVED"] for every
    payload and never raises; it changes nothing when the payload cannot
    be read or carries no message (as a status update, whose value has no
    [messages]), and nothing when the gateway hands
    [execute_workflow] no message. *)
Theorem webhook_always_acknowledges (E : env) (data : pyval) (w : world) :
  (receive_message E data w).1 = Ok (lit "EVENT_RECEIVED") ∧
  (inbound_message_type data = None ∨ inbound_message_type data = Some None →
   (receive_message E data w).2 = w) ∧
  ((∀ is_voice, receive E data is_voice = None) →
   (receive_message E data w).2 = w) ∧
  (∀ payload entry change value entries changes,
     data = PDict payload →
     payload !! "entry" = Some (PList (PDict entry :: entries)) →
     entry !! "changes" = Some (PList (PDict change :: changes)) →
     change !! "value" = Some (PDict value) →
     value !! "messages" = None →
     inbound_message_type data = Some None).
Proof.
  rewrite receive_message_run. cbn [fst snd].
  split; [done |]. split; [| split].
  - by intros [-> | ->].
  - intros Hnone.
    destruct (inbound_message_type data) as [[message_type|]|]; [| done | done].
    unfold execute_workflow. by rewrite Hnone.
  - intros payload entry change value entries changes -> H1 H2 H3 H4.
    unfold inbound_message_type. cbn [get_or mbind option_bind].
    rewrite H1. cbn [default from_option id first_item head member
                       mbind option_bind].
    rewrite H2.
    rewrite bool_decide_eq_true_2 by by eexists.
    cbn [item mbind option_bind]. rewrite H2.
    cbn [has_items mbind option_bind].
    rewrite bool_decide_eq_true_2 by done.
    cbn [first_item head member mbind option_bind]. rewrite H3.
    rewrite bool_decide_eq_true_2 by by eexists.
    cbn [item mbind option_bind]. rewrite H3.
    cbn [member mbind option_bind]. rewrite H4.
    rewrite bool_decide_eq_false_2; [done |]. by intros [? ?].
Qed.

(** ** The further statements at sample inputs *)

(** X1 for the code ABCDEF. *)
Lemma invitation_round_trip_witness :
  _extract_codes (invitation_text (lit "ABCDEF"))
  = (Some (lit "QTMR"), Some (lit "ABCDEF")).
Proof.
  destruct (invitation_round_trip Sample.quiet (lit "ABCDEF")) as [_ H];
    [| exact H].
  split; [reflexivity | by repeat constructor].
Defined.

(** X3: the referrer of code ABCDEF writes "hello" and gets the invitation of
    ABCDEF. *)
Lemma known_sender_keeps_code_witness :
  (referral_workflow Sample.quiet (lit "hello") (lit "923001112222") None
     (Sample.ledger 0 (PList []))).1
  = Ok (Some (_static_message Sample.quiet (lit "ABCDEF"))).
Proof.
  destruct (known_sender_keeps_code Sample.quiet (lit "hello")
              (lit "923001112222") None (Sample.ledger 0 (PList []))
              (Sample.referral_row 0 (PList [])) (PStr (lit "ABCDEF")))
    as [H _]; [reflexivity | reflexivity | exact H].
Defined.

(** X4: a first "hello" on an empty ledger is answered with an invitation. *)
Lemma new_sender_gets_one_record_witness :
  ∃ code,
    (referral_workflow Sample.quiet (lit "hello") (lit "923009998888") None
       Sample.empty_world).1
    = Ok (Some (_static_message Sample.quiet code)).
Proof.
  destruct (new_sender_gets_one_record Sample.quiet (lit "hello")
              (lit "923009998888") None Sample.empty_world (Some []) (Some []))
    as [code [credited [H _]]]; [reflexivity | reflexivity |].
  exists code. exact H.
Defined.

(** X6: the same sender sends code ABCDEF twice; the total is 1. *)
Lemma workflow_credits_once_witness :
  let text := lit "(Referral code: _QTMR-ABCDEF_)" in
  let phone := lit "923009998888" in
  let w1 := (referral_workflow Sample.quiet text phone None
               (Sample.ledger 0 (PList []))).2 in
  let w2 := (referral_workflow Sample.quiet text phone None w1).2 in
  stored_points (lit "ABCDEF") w2 = Some (PInt 1).
Proof.
  intros text phone w1 w2.
  destruct (workflow_credits_once Sample.quiet text phone None
              (Sample.ledger 0 (PList [])) (Some (lit "QTMR")) (lit "ABCDEF")
              (Sample.referral_row 0 (PList [])))
    as [n [Hn [_ [H2 _]]]];
    [reflexivity | reflexivity | reflexivity | reflexivity |].
  injection Hn as <-. exact H2.
Defined.

(** X7: one credit on a ledger of 3 points sends the notice to the referrer. *)
Lemma referrer_is_notified_witness :
  trace (_increment_referral_count Sample.quiet (Some (lit "ABCDEF"))
           (lit "923009998888") true (Sample.ledger 3 (PList []))).2
  = [Send (PStr (lit "923001112222")) incremented_notice].
Proof.
  destruct (referrer_is_notified Sample.quiet (lit "ABCDEF")
              (lit "923009998888") true (Sample.ledger 3 (PList []))
              (Sample.referral_row 3 (PList [])))
    as [H _]; [reflexivity | reflexivity |].
  exact H.
Defined.

(** X10: Ann is escalated and every outside service is down; nothing is
    sent. *)
Lemma escalated_record_gets_no_reply_witness :
  sends (trace (execute_workflow Cases.outage PNone false
                  (Cases.ann_known true)).2) = 0%nat.
Proof.
  destruct (escalated_record_gets_no_reply Cases.outage PNone false
              (Cases.ann_known true) (lit "hello") Cases.ann
              (Cases.ann_row true))
    as [_ [_ [H _]]]; [reflexivity | reflexivity | reflexivity |].
  exact H.
Defined.

(** X11: after the tool has escalated Ann, her "hello" gets no reply. *)
Lemma escalation_tool_silences_bot_witness :
  let E := Cases.greeted (Ok (lit "How can I help?")) in
  let tool := escalate_to_human_support_tool Cases.ann (Cases.ann_known false) in
  tool.1 = Ok (lit "escalated") ∧
  sends (trace (execute_workflow E PNone false tool.2).2) = 0%nat.
Proof.
  intros E tool.
  destruct (escalation_tool_silences_bot E PNone false (Cases.ann_known false)
              (lit "hello") Cases.ann) as [H _]; [reflexivity |].
  destruct (H (Cases.ann_row false)) as [H1 [_ [_ [H2 _]]]]; [reflexivity |].
  split; [exact H1 | exact H2].
Defined.

(** X12: Ann's complete record is returned although QuickBooks is down. *)
Lemma complete_record_is_returned_as_stored_witness :
  _get_or_create_customer Cases.outage Cases.ann (Cases.ann_known false)
  = (Ok (Cases.ann_row false), Cases.ann_known false).
Proof.
  apply (complete_record_is_returned_as_stored Cases.outage Cases.ann
           (Cases.ann_known false) (Cases.ann_row false));
    [reflexivity | reflexivity | left; reflexivity].
Defined.

(** X13: an unknown sender while QuickBooks is down: no record, no send. *)
Lemma quickbooks_failure_drops_message_witness :
  sends (trace (execute_workflow Cases.outage PNone false
                  Sample.empty_world).2) = 0%nat ∧
  customers (execute_workflow Cases.outage PNone false Sample.empty_world).2
  = [].
Proof.
  destruct (quickbooks_failure_drops_message Cases.outage PNone false
              Sample.empty_world (lit "hello") Cases.ann UpstreamError)
    as [_ [_ [H1 H2]]];
    [reflexivity | reflexivity | discriminate | reflexivity |].
  split; [exact H2 | exact H1].
Defined.

(** X14: Shopify is down; Ann gets the minimal record. *)
Lemma unusable_shopify_gives_minimal_record_witness :
  _get_or_create_customer Cases.shopify_down Cases.ann Sample.empty_world
  = (Ok (minimal_fields Cases.ann),
     set_customers [minimal_fields Cases.ann] Sample.empty_world).
Proof.
  apply (unusable_shopify_gives_minimal_record Cases.shopify_down Cases.ann
           Sample.empty_world);
    [reflexivity | reflexivity | discriminate | reflexivity].
Defined.

(** X15: Ann is created from what QuickBooks holds about her. *)
Lemma quickbooks_customer_is_created_witness :
  let E := Sample.collaborators None (Raise UpstreamError)
             (Some Sample.books_of_ann) None in
  stored_customer Cases.ann
    (_get_or_create_customer E Cases.ann Sample.empty_world).2
  = Some (quickbook_fields Sample.books_of_ann Cases.ann).
Proof.
  intros E.
  destruct (quickbooks_customer_is_created E Cases.ann Sample.empty_world
              Sample.books_of_ann) as [_ [H _]];
    [reflexivity | reflexivity | reflexivity |].
  exact H.
Defined.

(** X21: an update for an unknown phone number is answered 404. *)
Lemma update_route_rejection_leaves_store_witness :
  Sample.empty_world = Sample.empty_world ∧
  (404%nat = 404%nat ∧ stored_customer Cases.ann Sample.empty_world = None ∨
   404%nat = 400%nat ∧ Routes.update_data Cases.rename_and_blank = [] ∨
   404%nat = 500%nat ∧
   ∃ row, stored_customer Cases.ann Sample.empty_world = Some row ∧
          schema_ok Sample.quiet row = false).
Proof.
  apply (update_route_rejection_leaves_store Sample.quiet Cases.ann
           Cases.rename_and_blank Sample.empty_world Sample.empty_world 404).
  - right. exists "customer_name", (PStr (lit "Anna")).
    split; [apply list_elem_of_here | reflexivity].
  - reflexivity.
Defined.

(** X22: renaming Ann and blanking her email reports both fields; the name
    is written and the email is kept. *)
Lemma update_route_reports_unwritten_fields_witness :
  let out := Routes.update_customer Sample.quiet Cases.ann
               Cases.rename_and_blank (Cases.ann_known false) in
  out.1 = Routes.Respond ["customer_name"; "email"] ∧
  ∃ row',
    stored_customer Cases.ann out.2 = Some row' ∧
    row' !! "customer_name" = Some (PStr (lit "Anna")) ∧
    row' !! "email" = Some (PStr (lit "ann@example.com")).
Proof.
  intros out.
  destruct (update_route_reports_unwritten_fields Sample.quiet Cases.ann
              Cases.rename_and_blank (Cases.ann_known false)
              (Cases.ann_row false))
    as [H1 [row' [H2 [_ H3]]]]; [reflexivity | reflexivity | |].
  { exists "customer_name", (PStr (lit "Anna")).
    split; [apply list_elem_of_here | reflexivity]. }
  split; [exact H1 |]. exists row'. split; [exact H2 |]. split.
  - apply (H3 "customer_name" (PStr (lit "Anna"))); [| reflexivity].
    apply list_elem_of_here.
  - destruct (H3 "email" (PStr [])) as [_ [H _]].
    + apply list_elem_of_further, list_elem_of_here.
    + rewrite H by reflexivity. reflexivity.
Defined.

(** X18: Ann is greeted: one send, two history writes. *)
Lemma answered_message_trace_witness :
  let E := Cases.greeted (Ok (lit "How can I help?")) in
  ∃ w',
    execute_workflow E PNone false (Cases.ann_known false) = (Ok (), w') ∧
    sends (trace w') = 1%nat ∧ history_appends (trace w') = 2%nat.
Proof.
  intros E.
  destruct (answered_message_trace E PNone false (Cases.ann_known false)
              (lit "hello") Cases.ann (Cases.ann_row false)
              (Sample.decision "CustomerGreetingAgent") CustomerGreetingAgent
              (lit "How can I help?"))
    as [w' [H1 [H2 _]]];
    [reflexivity | reflexivity | reflexivity | left; reflexivity
     | reflexivity | reflexivity | reflexivity | reflexivity | reflexivity |].
  exists w'. split; [exact H1 |]. rewrite H2. split; reflexivity.
Defined.

(** X19: the greeting handler fails: one agent run, no send. *)
Lemma failed_agent_sends_nothing_witness :
  let E := Cases.greeted (Raise UpstreamError) in
  ∃ w',
    execute_workflow E PNone false (Cases.ann_known false) = (Ok (), w') ∧
    sends (trace w') = 0%nat ∧ agent_runs (trace w') = 1%nat.
Proof.
  intros E.
  destruct (failed_agent_sends_nothing E PNone false (Cases.ann_known false)
              (lit "hello") Cases.ann (Cases.ann_row false)
              (Sample.decision "CustomerGreetingAgent") CustomerGreetingAgent
              UpstreamError)
    as [w' [H1 [H2 [H3 _]]]];
    [reflexivity | reflexivity | reflexivity | left; reflexivity
     | reflexivity | reflexivity | reflexivity | reflexivity | reflexivity |].
  exists w'. split; [exact H1 |]. split; [exact H3 |]. rewrite H2. reflexivity.
Defined.

(** X20: Ann forwards an invitation; no agent runs. *)
Lemma referral_message_runs_no_agent_witness :
  agent_runs (trace (execute_workflow Cases.invited PNone false
                       (Sample.ledger 0 (PList []))).2) = 0%nat.
Proof.
  destruct (referral_message_runs_no_agent Cases.invited PNone false
              (Sample.ledger 0 (PList [])) (invitation_text (lit "ABCDEF"))
              Cases.ann (lit "QTMR")) as [_ [H _]];
    [reflexivity | reflexivity |].
  exact H.
Defined.

(** X24: a payload with an audio message runs the workflow with the voice
    flag. *)
Lemma webhook_dispatches_on_message_type_witness :
  receive_message Cases.outage (PDict (Cases.payload "audio"))
    Sample.empty_world
  = (Ok (lit "EVENT_RECEIVED"),
     (execute_workflow Cases.outage (PDict (Cases.payload "audio")) true
        Sample.empty_world).2).
Proof.
  destruct (webhook_dispatches_on_message_type Cases.outage Sample.empty_world
              (Cases.payload "audio") (Cases.entry "audio")
              (Cases.change "audio") (Cases.value "audio")
              (Cases.message "audio") [] [] [])
    as [_ H]; [reflexivity | reflexivity | reflexivity | reflexivity |].
  exact H.
Defined.

(** X16: Bo is created from what Shopify holds, with spend 0. *)
Lemma shopify_customer_is_created_witness :
  let E := Sample.collaborators None (Raise UpstreamError) None
             (Some (Sample.shop_of_bo PNone)) in
  ∃ fields,
    (_get_or_create_customer E (lit "923005550000") Sample.empty_world).1
    = Ok fields ∧
    get fields "customer_type" = PStr (lit "D2C") ∧
    get fields "total_spend" = PInt 0.
Proof.
  intros E.
  destruct (shopify_fields (Sample.shop_of_bo PNone) (lit "923005550000"))
    as [fields|] eqn:Hfields; [| discriminate].
  destruct (shopify_customer_is_created E (lit "923005550000")
              Sample.empty_world (Sample.shop_of_bo PNone) fields)
    as [H1 [_ [_ [H2 [H3 _]]]]];
    [reflexivity | reflexivity | reflexivity | reflexivity | exact Hfields
     | reflexivity |].
  exists fields. rewrite H1. split; [reflexivity |]. split; [exact H2 |].
  rewrite H3. reflexivity.
Defined.
